(** * Settlement program: the classification and reconciliation engine

    A shallow embedding of [settlement_app.py].  The program is written
    against pandas; the embedding keeps its structure:

    - a table ([DataFrame]) is a list of column names and a list of rows;
      a row carries its index label and its cells, keyed by column name in
      column order (column names may repeat after a rename, as in pandas);
    - a cell is a string, a number, a timestamp or the missing value
      (NaN, NaT, None and pd.NA are one value, [CNull]); numbers are
      integers, on which the program only takes absolute values, changes
      signs and counts; uploaded tables have distinct column names, as
      [pd.read_excel] makes them;
    - text is a [string] of UTF-8 bytes; splitting and searching on ASCII
      separators agrees with Python's code-point view of the same text;
    - the functions of pandas that parse text ([pd.to_datetime],
      [pd.to_numeric] on strings, [str()] of a non-string value), the
      regular expressions of [re], the test by which [Series.str] accepts
      a column, and the configuration file are parameters of the
      development;
    - the system clock read by [pd.Timestamp.now()] is the argument [now];
    - exceptions are values of [result]; the in-place updates of
      [filter_by_previous_month] act on a store of tables addressed by
      reference, so that sharing with the caller is visible. *)

From Stdlib Require Import ZArith String Ascii List Lia Bool Permutation DecimalString.
From stdpp Require Import base option list gmap strings.

Open Scope Z_scope.
Open Scope string_scope.
Open Scope list_scope.

(** ** Python string operations *)

Module Str.

(** [k in s] *)
Fixpoint contains (k s : string) : bool :=
  String.prefix k s ||
  match s with
  | EmptyString => false
  | String _ s' => contains k s'
  end.

Fixpoint drop (n : nat) (s : string) : string :=
  match n, s with
  | O, _ => s
  | S n', String _ s' => drop n' s'
  | S _, EmptyString => EmptyString
  end.

(** [s.split(sep, 1)[1]], defined when [sep in s] *)
Fixpoint after_first (sep s : string) : option string :=
  if String.prefix sep s then Some (drop (String.length sep) s)
  else match s with
       | EmptyString => None
       | String _ s' => after_first sep s'
       end.

(** [s.split(sep)] for a non-empty separator: [skip] counts the
    characters of a separator still to be passed over, [cur] is the
    segment being read. *)
Fixpoint split_go (sep : string) (skip : nat) (cur s : string) : list string :=
  match s with
  | EmptyString => [cur]
  | String c s' =>
      match skip with
      | S k => split_go sep k cur s'
      | O =>
          if String.prefix sep s
          then cur :: split_go sep (String.length sep - 1) EmptyString s'
          else split_go sep O (cur ++ String c EmptyString) s'
      end
  end.

Definition split (sep s : string) : list string :=
  split_go sep O EmptyString s.

(** [sep.join(l)] *)
Fixpoint join (sep : string) (l : list string) : string :=
  match l with
  | [] => EmptyString
  | x :: l' =>
      match l' with
      | [] => x
      | _ :: _ => x ++ sep ++ join sep l'
      end
  end.

(** [s.replace(old, new)] for a non-empty [old] *)
Fixpoint replace_go (old new : string) (skip : nat) (s : string) : string :=
  match s with
  | EmptyString => EmptyString
  | String c s' =>
      match skip with
      | S k => replace_go old new k s'
      | O =>
          if String.prefix old s
          then new ++ replace_go old new (String.length old - 1) s'
          else String c (replace_go old new O s')
      end
  end.

Definition replace (old new s : string) : string := replace_go old new O s.

Definition startswith (p s : string) : bool := String.prefix p s.

Definition endswith (suf s : string) : bool :=
  let n := String.length s in
  let k := String.length suf in
  (k <=? n)%nat && String.eqb (drop (n - k) s) suf.

(** ASCII white space as [str.isspace] has it; white space outside ASCII
    is not recognised by this byte-level model. *)
Definition is_space (c : ascii) : bool :=
  let n := nat_of_ascii c in
  ((9 <=? n)%nat && (n <=? 13)%nat) || ((28 <=? n)%nat && (n <=? 32)%nat).

Fixpoint lstrip (s : string) : string :=
  match s with
  | EmptyString => EmptyString
  | String c s' => if is_space c then lstrip s' else s
  end.

Fixpoint rstrip (s : string) : string :=
  match s with
  | EmptyString => EmptyString
  | String c s' =>
      match rstrip s' with
      | EmptyString => if is_space c then EmptyString else String c EmptyString
      | t => String c t
      end
  end.

Definition strip (s : string) : string := lstrip (rstrip s).

(** The characters that have a meaning of their own in a regular
    expression. *)
Definition is_meta (c : ascii) : bool :=
  existsb (Ascii.eqb c) (list_ascii_of_string ".^$*+?{}[]\|()").

(** A text that a regular expression reads as itself. *)
Fixpoint literal (s : string) : bool :=
  match s with
  | EmptyString => true
  | String c s' => negb (is_meta c) && literal s'
  end.

(** A search for one of several literal texts, given as one text with
    bars between them: the text is cut at its bars and each alternative
    is looked for as a substring.  The empty text has the single empty
    alternative, which occurs in every string.  This is what a regular
    expression with no metacharacter but the bar finds; it is not the
    program's search, which is [re_compile] below. *)
Definition find_alternative (pat s : string) : bool :=
  existsb (fun alt => contains alt s) (split "|" pat).

Definition mem (s : string) (l : list string) : bool :=
  existsb (String.eqb s) l.

End Str.

(** ** Cells, rows and tables *)

Record Timestamp := mkTimestamp { year : Z; month : Z; day : Z }.

Inductive cell :=
| CStr (s : string)
| CNum (n : Z)
| CDate (t : Timestamp)
| CNull.

#[global] Instance Timestamp_eq_dec : EqDecision Timestamp.
Proof. solve_decision. Defined.

#[global] Instance cell_eq_dec : EqDecision cell.
Proof. solve_decision. Defined.

(** [x == y] on scalars: the missing value equals nothing, itself included. *)
Definition cell_eqb (x y : cell) : bool :=
  match x, y with
  | CStr a, CStr b => String.eqb a b
  | CNum a, CNum b => Z.eqb a b
  | CDate a, CDate b => bool_decide (a = b)
  | _, _ => false
  end.

(** [x in values] as [Series.isin] decides it for strings, numbers and
    timestamps. *)
Definition cell_isin (values : list cell) (x : cell) : bool :=
  existsb (cell_eqb x) values.

Definition str_isin (values : list string) (x : cell) : bool :=
  match x with
  | CStr s => Str.mem s values
  | _ => false
  end.

Record Row := mkRow { label : Z; fields : list (string * cell) }.

Record DataFrame := mkDataFrame { columns : list string; rows : list Row }.

#[global] Instance Row_eq_dec : EqDecision Row.
Proof. solve_decision. Defined.

#[global] Instance DataFrame_eq_dec : EqDecision DataFrame.
Proof. solve_decision. Defined.

(** [pd.DataFrame()] *)
Definition pd_DataFrame : DataFrame := mkDataFrame [] [].

(** [df.empty]: some axis has length zero. *)
Definition empty (df : DataFrame) : bool :=
  match columns df, rows df with
  | [], _ => true
  | _, [] => true
  | _, _ => false
  end.

(** [len(df)] *)
Definition len (df : DataFrame) : nat := length (rows df).

Definition labels (df : DataFrame) : list Z := map label (rows df).

Definition has_column (c : string) (df : DataFrame) : bool :=
  Str.mem c (columns df).

Fixpoint lookup_field (c : string) (fs : list (string * cell)) : option cell :=
  match fs with
  | [] => None
  | (k, v) :: fs' => if String.eqb k c then Some v else lookup_field c fs'
  end.

(** The cell of a row under a column name (the first column of that name). *)
Definition get (c : string) (r : Row) : cell :=
  default CNull (lookup_field c (fields r)).

(** Writing a cell: every column of that name takes the value; a new
    column is added at the end. *)
Definition set_fields (c : string) (v : cell) (fs : list (string * cell))
  : list (string * cell) :=
  if Str.mem c (map fst fs)
  then map (fun kv => if String.eqb (fst kv) c then (fst kv, v) else kv) fs
  else fs ++ [(c, v)].

Definition set_cell (c : string) (v : cell) (r : Row) : Row :=
  mkRow (label r) (set_fields c v (fields r)).

Definition add_column (c : string) (cols : list string) : list string :=
  if Str.mem c cols then cols else cols ++ [c].

(** [df[c] = f(row)] for a value computed row by row. *)
Definition assign (c : string) (f : Row -> cell) (df : DataFrame) : DataFrame :=
  mkDataFrame (add_column c (columns df))
              (map (fun r => set_cell c (f r) r) (rows df)).

(** [df[c] = values] for a column computed as a whole: [values i] is the
    entry at position [i]. *)
Definition assign_at (c : string) (values : nat -> cell) (df : DataFrame) : DataFrame :=
  mkDataFrame (add_column c (columns df))
              (imap (fun i r => set_cell c (values i) r) (rows df)).

(** [df[mask]] *)
Definition select_rows (mask : Row -> bool) (df : DataFrame) : DataFrame :=
  mkDataFrame (columns df) (List.filter mask (rows df)).

(** [df.iloc[:-1]] *)
Definition iloc_drop_last (df : DataFrame) : DataFrame :=
  mkDataFrame (columns df) (removelast (rows df)).

(** [df.dropna(subset=[c])] *)
Definition dropna (c : string) (df : DataFrame) : DataFrame :=
  select_rows (fun r => negb (bool_decide (get c r = CNull))) df.

(** [df.rename(columns=m)], the dictionary [m] given by its lookup with
    default [m.get(c, c)]. *)
Definition rename (m : string -> string) (df : DataFrame) : DataFrame :=
  mkDataFrame (map m (columns df))
              (map (fun r => mkRow (label r)
                                (map (fun kv => (m (fst kv), snd kv)) (fields r)))
                   (rows df)).

(** [df[names]]: for each name in turn, every column of that name. *)
Definition pick_fields (names : list string) (fs : list (string * cell))
  : list (string * cell) :=
  flat_map (fun n => List.filter (fun kv => String.eqb (fst kv) n) fs) names.

Definition select_columns (names : list string) (df : DataFrame) : DataFrame :=
  mkDataFrame (flat_map (fun n => List.filter (String.eqb n) (columns df)) names)
              (map (fun r => mkRow (label r) (pick_fields names (fields r)))
                   (rows df)).

(** Every row of a table has one cell for each of its columns, in order. *)
Definition well_formed (d : DataFrame) : Prop :=
  Forall (fun r => map fst (fields r) = columns d) (rows d).

(** Among the columns [cols], only [source] is renamed to [target]. *)
Definition sole_source (m : string -> string) (target source : string)
           (cols : list string) : Prop :=
  Forall (fun k => m k = target -> k = source) cols.

(** ** Exceptions *)

Inductive error :=
| KeyError (key : string)
| IndexError
| ValueError
| AttributeError
| InvalidIndexError
| ReError.

Inductive result (A : Type) :=
| Ok (a : A)
| Err (e : error).

Arguments Ok {A} a.
Arguments Err {A} e.

#[global] Instance result_ret : MRet result := fun _ a => Ok a.

#[global] Instance result_bind : MBind result := fun _ _ f x =>
  match x with
  | Ok a => f a
  | Err e => Err e
  end.

(** [df[c]] raises [KeyError] on an absent column. *)
Definition require_column (c : string) (df : DataFrame) : result unit :=
  if has_column c df then Ok tt else Err (KeyError c).

(** [ignore_index=True]: the index is renumbered from zero. *)
Definition renumber (rs : list Row) : list Row :=
  imap (fun i r => mkRow (Z.of_nat i) (fields r)) rs.

Definition union_columns (frames : list DataFrame) : list string :=
  fold_left (fun acc d => acc ++ List.filter (fun c => negb (Str.mem c acc)) (columns d))
            frames [].

Definition reindex_row (cols : list string) (r : Row) : Row :=
  mkRow (label r) (map (fun c => (c, get c r)) cols).

(** [pd.concat(frames, ignore_index=True)].  Tables with the same columns
    are stacked as they are.  Otherwise the columns are united in order of
    first appearance and every row is re-indexed to them, which pandas
    refuses for a table with a repeated column name. *)
Definition concat (frames : list DataFrame) : result DataFrame :=
  match frames with
  | [] => Err ValueError
  | d0 :: _ =>
      if forallb (fun d => bool_decide (columns d = columns d0)) frames
      then Ok (mkDataFrame (columns d0) (renumber (flat_map rows frames)))
      else if forallb (fun d => bool_decide (NoDup (columns d))) frames
      then
        let cols := union_columns frames in
        Ok (mkDataFrame cols
              (renumber (flat_map (fun d => map (reindex_row cols) (rows d)) frames)))
      else Err InvalidIndexError
  end.

(** ** The configuration file *)

(** Modelled from the spec: the shape of [config.json], which is not among
    the sources.  The fields are the keys the program reads
    ([config['date_col']], [config['filters']], ...), named after their
    domain where two domains share a key.  Dictionaries that are only
    looked up are finite maps; dictionaries that the program iterates over
    keep the order of their entries; a filter value is a scalar or a
    list. *)

Inductive filter_value :=
| FScalar (v : cell)
| FList (vs : list cell).

Record TypeConditions := mkTypeConditions {
  normal_type : list string;
  normal_mall_keywords : list string }.

Record SeedingMap := mkSeedingMap {
  seed_brand : string;
  seed_mall : string;
  seed_category : string }.

Record ShippingRules := mkShippingRules {
  shipping_date_col : string;
  shipping_filters : list (string * filter_value);
  type_conditions : TypeConditions;
  mall_list : list string;
  category_map : gmap string string;
  seeding_map : option SeedingMap;
  shipping_final_columns : list (string * string) }.

Record ReturnRules := mkReturnRules {
  return_date_col : string;
  return_brand_col : string;
  return_qty_col : string;
  return_status_col : string;
  bad_pason_map : gmap string string;
  return_final_columns : list (string * string) }.

Record ReceivingRules := mkReceivingRules {
  receiving_date_col : string;
  receiving_type_col : string;
  free_types : list string;
  peculiar_filters : list (string * filter_value);
  receiving_qty_col : string;
  final_columns_peculiar : list (string * string);
  final_columns_free : list (string * string) }.

Record FileIdentifiers := mkFileIdentifiers {
  id_shipping : string;
  id_return : string;
  id_receiving : string }.

Record Config := mkConfig {
  excluded_brands : list string;
  file_identifiers : FileIdentifiers;
  rules_shipping : ShippingRules;
  rules_return : ReturnRules;
  rules_receiving : ReceivingRules }.

(** ** The store of tables

    A Python name holds a reference to a table.  The store maps references
    to tables; a computation of [St] reads and updates it.  Rebinding a
    name is a new reference, an update in place is a write at the same
    reference. *)

Definition ref := nat.

Record St (A : Type) := mkSt { run : gmap nat DataFrame -> A * gmap nat DataFrame }.
Arguments mkSt {A} run.
Arguments run {A} s h.

#[global] Instance St_ret : MRet St := fun _ a => mkSt (fun h => (a, h)).

#[global] Instance St_bind : MBind St := fun _ _ f x =>
  mkSt (fun h => let '(a, h') := run x h in run (f a) h').

(** The table a reference points to. *)
Definition content (h : gmap nat DataFrame) (l : ref) : DataFrame :=
  default pd_DataFrame (h !! l).

Definition deref (l : ref) : St DataFrame := mkSt (fun h => (content h l, h)).

(** An update in place of the table at [l]. *)
Definition store_at (l : ref) (d : DataFrame) : St unit :=
  mkSt (fun h => (tt, <[l := d]> h)).

(** A table of its own: [pd.DataFrame()], [.copy()]. *)
Definition new_object (d : DataFrame) : St ref :=
  mkSt (fun h => let l := fresh (dom h) in (l, <[l := d]> h)).

(** ** Constants of the program *)

Definition col_brand : string := "[브랜드]".
Definition col_mall : string := "[매출처]".
Definition col_type : string := "[택배사]".
Definition col_new : string := "구분(new)".
Definition col_source : string := "자료출처".
Definition col_unit : string := "단위".
Definition col_unit_ea : string := "단위(EA)".
Definition col_qty : string := "수량".
Definition col_date : string := "일자".
Definition col_category : string := "구분".
Definition col_ship_type : string := "출고타입".
Definition cat_return : string := "반품".
Definition cat_defective : string := "불량".
Definition cat_other : string := "기타".

(** ** A sample installation

    A configuration of the documented shape, simple parsers standing for
    those of pandas, and small uploads; the general statements below are
    instantiated on them. *)

Module Sample.

Definition digit_value (c : ascii) : option Z :=
  let n := nat_of_ascii c in
  if (48 <=? n)%nat && (n <=? 57)%nat then Some (Z.of_nat (n - 48)) else None.

Fixpoint digits_value (acc : Z) (s : string) : option Z :=
  match s with
  | EmptyString => Some acc
  | String c s' =>
      match digit_value c with
      | Some d => digits_value (10 * acc + d) s'
      | None => None
      end
  end.

Definition integer_of_string (s : string) : option Z :=
  match s with
  | EmptyString => None
  | String "-" (String c s') => Z.opp <$> digits_value 0 (String c s')
  | String "-" EmptyString => None
  | _ => digits_value 0 s
  end.

(** Dates written year-month-day. *)
Definition date_of_string (s : string) : option Timestamp :=
  match Str.split "-" s with
  | [y; m; d] =>
      match integer_of_string y, integer_of_string m, integer_of_string d with
      | Some y, Some m, Some d =>
          if (1 <=? m)%Z && (m <=? 12)%Z && (1 <=? d)%Z && (d <=? 31)%Z
          then Some (mkTimestamp y m d) else None
      | _, _, _ => None
      end
  | _ => None
  end.

Definition to_datetime (col : list cell) (i : nat) : option Timestamp :=
  match nth i col CNull with
  | CDate t => Some t
  | CStr s => date_of_string s
  | _ => None
  end.

Definition parse_numeric (c : cell) : option Z :=
  match c with
  | CStr s => integer_of_string (Str.strip s)
  | _ => None
  end.

Definition str_of_value (c : cell) : string :=
  match c with
  | CStr s => s
  | CNum n => DecimalString.NilZero.string_of_int (Z.to_int n)
  | CDate t =>
      DecimalString.NilZero.string_of_int (Z.to_int (year t)) ++ "-"
        ++ DecimalString.NilZero.string_of_int (Z.to_int (month t)) ++ "-"
        ++ DecimalString.NilZero.string_of_int (Z.to_int (day t))
  | CNull => "nan"
  end.

(** A regular-expression engine for patterns of literal alternatives; it
    refuses a pattern with any other metacharacter. *)
Definition re_compile (pat : string) : option (string -> bool) :=
  if forallb Str.literal (Str.split "|" pat)
  then Some (Str.find_alternative pat) else None.

(** [Series.str] accepts a column that holds a text. *)
Definition can_use_str (column : list cell) : bool :=
  existsb (fun c => match c with CStr _ => true | _ => false end) column.

Definition canonical_columns (date_src category_src : string) : list (string * string) :=
  [("_comment", "canonical name : source column");
   ("일자", date_src); ("주문번호", "[주문번호]"); ("구분", category_src);
   ("상품코드", "[상품코드]"); ("품목명", "[상품명]"); ("수량", "[수량]")].

Definition shipping : ShippingRules :=
  mkShippingRules
    "[출고일자]"
    [("_comment", FScalar (CStr "filters")); ("[상태]", FScalar (CStr "출고완료"));
     ("[주문유형]_exclude", FScalar (CStr "교환")); ("[창고]", FList [CStr "폐기창고"])]
    (mkTypeConditions ["택배"; "직배송"] ["자사몰"])
    ["스마트스토어"; "자사몰"]
    (list_to_map [("스마트스토어", "온라인"); ("default", "기타출고")])
    (Some (mkSeedingMap "브랜드A" "자사몰" "시딩"))
    (canonical_columns "[출고일자]" "[출고구분]" ++ [("출고타입", "[택배사]")]).

Definition returns : ReturnRules :=
  mkReturnRules "[반품일자]" "[브랜드]" "[수량]" "[반품상태]"
    (list_to_map [("불량", "불량"); ("파손", "파손")])
    (canonical_columns "[반품일자]" "[반품구분]").

Definition receiving : ReceivingRules :=
  mkReceivingRules "[입고일자]" "[입고유형]" ["무상입고"]
    [("_comment", FScalar (CStr "peculiar only")); ("[입고유형]", FList [CStr "정상입고"]);
     ("[비고]", FScalar (CStr "테스트"))]
    "[수량]"
    (canonical_columns "[입고일자]" "[입고구분]" ++ [("상태", "[상태]"); ("상품비고", "[비고]")])
    (canonical_columns "[입고일자]" "[입고구분]").

Definition config : Config :=
  mkConfig ["샘플브랜드"]
    (mkFileIdentifiers "[출고일자]" "[반품일자]" "[입고일자]")
    shipping returns receiving.

(** The run takes place in March 2024; the month settled is February. *)
Definition now : Timestamp := mkTimestamp 2024 3 5.

(** A table from its column names and the cells of its rows. *)
Definition table (cols : list string) (cells : list (list cell)) : DataFrame :=
  mkDataFrame cols (imap (fun i cs => mkRow (Z.of_nat i) (combine cols cs)) cells).

Definition shipping_columns : list string :=
  ["[출고일자]"; "[주문번호]"; "[브랜드]"; "[상태]"; "[주문유형]"; "[창고]";
   "[매출처]"; "[택배사]"; "[출고구분]"; "[상품코드]"; "[상품명]"; "[수량]"].

Definition shipping_row (date order mall carrier : string) (qty : Z) : list cell :=
  [CStr date; CStr order; CStr "브랜드A : 본사"; CStr "출고완료"; CStr "일반"; CStr "본창고";
   CStr mall; CStr carrier; CStr "판매"; CStr "P-001"; CStr "상품"; CNum qty].

(** Five shipments of February (three of a listed mall, one of an
    unlisted mall, one of another carrier type), two of other months and
    the closing summary row of the export. *)
Definition shipping_upload : DataFrame :=
  table shipping_columns
    [shipping_row "2024-02-01" "A1" "온라인: 스마트스토어" "택배" 2;
     shipping_row "2024-02-03" "A2" "자사몰" "택배" 1;
     shipping_row "2024-01-31" "A3" "자사몰" "택배" 4;
     shipping_row "2024-02-10" "A4" "스마트스토어" "직배송" 3;
     shipping_row "2024-02-14" "A5" "오픈마켓" "택배" 1;
     shipping_row "2024-02-20" "A6" "자사몰" "퀵서비스" 5;
     shipping_row "2024-03-01" "A7" "자사몰" "택배" 1;
     [CStr "합계"; CNull; CNull; CNull; CNull; CNull; CNull; CNull; CNull; CNull; CNull; CNum 17]].

Definition return_columns : list string :=
  ["[반품일자]"; "[주문번호]"; "[브랜드]"; "[반품상태]"; "[반품구분]";
   "[상품코드]"; "[상품명]"; "[수량]"].

Definition return_upload : DataFrame :=
  table return_columns
    [[CStr "2024-02-05"; CStr "R1"; CStr "브랜드A"; CStr "불량"; CStr "고객반품";
      CStr "P-001"; CStr "상품"; CNum 3];
     [CStr "2024-02-07"; CStr "R2"; CStr "브랜드B"; CStr "정상"; CStr "고객반품";
      CStr "P-002"; CStr "상품"; CStr "-2"];
     [CStr "2024-02-09"; CStr "R3"; CStr "샘플브랜드"; CStr "정상"; CStr "고객반품";
      CStr "P-003"; CStr "상품"; CNum 1];
     [CStr "합계"; CNull; CNull; CNull; CNull; CNull; CNull; CNum 2]].

Definition receiving_columns : list string :=
  ["[입고일자]"; "[주문번호]"; "[브랜드]"; "[입고유형]"; "[입고구분]"; "[상태]"; "[비고]";
   "[상품코드]"; "[상품명]"; "[수량]"].

Definition receiving_upload : DataFrame :=
  table receiving_columns
    [[CStr "2024-02-02"; CStr "I1"; CStr "브랜드A"; CStr "무상입고"; CStr "입고 : 무상샘플";
      CStr "양호"; CNull; CStr "P-001"; CStr "상품"; CNum 10];
     [CStr "2024-02-04"; CStr "I2"; CStr "브랜드A"; CStr "반품입고"; CStr "입고 : 반품";
      CStr "양호"; CNull; CStr "P-002"; CStr "상품"; CNum 4];
     [CStr "2024-02-06"; CStr "I3"; CStr "브랜드B"; CStr "정상입고"; CStr "입고 : 정상";
      CStr "양호"; CNull; CStr "P-003"; CStr "상품"; CNum 7];
     [CStr "2024-02-08"; CStr "I4"; CStr "브랜드B"; CStr "이동입고"; CStr "입고 : 이동";
      CStr "양호"; CNull; CStr "P-004"; CStr "상품"; CNum (-6)];
     [CStr "합계"; CNull; CNull; CNull; CNull; CNull; CNull; CNull; CNull; CNum 15]].




(** Tables of one row: an export that holds its summary row only, and an
    export with one dated receipt. *)
Definition summary_only : DataFrame :=
  table ["[입고일자]"; "[수량]"] [[CStr "합계"; CNum 17]].

Definition one_receipt : DataFrame :=
  table ["[입고일자]"; "[수량]"] [[CStr "2024-02-02"; CNum 10]].

(** A table as it is written to a sheet: a dated row and an undated one. *)
Definition dated_sheet : DataFrame :=
  table ["일자"; "수량"] [[CDate (mkTimestamp 2024 2 2); CNum 10]; [CNull; CNum 4]].

(** The sample uploads after the brand clean-up and the shipping filters. *)
Definition prepared_shipping : DataFrame :=
  table shipping_columns
    [shipping_row "2024-02-01" "A1" "온라인: 스마트스토어" "택배" 2;
     shipping_row "2024-02-10" "A4" "스마트스토어" "직배송" 3;
     shipping_row "2024-02-14" "A5" "오픈마켓" "택배" 1;
     shipping_row "2024-02-20" "A6" "자사몰" "퀵서비스" 5].

End Sample.

Section Engine.

Set Default Proof Using "Type".

(** The global [CONFIG]. *)
Variable CONFIG : Config.

(** [to_datetime col i] is entry [i] of
    [pd.to_datetime(col, errors='coerce')]; [None] is NaT.  The entry may
    depend on the whole column, as the format pandas infers does. *)
Variable to_datetime : list cell -> nat -> option Timestamp.

(** What [pd.to_numeric(_, errors='coerce')] makes of a cell that is not
    a number already; [None] is NaN. *)
Variable parse_numeric : cell -> option Z.

(** [str(x)] of a cell that is not text already. *)
Variable str_of_value : cell -> string.

(** [re.compile(pat)]: [None] is [re.error] on a pattern that is not a
    regular expression; otherwise the function is
    [lambda s: compiled.search(s) is not None]. *)
Variable re_compile : string -> option (string -> bool).

(** Whether [Series.str] accepts a column with these cells; when it does
    not, the access raises [AttributeError] (can only use .str accessor
    with string values).  The test is pandas's own inference on the
    column and its dtype.  The program applies it to one column in a
    run. *)
Variable can_use_str : list cell -> bool.

Definition to_numeric (c : cell) : option Z :=
  match c with
  | CNum n => Some n
  | CNull => None
  | _ => parse_numeric c
  end.

(** [pd.to_numeric(x, errors='coerce').fillna(0)] *)
Definition numeric_or_zero (c : cell) : Z := default 0 (to_numeric c).

Definition astype_str (c : cell) : string :=
  match c with
  | CStr s => s
  | _ => str_of_value c
  end.

(** [.astype(str).str.split(':').str[0].str.strip()] *)
Definition normalize_brand (c : cell) : string :=
  Str.strip (hd EmptyString (Str.split ":" (astype_str c))).

Definition column_values (c : string) (d : DataFrame) : list cell :=
  map (get c) (rows d).

Definition cell_of_datetime (o : option Timestamp) : cell :=
  match o with
  | Some t => CDate t
  | None => CNull
  end.

(** ** Previous-month filter (lines 22-39) *)

Definition prev_month_year (now : Timestamp) : Z :=
  if (1 <? month now)%Z then year now else (year now - 1)%Z.

Definition prev_month (now : Timestamp) : Z :=
  if (1 <? month now)%Z then (month now - 1)%Z else 12%Z.

(** [(df[c].dt.year == y) & (df[c].dt.month == m)] *)
Definition in_year_month (c : string) (y m : Z) (r : Row) : bool :=
  match get c r with
  | CDate t => (year t =? y)%Z && (month t =? m)%Z
  | _ => false
  end.

(** The parameter [df] is a reference to the caller's table.  The local
    name [df] is rebound to a copy only when the table has more than one
    row; the two statements after it update whatever [df] refers to. *)
Definition filter_by_previous_month (now : Timestamp) (df : ref) (date_col : string)
  : St ref :=
  d ← deref df;
  if negb (has_column date_col d) || empty d then new_object pd_DataFrame
  else
    df ← (if (1 <? len d)%nat then new_object (iloc_drop_last d) else mret df);
    d ← deref df;
    store_at df
      (assign_at date_col
         (fun i => cell_of_datetime (to_datetime (column_values date_col d) i)) d);;
    d ← deref df;
    store_at df (dropna date_col d);;
    d ← deref df;
    if empty d then new_object pd_DataFrame
    else
      new_object
        (select_rows (in_year_month date_col (prev_month_year now) (prev_month now)) d).

(** The table a caller gets back when it passes a table nothing else
    refers to, as the three classifiers do. *)
Definition previous_month_of (now : Timestamp) (d : DataFrame) (date_col : string)
  : DataFrame :=
  let '(l, h) := run (filter_by_previous_month now 0%nat date_col) {[ 0%nat := d ]} in
  content h l.

(** The table the filter returns, as an expression of the caller's table
    ([filter_by_previous_month_returns] below). *)
Definition previous_month_value (now : Timestamp) (d : DataFrame) (date_col : string)
  : DataFrame :=
  if negb (has_column date_col d) || empty d then pd_DataFrame
  else
    let body := if (1 <? len d)%nat then iloc_drop_last d else d in
    let parsed :=
      dropna date_col
        (assign_at date_col
           (fun i => cell_of_datetime (to_datetime (column_values date_col body) i))
           body) in
    if empty parsed then pd_DataFrame
    else select_rows (in_year_month date_col (prev_month_year now) (prev_month now))
                     parsed.

(** ** Steps shared by the classifiers *)

(** Brand clean-up and exclusion (lines 52-53, 125-126, 170-171). *)
Definition exclude_brands (brand_col : string) (df : DataFrame) : result DataFrame :=
  require_column brand_col df;;
  let df := assign brand_col (fun r => CStr (normalize_brand (get brand_col r))) df in
  mret (select_rows
          (fun r => negb (str_isin (excluded_brands CONFIG) (get brand_col r))) df).

(** [df[mask]] for a mask given by position. *)
Definition select_rows_at (mask : nat -> Row -> bool) (df : DataFrame) : DataFrame :=
  mkDataFrame (columns df)
              (map snd (List.filter (fun ir => mask (fst ir) (snd ir))
                                    (imap pair (rows df)))).

(** [df[c] != val]: against a scalar cell by cell; against a list
    position by position, and only when the lengths agree. *)
Definition keep_not_equal (c : string) (val : filter_value) (df : DataFrame)
  : result DataFrame :=
  require_column c df;;
  match val with
  | FScalar v => mret (select_rows (fun r => negb (cell_eqb (get c r) v)) df)
  | FList vs =>
      if bool_decide (length vs = len df)
      then mret (select_rows_at
                   (fun i r => negb (cell_eqb (get c r) (nth i vs CNull))) df)
      else Err ValueError
  end.

(** [{v: k for k, v in cols_map.items() if keep k v}] *)
Definition inverted (keep : string -> string -> bool) (cols_map : list (string * string))
  : gmap string string :=
  fold_left (fun m kv => if keep (fst kv) (snd kv) then <[snd kv := fst kv]> m else m)
            cols_map ∅.

Definition renamed (m : gmap string string) (c : string) : string :=
  default c (m !! c).

(** [for col in cols: if col not in df.columns: df[col] = pd.NA] *)
Definition fill_missing (cols : list string) (df : DataFrame) : DataFrame :=
  fold_left (fun d col => if has_column col d then d else assign col (fun _ => CNull) d)
            cols df.

(** ** Shipping classifier (lines 44-111) *)

Definition shipping_filter (df : DataFrame) (entry : string * filter_value)
  : result DataFrame :=
  let '(col, val) := entry in
  if Str.startswith "_" col then mret df
  else if Str.endswith "_exclude" col
  then keep_not_equal (Str.replace "_exclude" EmptyString col) val df
  else
    require_column col df;;
    match val with
    | FList vs => mret (select_rows (fun r => negb (cell_isin vs (get col r))) df)
    | FScalar v => mret (select_rows (fun r => cell_eqb (get col r) v) df)
    end.

Fixpoint shipping_filters_loop (entries : list (string * filter_value)) (df : DataFrame)
  : result DataFrame :=
  match entries with
  | [] => mret df
  | e :: es => df ← shipping_filter df e; shipping_filters_loop es df
  end.

(** [x.split(': ', 1)[1] if ': ' in x else x] on [astype(str)] *)
Definition normalize_mall (c : cell) : string :=
  let x := astype_str c in
  match Str.after_first ": " x with
  | Some t => t
  | None => x
  end.

Definition cond_type_normal (config : ShippingRules) (r : Row) : bool :=
  str_isin (normal_type (type_conditions config)) (get col_type r).

(** [df[mall_col].str.contains(pattern, na=False)] on one row, for the
    compiled [pattern]. *)
Definition cond_mall_keywords (search : string -> bool) (r : Row) : bool :=
  match get col_mall r with
  | CStr s => search s
  | _ => false
  end.

(** Line 69, for [first_type = normal_type[0]]. *)
Definition is_normal (config : ShippingRules) (search : string -> bool)
           (first_type : string) (r : Row) : bool :=
  (cell_eqb (get col_type r) (CStr first_type) && cond_mall_keywords search r)
  || cond_type_normal config r.

(** The mask [is_normal] of lines 67-69.  Line 68 compiles the keywords,
    joined with bars, as a regular expression, and raises [re.error] when
    they are none; after it, [normal_type[0]] of line 69 raises
    [IndexError] on an empty list. *)
Definition type_normal_mask (config : ShippingRules) : result (Row -> bool) :=
  match re_compile (Str.join "|" (normal_mall_keywords (type_conditions config))) with
  | None => Err ReError
  | Some search =>
      match normal_type (type_conditions config) with
      | first_type :: _ => Ok (is_normal config search first_type)
      | [] => Err IndexError
      end
  end.

Definition assign_category (d : DataFrame) (category_map : gmap string string)
           (seeding_map : option SeedingMap) : DataFrame :=
  if empty d then d
  else
    let fallback := default cat_other (category_map !! "default") in
    let d := assign col_new
               (fun r => match get col_mall r with
                         | CStr s => CStr (default fallback (category_map !! s))
                         | _ => CStr fallback
                         end) d in
    match seeding_map with
    | Some sm =>
        assign col_new
          (fun r => if cell_eqb (get col_brand r) (CStr (seed_brand sm))
                       && cell_eqb (get col_mall r) (CStr (seed_mall sm))
                    then CStr (seed_category sm)
                    else get col_new r) d
    | None => d
    end.

Definition canonical_rename_map (cols_map : list (string * string)) : gmap string string :=
  <[col_unit := col_unit_ea]>
    (<[col_source := col_source]>
       (<[col_new := col_new]>
          (inverted (fun k _ => negb (Str.startswith "_" k)) cols_map))).

Definition shipping_col_order (is_abnormal : bool) : list string :=
  (if is_abnormal then [col_ship_type] else [])
    ++ [col_date; "주문번호"; col_new; col_category; "상품코드"; "품목명";
        col_unit_ea; col_qty; col_source].

Definition shipping_finalize (d : DataFrame) (cols_map : list (string * string))
           (is_abnormal : bool) : DataFrame :=
  if empty d then pd_DataFrame
  else
    let d := assign col_source (fun _ => CStr "삼일 출고데이터") d in
    let d := assign col_unit (fun _ => CNum 1) d in
    let final_df := rename (renamed (canonical_rename_map cols_map)) d in
    let col_order := shipping_col_order is_abnormal in
    let final_df := fill_missing col_order final_df in
    select_columns (List.filter (fun c => has_column c final_df) col_order) final_df.

(** Lines 52-62: the table the classification starts from. *)
Definition shipping_prepare (config : ShippingRules) (df : DataFrame) : result DataFrame :=
  df ← exclude_brands col_brand df;
  shipping_filters_loop (shipping_filters config) df.

(** Lines 64-111. *)
Definition shipping_classify (config : ShippingRules) (df : DataFrame)
  : result (DataFrame * DataFrame * DataFrame) :=
  require_column col_mall df;;
  let df := assign col_mall (fun r => CStr (normalize_mall (get col_mall r))) df in
  require_column col_type df;;
  is_normal ← type_normal_mask config;
  let df_normal_candidate := select_rows is_normal df in
  let df_shipping_type_abnormal := select_rows (fun r => negb (is_normal r)) df in
  let in_mall_list r := str_isin (mall_list config) (get col_mall r) in
  let df_main := select_rows in_mall_list df_normal_candidate in
  let df_store_abnormal :=
    select_rows (fun r => negb (in_mall_list r)) df_normal_candidate in
  let df_main := assign_category df_main (category_map config) (seeding_map config) in
  let df_store_abnormal :=
    assign_category df_store_abnormal (category_map config) (seeding_map config) in
  mret (shipping_finalize df_main (shipping_final_columns config) false,
        shipping_finalize df_shipping_type_abnormal (shipping_final_columns config) true,
        shipping_finalize df_store_abnormal (shipping_final_columns config) false).

Definition process_shipping_data (now : Timestamp) (df : DataFrame)
  : result (DataFrame * DataFrame * DataFrame) :=
  let config := rules_shipping CONFIG in
  if empty df then mret (pd_DataFrame, pd_DataFrame, pd_DataFrame)
  else
    let df := previous_month_of now df (shipping_date_col config) in
    if empty df then mret (pd_DataFrame, pd_DataFrame, pd_DataFrame)
    else
      df ← shipping_prepare config df;
      shipping_classify config df.

(** The input of the classification proper: the table after the
    previous-month filter, the brand exclusion and the configured
    filters; the two early exits leave no row. *)
Definition shipping_filtered_input (now : Timestamp) (df : DataFrame) : result DataFrame :=
  let config := rules_shipping CONFIG in
  if empty df then mret pd_DataFrame
  else
    let df := previous_month_of now df (shipping_date_col config) in
    if empty df then mret pd_DataFrame
    else shipping_prepare config df.

(** ** Return classifier (lines 113-160) *)

Definition canonical_col_order : list string := shipping_col_order false.

(** [df[status_col].isin(config['bad_pason_map'].keys())] *)
Definition status_mapped (config : ReturnRules) (r : Row) : bool :=
  match get (return_status_col config) r with
  | CStr s => bool_decide (is_Some (bad_pason_map config !! s))
  | _ => false
  end.

(** [df[status_col].map(config['bad_pason_map'])] *)
Definition mapped_category (config : ReturnRules) (r : Row) : cell :=
  match get (return_status_col config) r with
  | CStr s => match bad_pason_map config !! s with
              | Some c => CStr c
              | None => CNull
              end
  | _ => CNull
  end.

(** [x * k] on a cell of a numeric column *)
Definition cell_mul (x : cell) (k : Z) : cell :=
  match x with
  | CNum n => CNum (n * k)
  | _ => CNull
  end.

(** Lines 124-126: the rows the classification starts from. *)
Definition return_prepare (config : ReturnRules) (df : DataFrame) : result DataFrame :=
  exclude_brands (return_brand_col config) df.

(** Lines 129-160. *)
Definition return_classify (config : ReturnRules) (df : DataFrame) : result DataFrame :=
  let qty_col := return_qty_col config in
  let status_col := return_status_col config in
  require_column qty_col df;;
  let df := assign qty_col (fun r => CNum (numeric_or_zero (get qty_col r))) df in
  let df_return := assign col_new (fun _ => CStr cat_return) df in
  require_column status_col df;;
  let df_bad_pason := select_rows (status_mapped config) df in
  let df_bad_pason :=
    if negb (empty df_bad_pason)
    then assign col_new (mapped_category config) df_bad_pason
    else df_bad_pason in
  df_final ← concat [df_return; df_bad_pason];
  let df_final := assign col_source (fun _ => CStr "삼일 반품데이터") df_final in
  let df_final := assign col_unit (fun _ => CNum 1) df_final in
  let df_final :=
    assign qty_col (fun r => CNum (Z.abs (numeric_or_zero (get qty_col r)))) df_final in
  let df_final :=
    assign qty_col
      (fun r => if cell_eqb (get col_new r) (CStr cat_return)
                then cell_mul (get qty_col r) (-1) else get qty_col r) df_final in
  let df_final :=
    assign qty_col
      (fun r => if cell_eqb (get col_new r) (CStr cat_defective)
                then cell_mul (get qty_col r) 1 else get qty_col r) df_final in
  let final_df :=
    rename (renamed (canonical_rename_map (return_final_columns config))) df_final in
  mret (select_columns
          (List.filter (fun c => has_column c final_df) canonical_col_order) final_df).

Definition process_return_data (now : Timestamp) (df : DataFrame) : result DataFrame :=
  let config := rules_return CONFIG in
  if empty df then mret pd_DataFrame
  else
    let df := previous_month_of now df (return_date_col config) in
    if empty df then mret pd_DataFrame
    else
      df ← return_prepare config df;
      return_classify config df.

(** ** Receiving classifier (lines 163-228) *)

Definition receiving_filter (df_peculiar : DataFrame) (entry : string * filter_value)
  : result DataFrame :=
  let '(col, val) := entry in
  if Str.startswith "_" col then mret df_peculiar
  else
    match val with
    | FList vs =>
        require_column col df_peculiar;;
        mret (select_rows (fun r => negb (cell_isin vs (get col r))) df_peculiar)
    | FScalar _ => keep_not_equal col val df_peculiar
    end.

Fixpoint receiving_filters_loop (entries : list (string * filter_value))
         (df_peculiar : DataFrame) : result DataFrame :=
  match entries with
  | [] => mret df_peculiar
  | e :: es => d ← receiving_filter df_peculiar e; receiving_filters_loop es d
  end.

(** [.str.split(' : ').str[1]] on one cell *)
Definition second_segment (c : cell) : cell :=
  match c with
  | CStr s => match Str.split " : " s with
              | _ :: x :: _ => CStr x
              | _ => CNull
              end
  | _ => CNull
  end.

Definition receiving_final_cols : list string :=
  [col_date; "주문번호"; col_new; col_category; "상품코드"; "품목명";
   col_unit_ea; col_qty; col_source; "상태"; "상품비고"; "브랜드"].

Definition receiving_rename_map (qty_src_col : string) (cols_map : list (string * string))
  : gmap string string :=
  inverted (fun k v => negb (Str.startswith "_" k)
                       && negb (Str.mem v [qty_src_col; col_unit])) cols_map.

(** [final_df['구분']] must be one column for [.str] to apply. *)
Definition require_single_column (c : string) (df : DataFrame) : result unit :=
  match List.filter (String.eqb c) (columns df) with
  | [] => Err (KeyError c)
  | [_] => Ok tt
  | _ => Err AttributeError
  end.

(** [column.str]: refused for a column pandas does not take for text. *)
Definition require_str_accessor (column : list cell) : result unit :=
  if can_use_str column then Ok tt else Err AttributeError.

Definition receiving_finalize (config : ReceivingRules) (d : DataFrame)
           (cols_map : list (string * string)) (is_free : bool) : result DataFrame :=
  if empty d then mret pd_DataFrame
  else
    let d := assign col_source (fun _ => CStr "삼일 입고데이터") d in
    let d := assign col_unit (fun _ => CNum 1) d in
    let qty_src_col := receiving_qty_col config in
    require_column qty_src_col d;;
    let orig_qty := map (fun r => numeric_or_zero (get qty_src_col r)) (rows d) in
    let final_df := rename (renamed (receiving_rename_map qty_src_col cols_map)) d in
    final_df ←
      (if is_free
       then
         let final_df := assign_at col_qty (fun i => CNum (nth i orig_qty 0)) final_df in
         require_single_column col_category final_df;;
         require_str_accessor (column_values col_category final_df);;
         mret (assign col_new (fun r => second_segment (get col_category r)) final_df)
       else
         let final_df :=
           assign_at col_qty (fun i => CNum (- Z.abs (nth i orig_qty 0))) final_df in
         mret (assign col_new (fun _ => CStr cat_return) final_df));
    let final_df := assign col_unit_ea (fun _ => CNum 1) final_df in
    (* final_df.drop(columns=['단위'], errors='ignore') is not bound to a name *)
    let final_df := fill_missing receiving_final_cols final_df in
    mret (select_columns receiving_final_cols final_df).

(** Lines 170-181: the two buckets before they are finalized. *)
Definition receiving_buckets (config : ReceivingRules) (df : DataFrame)
  : result (DataFrame * DataFrame) :=
  df ← exclude_brands col_brand df;
  require_column (receiving_type_col config) df;;
  let is_free r := str_isin (free_types config) (get (receiving_type_col config) r) in
  let df_free := select_rows is_free df in
  let df_peculiar := select_rows (fun r => negb (is_free r)) df in
  df_peculiar ← receiving_filters_loop (peculiar_filters config) df_peculiar;
  mret (df_peculiar, df_free).

Definition process_receiving_data (now : Timestamp) (df : DataFrame)
  : result (DataFrame * DataFrame) :=
  let config := rules_receiving CONFIG in
  if empty df then mret (pd_DataFrame, pd_DataFrame)
  else
    let df := previous_month_of now df (receiving_date_col config) in
    if empty df then mret (pd_DataFrame, pd_DataFrame)
    else
      '(df_peculiar, df_free) ← receiving_buckets config df;
      peculiar ← receiving_finalize config df_peculiar (final_columns_peculiar config) false;
      free ← receiving_finalize config df_free (final_columns_free config) true;
      mret (peculiar, free).

(** ** Batch processing (lines 246-309)

    The uploaded files arrive as the tables [pd.read_excel] made of them.
    The workbook is the list of its sheets in the order they are written;
    its encoding as a file is the work of the spreadsheet library. *)

Definition digit (n : Z) : ascii := ascii_of_nat (48 + Z.to_nat (n mod 10)).

Definition two_digits (n : Z) : string :=
  String (digit (n / 10)) (String (digit n) EmptyString).

(** [t.strftime('%Y-%m-%d')], for the four-digit years a pandas
    timestamp can hold. *)
Definition strftime (t : Timestamp) : string :=
  String (digit (year t / 1000)) (String (digit (year t / 100)) (two_digits (year t)))
    ++ "-" ++ two_digits (month t) ++ "-" ++ two_digits (day t).

Definition format_date_columns (df_to_format : DataFrame) : result DataFrame :=
  if has_column col_date df_to_format
  then
    match List.filter (String.eqb col_date) (columns df_to_format) with
    | [_] =>
        let parsed := to_datetime (column_values col_date df_to_format) in
        mret (assign_at col_date
                (fun i => match parsed i with
                          | Some t => CStr (strftime t)
                          | None => CNull
                          end) df_to_format)
    | _ => Err ValueError
    end
  else mret df_to_format.

(** [if not df.empty: format_date_columns(df).to_excel(writer, sheet_name=name)] *)
Definition write_sheet (name : string) (df : DataFrame)
  : result (list (string * DataFrame)) :=
  if negb (empty df)
  then d ← format_date_columns df; mret [(name, d)]
  else mret [].

Definition sheet_validation : string := "검증".

(** [pd.DataFrame(validation_data)] *)
Definition validation_frame (n_main n_type n_store : nat) : DataFrame :=
  let total_processed := (n_main + n_type + n_store)%nat in
  mkDataFrame ["항목"; "건수"]
    (imap (fun i kv => mkRow (Z.of_nat i)
                         [("항목", CStr (fst kv)); ("건수", CNum (Z.of_nat (snd kv)))])
          [("일반 출고", n_main); ("출고타입 이상", n_type); ("매출처 이상", n_store);
           ("처리된 총 출고건수 (검증용)", total_processed)]).

(** Lines 258-270: every file goes to the first domain whose marker
    column it has; a file with none is reported and left out. *)
Fixpoint sort_uploads (uploaded_files : list DataFrame)
  : list DataFrame * list DataFrame * list DataFrame :=
  match uploaded_files with
  | [] => ([], [], [])
  | df_temp :: rest =>
      let '(shipping_parts, return_parts, receiving_parts) := sort_uploads rest in
      if has_column (id_shipping (file_identifiers CONFIG)) df_temp
      then (df_temp :: shipping_parts, return_parts, receiving_parts)
      else if has_column (id_return (file_identifiers CONFIG)) df_temp
      then (shipping_parts, df_temp :: return_parts, receiving_parts)
      else if has_column (id_receiving (file_identifiers CONFIG)) df_temp
      then (shipping_parts, return_parts, df_temp :: receiving_parts)
      else (shipping_parts, return_parts, receiving_parts)
  end.

(** [if parts: df = pd.concat(parts, ignore_index=True)] over
    [df = pd.DataFrame()] *)
Definition concat_parts (parts : list DataFrame) : result DataFrame :=
  match parts with
  | [] => mret pd_DataFrame
  | _ :: _ => concat parts
  end.

(** Lines 277-306: the sheets written from the three domain tables. *)
Definition assemble (now : Timestamp) (df_shipping df_return df_receiving : DataFrame)
  : result (list (string * DataFrame)) :=
  '(main_shipping, type_abnormal, store_abnormal) ← process_shipping_data now df_shipping;
  main_return ← process_return_data now df_return;
  '(peculiar_receiving, free_receiving) ← process_receiving_data now df_receiving;
  df_summary_final ← concat [main_shipping; main_return];
  s1 ← write_sheet "정산요약" df_summary_final;
  s2 ← write_sheet "매출처 이상" store_abnormal;
  s3 ← write_sheet "출고타입 이상" type_abnormal;
  s4 ← write_sheet "입고 특이사항" peculiar_receiving;
  s5 ← write_sheet "무상 정상 입고" free_receiving;
  mret (s1 ++ s2 ++ s3 ++ s4 ++ s5
          ++ [(sheet_validation,
               validation_frame (len main_shipping) (len type_abnormal)
                                (len store_abnormal))]).

(** The body of the [try] block; [Err] is the exception the handler
    reports, after which no workbook is offered. *)
Definition run_batch (now : Timestamp) (uploaded_files : list DataFrame)
  : result (list (string * DataFrame)) :=
  let '(shipping_parts, return_parts, receiving_parts) := sort_uploads uploaded_files in
  df_shipping ← concat_parts shipping_parts;
  df_return ← concat_parts return_parts;
  df_receiving ← concat_parts receiving_parts;
  assemble now df_shipping df_return df_receiving.

(** The rows the return classification starts from: the table after
    the previous-month filter and the brand exclusion. *)
Definition return_filtered_input (now : Timestamp) (df : DataFrame) : result DataFrame :=
  let config := rules_return CONFIG in
  if empty df then mret pd_DataFrame
  else
    let df := previous_month_of now df (return_date_col config) in
    if empty df then mret pd_DataFrame
    else return_prepare config df.

(** Lines 131-135 and 140 on one row: the quantity made a number, the
    category written. *)
Definition return_labelled (config : ReturnRules) (category : Row -> cell) (r : Row) : Row :=
  let r := set_cell (return_qty_col config)
                    (CNum (numeric_or_zero (get (return_qty_col config) r))) r in
  set_cell col_new (category r) r.

(** Lines 144-152 on one row of [df_final]. *)
Definition return_signed (config : ReturnRules) (r : Row) : Row :=
  let qty_col := return_qty_col config in
  let r := set_cell col_source (CStr "삼일 반품데이터") r in
  let r := set_cell col_unit (CNum 1) r in
  let r := set_cell qty_col (CNum (Z.abs (numeric_or_zero (get qty_col r)))) r in
  let r := set_cell qty_col
             (if cell_eqb (get col_new r) (CStr cat_return)
              then cell_mul (get qty_col r) (-1) else get qty_col r) r in
  set_cell qty_col
    (if cell_eqb (get col_new r) (CStr cat_defective)
     then cell_mul (get qty_col r) 1 else get qty_col r) r.

(** Lines 155-160 on one row: renamed, then cut to the columns [names]. *)
Definition projected (m : gmap string string) (names : list string) (r : Row) : Row :=
  mkRow (label r)
        (pick_fields names (map (fun kv => (renamed m (fst kv), snd kv)) (fields r))).

(** An output row of the return classifier comes from a row of the
    prepared table: each of its cells is the cell of that row under the
    column renamed to its name, unless the column is one the classifier
    writes itself (quantity, category, data source, unit). *)
Definition return_derived (config : ReturnRules) (src r : Row) : Prop :=
  forall c v,
    In (c, v) (fields r) ->
    exists k,
      renamed (canonical_rename_map (return_final_columns config)) k = c
      /\ (In k [return_qty_col config; col_new; col_source; col_unit]
          \/ In (k, v) (fields src)).

(** The number a quantity cell is coerced to, as the specification has
    it: a number is itself, a blank is zero, and any other cell is what
    [pd.to_numeric] reads in it, zero when it reads nothing. *)
Inductive coerced : cell -> Z -> Prop :=
| coerced_number n : coerced (CNum n) n
| coerced_blank : coerced CNull 0
| coerced_text s : coerced (CStr s) (default 0 (parse_numeric (CStr s)))
| coerced_date t : coerced (CDate t) (default 0 (parse_numeric (CDate t))).

(** The status of a row is a key of the status map. *)
Definition status_is_key (config : ReturnRules) (r : Row) : bool :=
  existsb (fun key => bool_decide (get (return_status_col config) r = CStr key))
          (map fst (map_to_list (bad_pason_map config))).

(** The sign rule of the return classifier, for an output row [r] that
    comes from the row [src] of the prepared table: the quantity is the
    absolute value of the number the source quantity is coerced to,
    negated exactly when the row is labelled as a return; it is not
    positive when the status of [src] is not a key of the status map. *)
Definition signed_quantity (config : ReturnRules) (src r : Row) : Prop :=
  exists q n,
    coerced (get (return_qty_col config) src) q
    /\ get col_qty r = CNum n
    /\ n = (if bool_decide (get col_new r = CStr cat_return) then - Z.abs q else Z.abs q)
    /\ (status_is_key config src = false -> n <= 0).



(** The text [t] is cut at its first separator [sep] into [a], before
    it, and [u], after it. *)
Definition first_cut (sep t a u : string) : Prop :=
  t = (a ++ sep ++ u)%string
  /\ forall a' u', t = (a' ++ sep ++ u')%string -> (String.length a <= String.length a')%nat.

(** The separator [sep] does not occur in [t]. *)
Definition uncut (sep t : string) : Prop :=
  forall a u, t <> (a ++ sep ++ u)%string.

(** The second of the segments that the separator " : " cuts a category
    text into, as the specification has it: the text after the first
    separator, up to the next one if there is one.  A text with no
    separator, and a cell that is no text, have no second segment. *)
Inductive second_of : cell -> cell -> Prop :=
| second_of_last t a u :
    first_cut " : " t a u -> uncut " : " u -> second_of (CStr t) (CStr u)
| second_of_more t a u seg v :
    first_cut " : " t a u -> first_cut " : " u seg v -> second_of (CStr t) (CStr seg)
| second_of_uncut t : uncut " : " t -> second_of (CStr t) CNull
| second_of_number n : second_of (CNum n) CNull
| second_of_date t : second_of (CDate t) CNull
| second_of_blank : second_of CNull CNull.


(** What a shipping filter entry asks of a row: nothing for a reserved
    key; for a key ending in [_exclude], a cell other than the value under
    the companion column; for a list, a cell outside the list; for a
    scalar, a cell equal to it. *)
Definition shipping_entry_holds (entry : string * filter_value) (r : Row) : bool :=
  let '(col, val) := entry in
  if Str.startswith "_" col then true
  else if Str.endswith "_exclude" col
  then match val with
       | FScalar v => negb (cell_eqb (get (Str.replace "_exclude" EmptyString col) r) v)
       | FList _ => true
       end
  else match val with
       | FList vs => negb (cell_isin vs (get col r))
       | FScalar v => cell_eqb (get col r) v
       end.

(** What a filter entry of the peculiar bucket asks of a row: nothing
    for a reserved key; for a list, a cell outside the list; for a scalar,
    a cell other than it. *)
Definition receiving_entry_holds (entry : string * filter_value) (r : Row) : bool :=
  let '(col, val) := entry in
  if Str.startswith "_" col then true
  else match val with
       | FList vs => negb (cell_isin vs (get col r))
       | FScalar v => negb (cell_eqb (get col r) v)
       end.

(** ** The previous-month filter as the specification words it

    A timestamp lies in the calendar month before [now]: in December of
    the year before when [now] is in January, in the month before of the
    same year otherwise. *)
Definition in_preceding_month (now t : Timestamp) : Prop :=
  (month now = 1 /\ year t = year now - 1 /\ month t = 12)
  \/ (1 < month now /\ year t = year now /\ month t = month now - 1).

#[global] Instance in_preceding_month_dec now t : Decision (in_preceding_month now t).
Proof. unfold in_preceding_month. apply _. Defined.

(** The rows to be considered: all of them, or all but the last when
    there is more than one. *)
Definition without_summary_row (d : DataFrame) : list Row :=
  if (1 <? len d)%nat then removelast (rows d) else rows d.

(** Of [body], the rows whose date parses and lies in the month before
    [now], in their order, each with its date cell read as a timestamp. *)
Definition rows_of_preceding_month (now : Timestamp) (date_col : string)
           (body : list Row) : list Row :=
  omap (fun r => r)
       (imap (fun i r =>
                match to_datetime (map (get date_col) body) i with
                | Some t => if decide (in_preceding_month now t)
                            then Some (set_cell date_col (CDate t) r)
                            else None
                | None => None
                end) body).


(** * Properties *)

(** ** Cells and rows *)

Lemma mem_true_iff (s : string) (l : list string) : Str.mem s l = true <-> In s l.
Proof.
unfold Str.mem. rewrite existsb_exists. split.
- intros (x & Hx & Heq). apply String.eqb_eq in Heq. now subst.
- intros H. exists s. split; [assumption | apply String.eqb_refl].
Qed.

Lemma mem_false_iff (s : string) (l : list string) : Str.mem s l = false <-> ~ In s l.
Proof.
rewrite <- mem_true_iff. destruct (Str.mem s l); split; congruence.
Qed.

Lemma lookup_field_set_same c v fs : lookup_field c (set_fields c v fs) = Some v.
Proof.
clear str_of_value parse_numeric re_compile.
unfold set_fields. destruct (Str.mem c (map fst fs)) eqn:Hmem.
- apply mem_true_iff in Hmem.
  induction fs as [|[k x] fs IH]; simpl in Hmem |- *; [contradiction|].
  destruct (String.eqb k c) eqn:Hk; simpl; rewrite Hk; [reflexivity|].
  apply IH. destruct Hmem as [->|]; [|assumption].
  rewrite String.eqb_refl in Hk. discriminate.
- apply mem_false_iff in Hmem.
  induction fs as [|[k x] fs IH]; simpl in Hmem |- *.
  + now rewrite String.eqb_refl.
  + destruct (String.eqb k c) eqn:Hk.
    * apply String.eqb_eq in Hk. tauto.
    * apply IH. tauto.
Qed.

Lemma lookup_field_set_other c c' v fs :
c <> c' -> lookup_field c' (set_fields c v fs) = lookup_field c' fs.
Proof.
intros Hne. unfold set_fields. destruct (Str.mem c (map fst fs)).
- induction fs as [|[k x] fs IH]; simpl; [reflexivity|].
  destruct (String.eqb k c) eqn:Hk; simpl.
  + apply String.eqb_eq in Hk. subst k.
    destruct (String.eqb c c') eqn:Hc; [apply String.eqb_eq in Hc; contradiction | exact IH].
  + destruct (String.eqb k c'); [reflexivity | exact IH].
- induction fs as [|[k x] fs IH]; simpl.
  + destruct (String.eqb c c') eqn:Hc; [apply String.eqb_eq in Hc; contradiction | reflexivity].
  + destruct (String.eqb k c'); [reflexivity | exact IH].
Qed.

Lemma get_set_same c v r : get c (set_cell c v r) = v.
Proof. unfold get, set_cell. simpl. now rewrite lookup_field_set_same. Qed.

Lemma get_set_other c c' v r : c <> c' -> get c' (set_cell c v r) = get c' r.
Proof. intros H. unfold get, set_cell. simpl. now rewrite lookup_field_set_other. Qed.

Lemma label_set_cell c v r : label (set_cell c v r) = label r.
Proof. reflexivity. Qed.

(** ** Tables *)

Lemma empty_true_iff d : empty d = true <-> columns d = [] \/ rows d = [].
Proof.
unfold empty. destruct (columns d), (rows d); simpl; split; intros H;
  try reflexivity; try discriminate; auto; destruct H; discriminate.
Qed.

Lemma empty_with_columns d : columns d <> [] -> empty d = bool_decide (rows d = []).
Proof.
unfold empty. destruct (columns d); [congruence|]. intros _.
destruct (rows d); reflexivity.
Qed.

Lemma add_column_not_nil c cols : add_column c cols <> [].
Proof.
unfold add_column. destruct (Str.mem c cols) eqn:H.
- destruct cols; [discriminate | congruence].
- destruct cols; discriminate.
Qed.

Lemma add_column_keeps c cols : cols <> [] -> add_column c cols = cols \/ add_column c cols = cols ++ [c].
Proof. unfold add_column. destruct (Str.mem c cols); auto. Qed.

Lemma In_add_column c cols : In c (add_column c cols).
Proof.
unfold add_column. destruct (Str.mem c cols) eqn:H.
- now apply mem_true_iff.
- apply in_or_app. right. now left.
Qed.

Lemma In_add_column_old c c' cols : In c' cols -> In c' (add_column c cols).
Proof.
unfold add_column. destruct (Str.mem c cols); [auto|]. intros. apply in_or_app. now left.
Qed.

Lemma labels_assign c f d : labels (assign c f d) = labels d.
Proof. unfold labels, assign. simpl. rewrite map_map. reflexivity. Qed.

Lemma len_assign c f d : len (assign c f d) = len d.
Proof. unfold len, assign. simpl. now rewrite length_map. Qed.

Lemma labels_select_rows_sublist p d : sublist (labels (select_rows p d)) (labels d).
Proof.
unfold labels, select_rows. simpl. induction (rows d) as [|r rs IH]; simpl.
- constructor.
- destruct (p r); simpl; [now apply sublist_skip | now apply sublist_cons].
Qed.

Lemma filter_split_length {A} (p : A -> bool) (l : list A) :
(length (List.filter p l) + length (List.filter (fun x => negb (p x)) l) = length l)%nat.
Proof.
induction l as [|x l IH]; simpl; [reflexivity|].
destruct (p x); simpl; lia.
Qed.

Lemma filter_split_perm {A B} (f : A -> B) (p : A -> bool) (l : list A) :
Permutation (map f (List.filter p l) ++ map f (List.filter (fun x => negb (p x)) l))
            (map f l).
Proof.
induction l as [|x l IH]; simpl; [constructor|].
destruct (p x); simpl.
- now constructor.
- rewrite <- Permutation_middle. now constructor.
Qed.

(** ** Previous-month filter *)

Lemma month_test_agrees now t :
  1 <= month now ->
  ((year t =? prev_month_year now)%Z && (month t =? prev_month now)%Z = true
   <-> in_preceding_month now t).
Proof.
  intros Hm. unfold prev_month_year, prev_month, in_preceding_month.
  rewrite andb_true_iff, !Z.eqb_eq.
  destruct (Z.ltb_spec 1 (month now)); lia.
Qed.

Lemma filter_parsed_rows c now (g : nat -> option Timestamp) (body : list Row) :
  1 <= month now ->
  List.filter (in_year_month c (prev_month_year now) (prev_month now))
    (List.filter (fun r => negb (bool_decide (get c r = CNull)))
       (imap (fun i r => set_cell c (cell_of_datetime (g i)) r) body))
  = omap (fun r => r)
      (imap (fun i r => match g i with
                        | Some t => if decide (in_preceding_month now t)
                                    then Some (set_cell c (CDate t) r)
                                    else None
                        | None => None
                        end) body).
Proof.
  intros Hm. revert g. induction body as [|r body IH]; intros g; [reflexivity|].
  rewrite !imap_cons. simpl.
  rewrite get_set_same.
  destruct (g 0%nat) as [t|] eqn:Hg; simpl.
  - unfold in_year_month at 1. rewrite get_set_same.
    destruct (decide (in_preceding_month now t)) as [Hin|Hout].
    + apply (month_test_agrees now t Hm) in Hin. rewrite Hin. simpl.
      f_equal. apply (IH (g ∘ S)).
    + destruct ((year t =? prev_month_year now)%Z && (month t =? prev_month now)%Z) eqn:Ht.
      * apply (month_test_agrees now t Hm) in Ht. contradiction.
      * apply (IH (g ∘ S)).
  - apply (IH (g ∘ S)).
Qed.

Lemma content_insert h l d : content (<[l:=d]> h) l = d.
Proof. unfold content. now rewrite lookup_insert_eq. Qed.

Lemma content_insert_ne h l l' d : l <> l' -> content (<[l:=d]> h) l' = content h l'.
Proof. intros H. unfold content. now rewrite lookup_insert_ne. Qed.

Lemma elem_of_rows_of_preceding_month now c body r' :
  In r' (rows_of_preceding_month now c body) <->
  exists i r t, body !! i = Some r
                /\ to_datetime (map (get c) body) i = Some t
                /\ in_preceding_month now t
                /\ r' = set_cell c (CDate t) r.
Proof.
  unfold rows_of_preceding_month. rewrite <- list_elem_of_In, list_elem_of_omap.
  split.
  - intros (o & Ho & Heq). subst o.
    apply elem_of_lookup_imap_1 in Ho as (i & r & Hr & Hi).
    destruct (to_datetime (map (get c) body) i) as [t|] eqn:Ht; [|discriminate].
    destruct (decide (in_preceding_month now t)); [|discriminate].
    exists i, r, t. repeat split; try assumption. congruence.
  - intros (i & r & t & Hi & Ht & Hin & ->).
    exists (Some (set_cell c (CDate t) r)). split; [|reflexivity].
    rewrite list_elem_of_lookup. exists i. rewrite list_lookup_imap, Hi. simpl.
    rewrite Ht. now rewrite decide_True.
Qed.

Lemma working_copy_rows now date_col (d : DataFrame) :
  1 <= month now ->
  let parsed := dropna date_col
                  (assign_at date_col
                     (fun i => cell_of_datetime (to_datetime (column_values date_col d) i)) d) in
  rows (if empty parsed then pd_DataFrame
        else select_rows (in_year_month date_col (prev_month_year now) (prev_month now)) parsed)
  = rows_of_preceding_month now date_col (rows d).
Proof.
  intros Hm parsed. unfold rows_of_preceding_month.
  rewrite <- (filter_parsed_rows date_col now _ (rows d) Hm).
  destruct (empty parsed) eqn:He.
  - apply empty_true_iff in He as [He|He].
    + exfalso. revert He. apply add_column_not_nil.
    + simpl in He. fold (column_values date_col d). now rewrite He.
  - reflexivity.
Qed.

Lemma filter_by_previous_month_returns now h df date_col :
  content (snd (run (filter_by_previous_month now df date_col) h))
          (fst (run (filter_by_previous_month now df date_col) h))
  = previous_month_value now (content h df) date_col.
Proof.
  unfold filter_by_previous_month, previous_month_value.
  cbn [run mbind St_bind mret St_ret deref store_at new_object].
  set (d := content h df).
  destruct (negb (has_column date_col d) || empty d); simpl.
  - apply content_insert.
  - destruct (1 <? len d)%nat;
      cbn [run mbind St_bind mret St_ret deref store_at new_object fst snd];
      rewrite !content_insert; fold d;
      match goal with
      | |- context [run (if ?c then _ else _) ?hh] => destruct c
      end; cbn [run new_object fst snd]; apply content_insert.
Qed.

Lemma previous_month_of_value now d date_col :
  previous_month_of now d date_col = previous_month_value now d date_col.
Proof.
  unfold previous_month_of.
  pose proof (filter_by_previous_month_returns now {[ 0%nat := d ]} 0%nat date_col) as H.
  destruct (run (filter_by_previous_month now 0%nat date_col) {[ 0%nat := d ]}) as [l h'].
  simpl in H. rewrite H. unfold content. now rewrite lookup_singleton_eq.
Qed.

(** C4: the filter returns exactly the rows, the last one set aside when
    there are several, whose date parses and lies in the calendar month
    before the current one (December of the year before in January),
    each with its date read as a timestamp; a missing date column or an
    empty table gives the empty table. *)
Theorem filter_by_previous_month_rows now h df date_col :
  1 <= month now <= 12 ->
  let d := content h df in
  let out := content (snd (run (filter_by_previous_month now df date_col) h))
                     (fst (run (filter_by_previous_month now df date_col) h)) in
  (has_column date_col d = false \/ empty d = true -> out = pd_DataFrame)
  /\ (has_column date_col d = true -> empty d = false ->
      rows out = rows_of_preceding_month now date_col (without_summary_row d)
      /\ forall r', In r' (rows out) <->
           exists i r t,
             without_summary_row d !! i = Some r
             /\ to_datetime (map (get date_col) (without_summary_row d)) i = Some t
             /\ in_preceding_month now t
             /\ r' = set_cell date_col (CDate t) r).
Proof.
  intros [Hm _] d out. subst out. rewrite filter_by_previous_month_returns. fold d.
  unfold previous_month_value. split.
  - intros [H|H]; rewrite H; [reflexivity | now rewrite orb_true_r].
  - intros Hcol Hemp. rewrite Hcol, Hemp. simpl.
    assert (rows_eq :
      rows (let body := if (1 <? len d)%nat then iloc_drop_last d else d in
            let parsed :=
              dropna date_col
                (assign_at date_col
                   (fun i => cell_of_datetime (to_datetime (column_values date_col body) i))
                   body) in
            if empty parsed then pd_DataFrame
            else select_rows (in_year_month date_col (prev_month_year now) (prev_month now))
                             parsed)
      = rows_of_preceding_month now date_col (without_summary_row d)).
    { unfold without_summary_row.
      destruct (1 <? len d)%nat; simpl.
      - exact (working_copy_rows now date_col (iloc_drop_last d) Hm).
      - exact (working_copy_rows now date_col d Hm). }
    simpl in rows_eq. split; [exact rows_eq|].
    intros r'. rewrite rows_eq. apply elem_of_rows_of_preceding_month.
Qed.

(** *** What the call does to the caller's table *)

Lemma fresh_not_allocated (h : gmap nat DataFrame) l :
  is_Some (h !! l) -> fresh (dom h) <> l.
Proof.
  intros Hl Heq. apply elem_of_dom in Hl. rewrite <- Heq in Hl.
  exact (is_fresh (dom h) Hl).
Qed.

Lemma new_object_keeps (h : gmap nat DataFrame) l d :
  is_Some (h !! l) ->
  content (snd (run (new_object d) h)) l = content h l
  /\ is_Some (snd (run (new_object d) h) !! l).
Proof.
  intros Hl. simpl. pose proof (fresh_not_allocated h l Hl) as Hne. split.
  - now apply content_insert_ne.
  - now rewrite lookup_insert_ne.
Qed.

(** X1: with no row, several rows or no date column, the work is done on
    a copy and the caller's table stays as it was. *)
Lemma filter_by_previous_month_frame now h df date_col :
  is_Some (h !! df) ->
  len (content h df) <> 1%nat \/ has_column date_col (content h df) = false ->
  content (snd (run (filter_by_previous_month now df date_col) h)) df = content h df.
Proof.
  intros Hdf Hcase. unfold filter_by_previous_month.
  cbn [run mbind St_bind mret St_ret deref store_at new_object].
  set (d := content h df) in Hcase |- *.
  destruct (negb (has_column date_col d) || empty d) eqn:Hearly.
  - cbn [run new_object snd]. apply content_insert_ne. now apply fresh_not_allocated.
  - apply orb_false_iff in Hearly as [Hcol Hemp]. apply negb_false_iff in Hcol.
    destruct Hcase as [Hlen|Hno]; [|congruence].
    assert (Hgt : (1 <? len d)%nat = true).
    { apply Nat.ltb_lt. unfold empty in Hemp. unfold len in Hlen |- *.
      destruct (columns d); [discriminate|].
      destruct (rows d) as [|? [|]]; simpl in Hemp, Hlen |- *;
        [discriminate | congruence | lia]. }
    rewrite Hgt. cbn [run mbind St_bind mret St_ret deref store_at new_object fst snd].
    set (l := fresh (dom h)).
    assert (Hne : l <> df) by now apply fresh_not_allocated.
    rewrite !content_insert.
    match goal with
    | |- context [run (if ?c then _ else _) ?hh] =>
        assert (Hh : is_Some (hh !! df)) by (now rewrite !lookup_insert_ne);
        assert (Hc : content hh df = d)
          by (now rewrite !content_insert_ne);
        destruct c
    end.
    + cbn [run new_object snd]. rewrite content_insert_ne; [exact Hc|].
      now apply fresh_not_allocated.
    + cbn [run new_object snd]. rewrite content_insert_ne; [exact Hc|].
      now apply fresh_not_allocated.
Qed.

(** With exactly one row and the date column present, the caller's table
    itself is parsed and pruned. *)
Lemma filter_by_previous_month_single_row now h df date_col :
  is_Some (h !! df) ->
  len (content h df) = 1%nat ->
  has_column date_col (content h df) = true ->
  content (snd (run (filter_by_previous_month now df date_col) h)) df
  = dropna date_col
      (assign_at date_col
         (fun i => cell_of_datetime
                     (to_datetime (column_values date_col (content h df)) i))
         (content h df)).
Proof.
  intros Hdf Hlen Hcol. unfold filter_by_previous_month.
  cbn [run mbind St_bind mret St_ret deref store_at new_object].
  set (d := content h df) in Hlen, Hcol |- *.
  assert (Hemp : empty d = false).
  { unfold empty. unfold has_column in Hcol. unfold len in Hlen.
    destruct (columns d); [discriminate|].
    destruct (rows d); [discriminate | reflexivity]. }
  rewrite Hcol, Hemp, Hlen. simpl negb. simpl orb. cbv iota.
  replace (1 <? 1)%nat with false by reflexivity.
  cbn [run mbind St_bind mret St_ret deref store_at new_object fst snd].
  rewrite !content_insert. fold d.
  match goal with
  | |- context [run (if ?c then _ else _) ?hh] =>
      assert (Hh : is_Some (hh !! df)) by (rewrite lookup_insert_eq; eauto);
      destruct c
  end.
  - cbn [run new_object snd]. rewrite content_insert_ne; [apply content_insert|].
    now apply fresh_not_allocated.
  - cbn [run new_object snd]. rewrite content_insert_ne; [apply content_insert|].
    now apply fresh_not_allocated.
Qed.

(** ** Labels and row counts through the table operations *)

Lemma len_labels d : len d = length (labels d).
Proof. unfold len, labels. now rewrite length_map. Qed.

Lemma labels_rename m d : labels (rename m d) = labels d.
Proof. unfold labels, rename. simpl. now rewrite map_map. Qed.

Lemma labels_select_columns names d : labels (select_columns names d) = labels d.
Proof. unfold labels, select_columns. simpl. now rewrite map_map. Qed.

Lemma labels_fill_missing cols d : labels (fill_missing cols d) = labels d.
Proof.
  unfold fill_missing. revert d. induction cols as [|c cols IH]; intros d; simpl.
  - reflexivity.
  - rewrite IH. destruct (has_column c d); [reflexivity | apply labels_assign].
Qed.

Lemma labels_assign_at c f d : labels (assign_at c f d) = labels d.
Proof.
  unfold labels, assign_at. simpl. generalize (rows d) as rs. intros rs. revert f.
  induction rs as [|r rs IH]; intros f; [reflexivity|].
  rewrite imap_cons. simpl. f_equal. apply (IH (f ∘ S)).
Qed.

Lemma labels_select_rows p d : labels (select_rows p d) = map label (List.filter p (rows d)).
Proof. reflexivity. Qed.

Lemma labels_empty d : columns d <> [] -> empty d = true -> labels d = [].
Proof.
  intros Hc He. apply empty_true_iff in He as [He|He]; [contradiction|].
  unfold labels. now rewrite He.
Qed.

Lemma columns_assign_not_nil c f d : columns (assign c f d) <> [].
Proof. apply add_column_not_nil. Qed.

Lemma labels_assign_category d cm sm : labels (assign_category d cm sm) = labels d.
Proof.
  unfold assign_category. destruct (empty d); [reflexivity|].
  destruct sm; now rewrite ?labels_assign.
Qed.

Lemma columns_assign_category d cm sm :
  columns d <> [] -> columns (assign_category d cm sm) <> [].
Proof.
  intros H. unfold assign_category. destruct (empty d); [assumption|].
  destruct sm; apply columns_assign_not_nil.
Qed.

Lemma labels_shipping_finalize d cols_map is_abnormal :
  columns d <> [] -> labels (shipping_finalize d cols_map is_abnormal) = labels d.
Proof.
  intros Hc. unfold shipping_finalize. destruct (empty d) eqn:He.
  - symmetry. now apply labels_empty.
  - now rewrite labels_select_columns, labels_fill_missing, labels_rename, !labels_assign.
Qed.

(** ** Shipping classifier *)

Lemma shipping_classify_partition config df main type_abnormal store_abnormal :
  shipping_classify config df = Ok (main, type_abnormal, store_abnormal) ->
  Permutation (labels main ++ labels type_abnormal ++ labels store_abnormal) (labels df).
Proof.
  unfold shipping_classify, require_column.
  destruct (has_column col_mall df); [|discriminate].
  cbn [mbind result_bind].
  set (df1 := assign col_mall _ df).
  destruct (has_column col_type df1); [|discriminate].
  cbn [mbind result_bind].
  destruct (type_normal_mask config) as [p|]; [|discriminate].
  cbn [mbind result_bind mret result_ret].
  intros H. injection H as <- <- <-.
  assert (Hc : columns df1 <> []) by apply columns_assign_not_nil.
  rewrite !labels_shipping_finalize, !labels_assign_category;
    try (apply columns_assign_category); try exact Hc.
  rewrite !labels_select_rows. simpl rows.
  rewrite <- (labels_assign col_mall (fun r => CStr (normalize_mall (get col_mall r))) df).
  fold df1. unfold labels at 1.
  set (q := fun r => str_isin (mall_list config) (get col_mall r)).
  rewrite <- (filter_split_perm label p (rows df1)).
  rewrite <- (filter_split_perm label q (List.filter p (rows df1))).
  rewrite <- !app_assoc. apply Permutation_app_head. apply Permutation_app_comm.
Qed.

Lemma removelast_sublist {A B} (f : A -> B) (l : list A) :
  sublist (map f (removelast l)) (map f l).
Proof.
  induction l as [|x l IH]; [constructor|].
  simpl. destruct l; [apply sublist_nil_l | now apply sublist_skip].
Qed.

Lemma labels_previous_month_value now d date_col :
  sublist (labels (previous_month_value now d date_col)) (labels d).
Proof.
  unfold previous_month_value.
  destruct (negb (has_column date_col d) || empty d); [apply sublist_nil_l|].
  match goal with
  | |- context [if empty ?p then _ else _] => destruct (empty p)
  end; [apply sublist_nil_l|].
  etrans; [apply labels_select_rows_sublist|].
  etrans; [apply labels_select_rows_sublist|].
  rewrite labels_assign_at.
  destruct (1 <? len d)%nat; [|reflexivity].
  unfold labels, iloc_drop_last. simpl.
  apply removelast_sublist.
Qed.

Lemma indexed_filter_sublist (g : nat -> nat) (p : nat -> Row -> bool) (rs : list Row) :
  sublist (map label (map snd (List.filter (fun ir => p (fst ir) (snd ir))
                                           (imap (fun i r => (g i, r)) rs))))
          (map label rs).
Proof.
  revert g. induction rs as [|r rs IH]; intros g; [constructor|].
  rewrite imap_cons. simpl.
  specialize (IH (g ∘ S)).
  destruct (p (g 0%nat) r); simpl; [now apply sublist_skip | now apply sublist_cons].
Qed.

Lemma labels_select_rows_at_sublist p d : sublist (labels (select_rows_at p d)) (labels d).
Proof. apply (indexed_filter_sublist (fun i => i)). Qed.

Lemma labels_exclude_brands brand_col df out :
  exclude_brands brand_col df = Ok out -> sublist (labels out) (labels df).
Proof.
  unfold exclude_brands, require_column.
  destruct (has_column brand_col df); [|discriminate].
  cbn [mbind result_bind mret result_ret]. intros H. injection H as <-.
  etrans; [apply labels_select_rows_sublist|]. now rewrite labels_assign.
Qed.

Lemma labels_keep_not_equal c val df out :
  keep_not_equal c val df = Ok out -> sublist (labels out) (labels df).
Proof.
  unfold keep_not_equal, require_column.
  destruct (has_column c df); [|discriminate].
  cbn [mbind result_bind mret result_ret].
  destruct val as [v|vs].
  - intros H. injection H as <-. apply labels_select_rows_sublist.
  - destruct (bool_decide (length vs = len df)); [|discriminate].
    intros H. injection H as <-. apply labels_select_rows_at_sublist.
Qed.

Lemma labels_shipping_filter df entry out :
  shipping_filter df entry = Ok out -> sublist (labels out) (labels df).
Proof.
  unfold shipping_filter. destruct entry as [col val].
  destruct (Str.startswith "_" col).
  { intros H. injection H as <-. reflexivity. }
  destruct (Str.endswith "_exclude" col); [apply labels_keep_not_equal|].
  unfold require_column. destruct (has_column col df); [|discriminate].
  cbn [mbind result_bind mret result_ret].
  destruct val; intros H; injection H as <-; apply labels_select_rows_sublist.
Qed.

Lemma labels_shipping_filters_loop entries df out :
  shipping_filters_loop entries df = Ok out -> sublist (labels out) (labels df).
Proof.
  revert df. induction entries as [|e es IH]; intros df; simpl.
  - intros H. injection H as <-. reflexivity.
  - destruct (shipping_filter df e) as [d|] eqn:He; [|discriminate].
    cbn [mbind result_bind]. intros H.
    etrans; [exact (IH d H) | exact (labels_shipping_filter df e d He)].
Qed.

Lemma labels_shipping_filtered_input now df input :
  shipping_filtered_input now df = Ok input -> sublist (labels input) (labels df).
Proof.
  unfold shipping_filtered_input.
  destruct (empty df). { intros H. injection H as <-. apply sublist_nil_l. }
  rewrite previous_month_of_value.
  destruct (empty (previous_month_value now df _)).
  { intros H. injection H as <-. apply sublist_nil_l. }
  unfold shipping_prepare.
  destruct (exclude_brands col_brand _) as [d|] eqn:Hb; [|discriminate].
  cbn [mbind result_bind]. intros H.
  etrans; [exact (labels_shipping_filters_loop _ _ _ H)|].
  etrans; [exact (labels_exclude_brands _ _ _ Hb)|].
  apply labels_previous_month_value.
Qed.

(** C1: the three tables of the shipping classifier share no row, and
    their rows together are the rows left by the previous-month filter,
    the brand exclusion and the configured filters, so that their counts
    add up to the count of that table. *)
Theorem shipping_tables_partition now df main type_abnormal store_abnormal :
  process_shipping_data now df = Ok (main, type_abnormal, store_abnormal) ->
  exists input,
    shipping_filtered_input now df = Ok input
    /\ (len main + len type_abnormal + len store_abnormal)%nat = len input
    /\ Permutation (labels main ++ labels type_abnormal ++ labels store_abnormal)
                   (labels input)
    /\ (NoDup (labels df) ->
        forall x,
          ~ (In x (labels main) /\ In x (labels type_abnormal))
          /\ ~ (In x (labels main) /\ In x (labels store_abnormal))
          /\ ~ (In x (labels type_abnormal) /\ In x (labels store_abnormal))).
Proof.
  intros Hrun.
  assert (Hcases :
    exists input, shipping_filtered_input now df = Ok input
      /\ Permutation (labels main ++ labels type_abnormal ++ labels store_abnormal)
                     (labels input)).
  { revert Hrun. unfold process_shipping_data, shipping_filtered_input.
    destruct (empty df).
    { intros H. injection H as <- <- <-. exists pd_DataFrame. split; [reflexivity|constructor]. }
    destruct (empty (previous_month_of now df _)).
    { intros H. injection H as <- <- <-. exists pd_DataFrame. split; [reflexivity|constructor]. }
    destruct (shipping_prepare _ _) as [input|]; [|discriminate].
    cbn [mbind result_bind]. intros H. exists input. split; [reflexivity|].
    now apply shipping_classify_partition in H. }
  destruct Hcases as (input & Hin & Hperm). exists input.
  split; [exact Hin|]. split; [|split; [exact Hperm|]].
  - rewrite !len_labels, <- (Permutation_length Hperm), !length_app. lia.
  - intros Hnd x.
    assert (Hnd' : NoDup (labels main ++ labels type_abnormal ++ labels store_abnormal)).
    { rewrite Hperm.
      eapply sublist_NoDup; [exact Hnd | exact (labels_shipping_filtered_input now df input Hin)]. }
    apply NoDup_app in Hnd' as (_ & Hmt & Hts).
    apply NoDup_app in Hts as (_ & Hts & _).
    rewrite <- !list_elem_of_In.
    repeat split; intros [H1 H2].
    + apply (Hmt x H1). apply elem_of_app. now left.
    + apply (Hmt x H1). apply elem_of_app. now right.
    + exact (Hts x H1 H2).
Qed.

(** *** The type-normal test *)

Lemma cell_eqb_str x s : cell_eqb x (CStr s) = true <-> x = CStr s.
Proof.
  destruct x; simpl; try (split; [discriminate | congruence]).
  rewrite String.eqb_eq. split; congruence.
Qed.



Lemma is_normal_membership config search first_type rest r :
  normal_type (type_conditions config) = first_type :: rest ->
  is_normal config search first_type r = cond_type_normal config r.
Proof.
  intros Hlist. unfold is_normal.
  destruct (cell_eqb (get col_type r) (CStr first_type)) eqn:Heq; [|reflexivity].
  apply cell_eqb_str in Heq. unfold cond_type_normal. rewrite Heq, Hlist.
  simpl. rewrite String.eqb_refl. simpl. now rewrite orb_true_r.
Qed.

Lemma type_normal_mask_Ok config mask :
  type_normal_mask config = Ok mask -> forall r, mask r = cond_type_normal config r.
Proof.
  unfold type_normal_mask. destruct (re_compile _) as [search|]; [|discriminate].
  destruct (normal_type (type_conditions config)) as [|t ts] eqn:Hl; [discriminate|].
  intros [= <-] r.
  now apply (is_normal_membership config search t ts).
Qed.


(** ** Rows through renaming, projection and re-indexing *)

Lemma keys_set_fields c v fs : map fst (set_fields c v fs) = add_column c (map fst fs).
Proof.
  unfold set_fields, add_column. destruct (Str.mem c (map fst fs)).
  - rewrite map_map. apply map_ext. intros [k x]. simpl. destruct (String.eqb k c); reflexivity.
  - now rewrite map_app.
Qed.

Lemma lookup_field_segment n n' fs rest :
  lookup_field n (List.filter (fun kv => String.eqb (fst kv) n') fs ++ rest)
  = if String.eqb n n'
    then match lookup_field n fs with
         | Some v => Some v
         | None => lookup_field n rest
         end
    else lookup_field n rest.
Proof.
  induction fs as [|[k x] fs IH]; simpl.
  - now destruct (String.eqb n n').
  - destruct (String.eqb k n') eqn:Hk; simpl.
    + apply String.eqb_eq in Hk. subst k. rewrite (String.eqb_sym n' n).
      destruct (String.eqb n n') eqn:Hn; [reflexivity | exact IH].
    + destruct (String.eqb k n) eqn:Hkn; [|exact IH].
      apply String.eqb_eq in Hkn. subst k. rewrite Hk in IH |- *. exact IH.
Qed.

Lemma lookup_field_pick_mem n names fs :
  lookup_field n (pick_fields names fs)
  = if Str.mem n names then lookup_field n fs else None.
Proof.
  unfold pick_fields, Str.mem. induction names as [|n' names IH]; simpl; [reflexivity|].
  rewrite lookup_field_segment, IH.
  destruct (String.eqb n n'); simpl; [|reflexivity].
  destruct (lookup_field n fs); [reflexivity | now destruct (existsb _ names)].
Qed.

Lemma lookup_field_pick n names fs :
  In n names -> lookup_field n (pick_fields names fs) = lookup_field n fs.
Proof.
  intros H. apply mem_true_iff in H. now rewrite lookup_field_pick_mem, H.
Qed.

Lemma lookup_field_renamed (m : string -> string) n c fs :
  m c = n ->
  (forall k, In k (map fst fs) -> m k = n -> k = c) ->
  lookup_field n (map (fun kv => (m (fst kv), snd kv)) fs) = lookup_field c fs.
Proof.
  intros Hc Hsole. induction fs as [|[k x] fs IH]; simpl; [reflexivity|].
  destruct (String.eqb (m k) n) eqn:Hk.
  - apply String.eqb_eq in Hk. rewrite (Hsole k); [|now left|assumption].
    now rewrite String.eqb_refl.
  - destruct (String.eqb k c) eqn:Hkc.
    + apply String.eqb_eq in Hkc. subst k. rewrite Hc, String.eqb_refl in Hk. discriminate.
    + apply IH. intros k' Hin. apply Hsole. now right.
Qed.

Lemma lookup_field_Some_In c v fs : lookup_field c fs = Some v -> In (c, v) fs.
Proof.
  induction fs as [|[k x] fs IH]; simpl; [discriminate|].
  destruct (String.eqb k c) eqn:Hk.
  - apply String.eqb_eq in Hk. intros [= ->]. left. now subst.
  - intros H. right. now apply IH.
Qed.

Lemma lookup_field_is_Some c fs : In c (map fst fs) -> is_Some (lookup_field c fs).
Proof.
  induction fs as [|[k x] fs IH]; simpl; [contradiction|].
  destruct (String.eqb k c) eqn:Hk; [eauto|].
  intros [->|H]; [|now apply IH]. rewrite String.eqb_refl in Hk. discriminate.
Qed.

Lemma reindex_row_same r :
  List.NoDup (map fst (fields r)) -> reindex_row (map fst (fields r)) r = r.
Proof.
  destruct r as [l fs]. unfold reindex_row, get. simpl. intros Hnd. f_equal.
  induction fs as [|[k x] fs IH]; simpl; [reflexivity|].
  rewrite String.eqb_refl. simpl. f_equal.
  inversion Hnd as [|? ? Hnotin Hnd']; subst.
  rewrite <- (IH Hnd') at 2. apply map_ext_in. intros c Hc.
  destruct (String.eqb k c) eqn:Hk; [|reflexivity].
  apply String.eqb_eq in Hk. subst. contradiction.
Qed.

Lemma rows_assign c f d : rows (assign c f d) = map (fun r => set_cell c (f r) r) (rows d).
Proof. reflexivity. Qed.

Lemma well_formed_assign c f d : well_formed d -> well_formed (assign c f d).
Proof.
  unfold well_formed, assign. simpl. rewrite !List.Forall_forall.
  intros H r' Hr'. apply in_map_iff in Hr' as (r & <- & Hr). simpl.
  now rewrite keys_set_fields, (H r Hr).
Qed.

Lemma well_formed_select_rows p d : well_formed d -> well_formed (select_rows p d).
Proof.
  unfold well_formed, select_rows. simpl. rewrite !List.Forall_forall.
  intros H r Hr. apply H. now apply filter_In in Hr.
Qed.

Lemma add_column_present c cols : In c cols -> add_column c cols = cols.
Proof. intros H. unfold add_column. apply mem_true_iff in H. now rewrite H. Qed.

Lemma has_column_true_iff c d : has_column c d = true <-> In c (columns d).
Proof. apply mem_true_iff. Qed.

Lemma filter_map_commute {A B} (p : B -> bool) (f : A -> B) (l : list A) :
  List.filter p (map f l) = map f (List.filter (fun x => p (f x)) l).
Proof.
  induction l as [|x l IH]; simpl; [reflexivity|].
  destruct (p (f x)); simpl; now rewrite IH.
Qed.

Lemma map_imap {A B C} (f : B -> C) (g : nat -> A -> B) (l : list A) :
  map f (imap g l) = imap (fun i x => f (g i x)) l.
Proof.
  revert g. induction l as [|x l IH]; intros g; [reflexivity|].
  rewrite !imap_cons. simpl. f_equal. apply (IH (g ∘ S)).
Qed.

Lemma Forall2_imap_map {A B C} (P : A -> C -> Prop) (g : nat -> B -> C) (f : A -> B)
      (l : list A) :
  (forall i x, In x l -> P x (g i (f x))) -> Forall2 P l (imap g (map f l)).
Proof.
  revert g. induction l as [|x l IH]; intros g H; [constructor|].
  simpl map. rewrite imap_cons. constructor.
  - apply H. now left.
  - apply (IH (g ∘ S)). intros i y Hy. apply H. now right.
Qed.

Lemma In_add_column_iff k c cols : In k (add_column c cols) <-> k = c \/ In k cols.
Proof.
clear re_compile.
  unfold add_column. destruct (Str.mem c cols) eqn:H.
  - apply mem_true_iff in H. split; [auto | intros [->|]; assumption].
  - rewrite in_app_iff. simpl. split; intros; intuition congruence.
Qed.

Lemma filter_all {A} (p : A -> bool) (l : list A) :
  (forall x, In x l -> p x = true) -> List.filter p l = l.
Proof.
  induction l as [|x l IH]; simpl; [reflexivity|]. intros H.
  rewrite (H x (or_introl eq_refl)). f_equal. apply IH. intros y Hy. apply H. now right.
Qed.

Lemma filter_none {A} (p : A -> bool) (l : list A) :
  (forall x, In x l -> p x = false) -> List.filter p l = [].
Proof.
  induction l as [|x l IH]; simpl; [reflexivity|]. intros H.
  rewrite (H x (or_introl eq_refl)). apply IH. intros y Hy. apply H. now right.
Qed.

(** Stacking a table on one whose columns it has: either the columns
    agree, or the second table has no row and no column of its own. *)
Lemma concat_pair a b stacked :
  concat [a; b] = Ok stacked ->
  well_formed a ->
  columns b = columns a \/ (rows b = [] /\ incl (columns b) (columns a)) ->
  columns stacked = columns a /\ rows stacked = renumber (rows a ++ rows b).
Proof.
  unfold concat. cbn [forallb]. rewrite bool_decide_true by reflexivity. simpl andb.
  destruct (bool_decide (columns b = columns a)) eqn:Hsame.
  { simpl. intros [= <-] _ _. simpl. now rewrite app_nil_r. }
  apply bool_decide_eq_false in Hsame.
  destruct (bool_decide (NoDup (columns a))) eqn:Hnd; [|discriminate].
  apply bool_decide_eq_true in Hnd. apply NoDup_ListNoDup in Hnd.
  destruct (bool_decide (NoDup (columns b))); [|discriminate].
  simpl. intros [= <-] Hwf [Heq|[Hrows Hincl]]; [contradiction|].
  assert (Hcols : union_columns [a; b] = columns a).
  { unfold union_columns. simpl.
    rewrite (filter_all _ (columns a)) by reflexivity.
    rewrite (filter_none _ (columns b)); [apply app_nil_r|].
    intros c Hc. apply negb_false_iff, mem_true_iff, Hincl, Hc. }
  rewrite Hcols. simpl. split; [reflexivity|].
  rewrite Hrows. simpl. rewrite !app_nil_r. f_equal.
  rewrite <- (map_id (rows a)) at 2. apply map_ext_in. intros r Hr.
  unfold well_formed in Hwf. rewrite List.Forall_forall in Hwf.
  rewrite <- (Hwf r Hr). apply reindex_row_same. now rewrite (Hwf r Hr).
Qed.

Lemma rows_select_rename m names d :
  rows (select_columns names (rename (renamed m) d)) = map (projected m names) (rows d).
Proof. unfold select_columns, rename, projected. simpl. now rewrite map_map. Qed.

Lemma Ok_inj {A} (a b : A) : Ok a = Ok b -> a = b.
Proof. now intros [= ->]. Qed.

(** ** Return classifier *)

Lemma status_mapped_after_coercion config v r :
  return_status_col config <> return_qty_col config ->
  status_mapped config (set_cell (return_qty_col config) v r) = status_mapped config r
  /\ mapped_category config (set_cell (return_qty_col config) v r)
     = mapped_category config r.
Proof.
  intros Hne. unfold status_mapped, mapped_category.
  rewrite get_set_other by congruence. split; reflexivity.
Qed.

Lemma return_classify_rows config input out :
  well_formed input ->
  return_status_col config <> return_qty_col config ->
  return_classify config input = Ok out ->
  In (return_qty_col config) (columns input)
  /\ exists names,
      (forall c, In c names <->
                 In c canonical_col_order
                 /\ exists k, (In k (columns input) \/ In k [col_new; col_source; col_unit])
                              /\ renamed (canonical_rename_map (return_final_columns config)) k
                                 = c)
      /\ rows out
         = imap (fun i r =>
                   projected (canonical_rename_map (return_final_columns config)) names
                     (return_signed config (mkRow (Z.of_nat i) (fields r))))
                (map (return_labelled config (fun _ => CStr cat_return)) (rows input)
                 ++ map (return_labelled config (mapped_category config))
                        (List.filter (status_mapped config) (rows input))).
Proof.
clear re_compile.
  intros Hwf Hne. unfold return_classify, require_column.
  destruct (has_column (return_qty_col config) input) eqn:Hq; [|discriminate].
  apply has_column_true_iff in Hq.
  cbn [mbind result_bind].
  set (df1 := assign (return_qty_col config) _ input).
  destruct (has_column (return_status_col config) df1); [|discriminate].
  cbn [mbind result_bind].
  set (bad0 := select_rows (status_mapped config) df1).
  set (df_return := assign col_new _ df1).
  set (df_bad := if negb (empty bad0) then _ else bad0).
  destruct (concat [df_return; df_bad]) as [stacked|] eqn:Hcat; [|discriminate].
  cbn [mbind result_bind mret result_ret]. intros Hout. apply Ok_inj in Hout. subst out.
  split; [exact Hq|].
  assert (Hcols1 : columns df1 = columns input)
    by (unfold df1, assign; simpl; now apply add_column_present).
  assert (Hbad_rows :
    rows df_bad = map (return_labelled config (mapped_category config))
                      (List.filter (status_mapped config) (rows input))).
  { assert (Hrows0 : rows bad0
              = map (fun r => set_cell (return_qty_col config)
                                (CNum (numeric_or_zero (get (return_qty_col config) r))) r)
                    (List.filter (status_mapped config) (rows input))).
    { unfold bad0, df1. simpl. rewrite filter_map_commute. f_equal.
      apply filter_ext. intros r.
      now destruct (status_mapped_after_coercion config
                      (CNum (numeric_or_zero (get (return_qty_col config) r))) r Hne). }
    unfold df_bad. destruct (empty bad0) eqn:Hemp; cbn [negb].
    - apply empty_true_iff in Hemp as [Hemp|Hemp].
      + exfalso. revert Hemp. unfold bad0. simpl. apply add_column_not_nil.
      + rewrite Hemp in Hrows0 |- *. symmetry in Hrows0. apply map_eq_nil in Hrows0.
        now rewrite Hrows0.
    - rewrite rows_assign, Hrows0, map_map. reflexivity. }
  assert (Hret_rows :
    rows df_return = map (return_labelled config (fun _ => CStr cat_return)) (rows input)).
  { unfold df_return, df1. simpl. now rewrite map_map. }
  apply concat_pair in Hcat as [Hscols Hsrows].
  2: { unfold df_return, df1. now apply well_formed_assign, well_formed_assign. }
  2: { unfold df_bad. destruct (empty bad0) eqn:Hemp; cbn [negb].
       - right. apply empty_true_iff in Hemp as [Hemp|Hemp].
         + exfalso. revert Hemp. unfold bad0. simpl. apply add_column_not_nil.
         + split; [exact Hemp|]. intros c Hc. now apply In_add_column_old.
       - now left. }
  match goal with |- context [select_columns ?ns _] => exists ns end.
  split.
  2: { rewrite rows_select_rename, !rows_assign, !map_map, Hsrows, Hret_rows, Hbad_rows.
       unfold renumber. rewrite map_imap. reflexivity. }
  intros c. rewrite filter_In. apply and_iff_compat_l.
  rewrite has_column_true_iff. unfold rename. cbn [columns]. rewrite in_map_iff.
  unfold assign at 1 2 3 4 5. cbn [columns]. rewrite Hscols.
  split.
  - intros (k & Hk & Hin). exists k. split; [|exact Hk].
    rewrite !In_add_column_iff in Hin. unfold df_return in Hin. cbn [assign columns] in Hin.
    rewrite In_add_column_iff, Hcols1 in Hin. simpl. intuition (subst; auto).
  - intros (k & Hin & Hk). exists k. split; [exact Hk|].
    rewrite !In_add_column_iff. unfold df_return. cbn [assign columns].
    rewrite In_add_column_iff, Hcols1. simpl in Hin. intuition (subst; auto).
Qed.

Lemma renamed_canonical cols_map :
  let m := canonical_rename_map cols_map in
  renamed m col_new = col_new
  /\ renamed m col_source = col_source
  /\ renamed m col_unit = col_unit_ea.
Proof.
  unfold renamed, canonical_rename_map. repeat split.
  - rewrite lookup_insert_ne by (now apply String.eqb_neq).
    rewrite lookup_insert_ne by (now apply String.eqb_neq).
    now rewrite lookup_insert_eq.
  - rewrite lookup_insert_ne by (now apply String.eqb_neq).
    now rewrite lookup_insert_eq.
  - now rewrite lookup_insert_eq.
Qed.

Lemma keys_return_labelled config category r k :
  In k (map fst (fields (return_labelled config category r))) <->
  In k (map fst (fields r)) \/ k = return_qty_col config \/ k = col_new.
Proof.
clear str_of_value re_compile.
  unfold return_labelled, set_cell. cbn [fields].
  rewrite !keys_set_fields, !In_add_column_iff. tauto.
Qed.

Lemma keys_return_signed config r k :
  In k (map fst (fields (return_signed config r))) <->
  In k (map fst (fields r)) \/ k = col_source \/ k = col_unit \/ k = return_qty_col config.
Proof.
clear re_compile.
  unfold return_signed, set_cell. cbn [fields].
  rewrite !keys_set_fields, !In_add_column_iff. tauto.
Qed.

Lemma get_new_return_signed config r :
  return_qty_col config <> col_new ->
  get col_new (return_signed config r) = get col_new r.
Proof.
  intros Hq. unfold return_signed.
  rewrite !get_set_other; [reflexivity | now apply String.eqb_neq
                          | now apply String.eqb_neq | assumption..].
Qed.

Lemma get_qty_return_signed config r :
  return_qty_col config <> col_new ->
  return_qty_col config <> col_source ->
  return_qty_col config <> col_unit ->
  get (return_qty_col config) (return_signed config r)
  = CNum (if cell_eqb (get col_new r) (CStr cat_return)
          then - Z.abs (numeric_or_zero (get (return_qty_col config) r))
          else Z.abs (numeric_or_zero (get (return_qty_col config) r))).
Proof.
  intros Hn Hs Hu. unfold return_signed.
  remember (return_qty_col config) as q eqn:Eq. clear Eq.
  assert (Hsq : col_source <> q) by congruence.
  assert (Huq : col_unit <> q) by congruence.
  assert (Hsn : col_source <> col_new) by (now apply String.eqb_neq).
  assert (Hun : col_unit <> col_new) by (now apply String.eqb_neq).
  set (r1 := set_cell col_source _ r).
  set (r2 := set_cell col_unit _ r1).
  assert (Hq2 : get q r2 = get q r)
    by (unfold r2, r1; now rewrite !get_set_other).
  assert (Hn2 : get col_new r2 = get col_new r)
    by (unfold r2, r1; now rewrite !get_set_other).
  rewrite Hq2. set (a := Z.abs (numeric_or_zero (get q r))).
  set (r3 := set_cell q (CNum a) r2).
  assert (Hq3 : get q r3 = CNum a) by apply get_set_same.
  assert (Hn3 : get col_new r3 = get col_new r)
    by (unfold r3; now rewrite get_set_other).
  rewrite Hq3, Hn3.
  set (r4 := set_cell q _ r3).
  assert (Hq4 : get q r4 = if cell_eqb (get col_new r) (CStr cat_return)
                           then cell_mul (CNum a) (-1) else CNum a)
    by apply get_set_same.
  assert (Hn4 : get col_new r4 = get col_new r)
    by (unfold r4; now rewrite get_set_other).
  rewrite get_set_same, Hq4, Hn4.
  destruct (get col_new r) as [s| | |]; simpl; try reflexivity.
  destruct (String.eqb s cat_return) eqn:Hret; simpl.
  - apply String.eqb_eq in Hret. subst s.
    replace (String.eqb cat_return cat_defective) with false by reflexivity.
    f_equal. lia.
  - destruct (String.eqb s cat_defective); simpl; f_equal; lia.
Qed.

(** The category and the quantity of an output row, read off the row of
    the prepared table it comes from. *)
Lemma return_output_category config names category src i :
  let m := canonical_rename_map (return_final_columns config) in
  return_qty_col config <> col_new ->
  In col_new names ->
  In (return_qty_col config) (map fst (fields src)) ->
  sole_source (renamed m) col_new col_new (map fst (fields src)) ->
  get col_new
      (projected m names
         (return_signed config
            (mkRow i (fields (return_labelled config category src)))))
  = category (set_cell (return_qty_col config)
                       (CNum (numeric_or_zero (get (return_qty_col config) src))) src).
Proof.
  intros m Hq Hnames Hqin Hsole.
  destruct (renamed_canonical (return_final_columns config)) as (Hnew & Hsrc & Hunit).
  fold m in Hnew, Hsrc, Hunit.
  unfold get at 1. unfold projected. cbn [fields].
  rewrite lookup_field_pick by assumption.
  rewrite (lookup_field_renamed (renamed m) col_new col_new); [|exact Hnew|].
  2: { unfold sole_source in Hsole. rewrite List.Forall_forall in Hsole.
       intros k Hk Hren.
       apply keys_return_signed in Hk. cbn [fields] in Hk.
       destruct Hk as [Hk | [-> | [-> | ->]]].
       - apply keys_return_labelled in Hk. destruct Hk as [Hk | [-> | ->]].
         + now apply Hsole.
         + now apply Hsole.
         + reflexivity.
       - rewrite Hsrc in Hren. discriminate.
       - rewrite Hunit in Hren. discriminate.
       - now apply Hsole. }
  change (default CNull (lookup_field col_new (fields (return_signed config
            (mkRow i (fields (return_labelled config category src)))))))
    with (get col_new (return_signed config
            (mkRow i (fields (return_labelled config category src))))).
  rewrite get_new_return_signed by assumption.
  change (get col_new (mkRow i (fields (return_labelled config category src))))
    with (get col_new (return_labelled config category src)).
  unfold return_labelled. now rewrite get_set_same.
Qed.

Lemma return_output_quantity config names category src i :
  let m := canonical_rename_map (return_final_columns config) in
  let q := numeric_or_zero (get (return_qty_col config) src) in
  renamed m (return_qty_col config) = col_qty ->
  In col_qty names ->
  In (return_qty_col config) (map fst (fields src)) ->
  sole_source (renamed m) col_qty (return_qty_col config) (map fst (fields src)) ->
  get col_qty
      (projected m names
         (return_signed config
            (mkRow i (fields (return_labelled config category src)))))
  = CNum (if cell_eqb
               (category (set_cell (return_qty_col config) (CNum q) src))
               (CStr cat_return)
          then - Z.abs q else Z.abs q).
Proof.
  intros m q Hren Hnames Hqin Hsole.
  destruct (renamed_canonical (return_final_columns config)) as (Hnew & Hsrc & Hunit).
  fold m in Hnew, Hsrc, Hunit.
  assert (Hq_new : return_qty_col config <> col_new)
    by (intros E; rewrite E, Hnew in Hren; discriminate).
  assert (Hq_src : return_qty_col config <> col_source)
    by (intros E; rewrite E, Hsrc in Hren; discriminate).
  assert (Hq_unit : return_qty_col config <> col_unit)
    by (intros E; rewrite E, Hunit in Hren; discriminate).
  unfold sole_source in Hsole. rewrite List.Forall_forall in Hsole.
  unfold get at 1. unfold projected. cbn [fields].
  rewrite lookup_field_pick by assumption.
  rewrite (lookup_field_renamed (renamed m) col_qty (return_qty_col config));
    [|exact Hren|].
  2: { intros k Hk Hk_ren.
       apply keys_return_signed in Hk. cbn [fields] in Hk.
       destruct Hk as [Hk | [-> | [-> | ->]]].
       - apply keys_return_labelled in Hk. destruct Hk as [Hk | [-> | ->]].
         + now apply Hsole.
         + reflexivity.
         + rewrite Hnew in Hk_ren. discriminate.
       - rewrite Hsrc in Hk_ren. discriminate.
       - rewrite Hunit in Hk_ren. discriminate.
       - reflexivity. }
  change (default CNull (lookup_field (return_qty_col config) (fields (return_signed config
            (mkRow i (fields (return_labelled config category src)))))))
    with (get (return_qty_col config) (return_signed config
            (mkRow i (fields (return_labelled config category src))))).
  rewrite get_qty_return_signed by assumption.
  change (get col_new (mkRow i (fields (return_labelled config category src))))
    with (get col_new (return_labelled config category src)).
  change (get (return_qty_col config)
              (mkRow i (fields (return_labelled config category src))))
    with (get (return_qty_col config) (return_labelled config category src)).
  unfold return_labelled.
  rewrite get_set_same, (get_set_other col_new) by congruence.
  rewrite get_set_same. fold q. reflexivity.
Qed.

Lemma In_set_fields k v c v0 fs :
  In (k, v) (set_fields c v0 fs) -> k = c \/ In (k, v) fs.
Proof.
  unfold set_fields. destruct (Str.mem c (map fst fs)).
  - rewrite in_map_iff. intros ([k' x] & Heq & Hin). simpl in Heq.
    destruct (String.eqb k' c) eqn:Hk.
    + apply String.eqb_eq in Hk. left. congruence.
    + right. congruence.
  - rewrite in_app_iff. simpl. intros [H|[H|[]]]; [now right | left; congruence].
Qed.

Lemma In_pick_fields kv names fs : In kv (pick_fields names fs) -> In kv fs.
Proof.
  unfold pick_fields. rewrite in_flat_map. intros (n & _ & H).
  now apply filter_In in H.
Qed.

Lemma return_output_derived config names category src i :
  return_derived config src
    (projected (canonical_rename_map (return_final_columns config)) names
       (return_signed config (mkRow i (fields (return_labelled config category src))))).
Proof.
clear str_of_value.
  intros c v Hin. unfold projected in Hin. cbn [fields] in Hin.
  apply In_pick_fields, in_map_iff in Hin as ([k x] & Heq & Hin).
  simpl in Heq. injection Heq as <- <-. exists k. split; [reflexivity|].
  unfold return_signed, return_labelled, set_cell in Hin. cbn [fields] in Hin.
  repeat (apply In_set_fields in Hin as [->|Hin]; [left; simpl; tauto|]).
  now right.
Qed.

(** *** Well-formed tables through the preparation *)

Lemma well_formed_assign_at c f d : well_formed d -> well_formed (assign_at c f d).
Proof.
  unfold well_formed, assign_at. simpl. rewrite !List.Forall_forall.
  intros H r' Hr'. apply list_elem_of_In, elem_of_lookup_imap_1 in Hr' as (i & r & -> & Hr).
  simpl. rewrite keys_set_fields. f_equal. apply H.
  apply list_elem_of_In, list_elem_of_lookup. eauto.
Qed.

Lemma well_formed_iloc_drop_last d : well_formed d -> well_formed (iloc_drop_last d).
Proof.
  unfold well_formed, iloc_drop_last. simpl. rewrite !List.Forall_forall.
  intros H r Hr. apply H. clear H. induction (rows d) as [|x l IH]; [contradiction|].
  simpl in Hr. destruct l; [contradiction|]. destruct Hr as [->|Hr]; [now left|].
  right. now apply IH.
Qed.

Lemma well_formed_empty_frame : well_formed pd_DataFrame.
Proof. constructor. Qed.

Lemma well_formed_previous_month_value now d date_col :
  well_formed d -> well_formed (previous_month_value now d date_col).
Proof.
  intros H. unfold previous_month_value.
  destruct (negb (has_column date_col d) || empty d); [apply well_formed_empty_frame|].
  match goal with
  | |- context [if empty ?p then _ else _] => destruct (empty p)
  end; [apply well_formed_empty_frame|].
  apply well_formed_select_rows. unfold dropna. apply well_formed_select_rows.
  apply well_formed_assign_at.
  destruct (1 <? len d)%nat; [now apply well_formed_iloc_drop_last | assumption].
Qed.

Lemma well_formed_exclude_brands brand_col df out :
  well_formed df -> exclude_brands brand_col df = Ok out -> well_formed out.
Proof.
  intros Hwf. unfold exclude_brands, require_column.
  destruct (has_column brand_col df); [|discriminate].
  cbn [mbind result_bind mret result_ret]. intros H. apply Ok_inj in H. subst out.
  now apply well_formed_select_rows, well_formed_assign.
Qed.

Lemma well_formed_return_filtered_input now df input :
  well_formed df -> return_filtered_input now df = Ok input -> well_formed input.
Proof.
  intros Hwf. unfold return_filtered_input.
  destruct (empty df).
  { intros H. apply Ok_inj in H. subst. apply well_formed_empty_frame. }
  rewrite previous_month_of_value.
  destruct (empty (previous_month_value now df _)).
  { intros H. apply Ok_inj in H. subst. apply well_formed_empty_frame. }
  apply well_formed_exclude_brands. now apply well_formed_previous_month_value.
Qed.

Lemma process_return_data_cases now df input out :
  return_filtered_input now df = Ok input ->
  process_return_data now df = Ok out ->
  (rows input = [] /\ rows out = [])
  \/ return_classify (rules_return CONFIG) input = Ok out.
Proof.
  unfold return_filtered_input, process_return_data.
  destruct (empty df).
  { intros H1 H2. apply Ok_inj in H1, H2. subst. now left. }
  destruct (empty (previous_month_of now df _)).
  { intros H1 H2. apply Ok_inj in H1, H2. subst. now left. }
  intros H1. rewrite H1. cbn [mbind result_bind]. now right.
Qed.

Lemma keys_of_well_formed d r : well_formed d -> In r (rows d) -> map fst (fields r) = columns d.
Proof. unfold well_formed. rewrite List.Forall_forall. auto. Qed.

Lemma In_canonical_names config (cols : list string) names c k :
  (forall c, In c names <->
             In c canonical_col_order
             /\ exists k, (In k cols \/ In k [col_new; col_source; col_unit])
                          /\ renamed (canonical_rename_map (return_final_columns config)) k = c) ->
  In c canonical_col_order ->
  In k cols \/ In k [col_new; col_source; col_unit] ->
  renamed (canonical_rename_map (return_final_columns config)) k = c ->
  In c names.
Proof. intros H Hc Hk Hren. apply H. split; [assumption | eauto]. Qed.

Lemma coerced_numeric_or_zero c : coerced c (numeric_or_zero c).
Proof. destruct c; constructor. Qed.

Lemma coerced_unique c q : coerced c q -> q = numeric_or_zero c.
Proof. now destruct 1. Qed.

Lemma status_is_key_iff config r :
  status_is_key config r = true
  <-> exists s c, get (return_status_col config) r = CStr s
                  /\ bad_pason_map config !! s = Some c.
Proof.
  unfold status_is_key. rewrite existsb_exists. split.
  - intros (key & Hkey & Heq). apply bool_decide_eq_true in Heq.
    apply in_map_iff in Hkey as ([k c] & <- & Hkc).
    apply list_elem_of_In, elem_of_map_to_list in Hkc. eauto.
  - intros (s & c & Hs & Hc). exists s. split.
    + apply in_map_iff. exists (s, c). split; [reflexivity|].
      now apply list_elem_of_In, elem_of_map_to_list.
    + now apply bool_decide_eq_true.
Qed.

Lemma status_mapped_is_key config r : status_mapped config r = status_is_key config r.
Proof.
  apply eq_true_iff_eq. rewrite status_is_key_iff. unfold status_mapped.
  destruct (get (return_status_col config) r) as [s| | |].
  - rewrite bool_decide_eq_true. split.
    + intros [c Hc]. eauto.
    + intros (s' & c & [= <-] & Hc). eauto.
  - split; [discriminate | intros (? & ? & ? & _); discriminate].
  - split; [discriminate | intros (? & ? & ? & _); discriminate].
  - split; [discriminate | intros (? & ? & ? & _); discriminate].
Qed.

Lemma filter_status_is_key config (l : list Row) :
  List.filter (status_is_key config) l = List.filter (status_mapped config) l.
Proof. apply filter_ext. intros r. symmetry. apply status_mapped_is_key. Qed.

(** C2: every row of the prepared table gives one output row labelled as
    a return; a row whose status is a key of the status map gives a
    second one, labelled with the mapped category.  So a mapped row
    counts twice in the output and any other row once. *)
Theorem return_rows_doubled now df input out :
  let config := rules_return CONFIG in
  let m := canonical_rename_map (return_final_columns config) in
  return_filtered_input now df = Ok input ->
  process_return_data now df = Ok out ->
  well_formed df ->
  return_status_col config <> return_qty_col config ->
  return_qty_col config <> col_new ->
  sole_source (renamed m) col_new col_new (columns input) ->
  exists originals copies,
    rows out = originals ++ copies
    /\ Forall2 (fun src r => get col_new r = CStr cat_return
                             /\ return_derived config src r)
               (rows input) originals
    /\ Forall2 (fun src r =>
                  (exists s c, get (return_status_col config) src = CStr s
                               /\ bad_pason_map config !! s = Some c
                               /\ get col_new r = CStr c)
                  /\ return_derived config src r)
               (List.filter (status_is_key config) (rows input)) copies
    /\ len out
       = (2 * length (List.filter (status_is_key config) (rows input))
          + length (List.filter (fun r => negb (status_is_key config r)) (rows input)))%nat.
Proof.
  intros config m Hin Hout Hwf Hsq Hqn Hsole.
  rewrite (filter_status_is_key config),
    (filter_ext (fun r => negb (status_is_key config r))
                (fun r => negb (status_mapped config r)))
    by (intros r; now rewrite status_mapped_is_key).
  pose proof (well_formed_return_filtered_input now df input Hwf Hin) as Hwfi.
  destruct (process_return_data_cases now df input out Hin Hout) as [[Hri Hro]|Hcl].
  { exists [], []. unfold len. rewrite Hri, Hro. simpl. repeat split; constructor. }
  fold config in Hcl.
  destruct (return_classify_rows config input out Hwfi Hsq Hcl)
    as (Hqin & names & Hnames & Hrows).
  fold m in Hnames, Hrows.
  assert (Hnew_in : In col_new names).
  { apply (In_canonical_names config (columns input) names col_new col_new Hnames).
    - simpl. tauto.
    - right. now left.
    - apply renamed_canonical. }
  rewrite imap_app in Hrows.
  eexists _, _. split; [exact Hrows|]. split; [|split].
  - apply Forall2_imap_map. intros i src Hsrc.
    pose proof (keys_of_well_formed input src Hwfi Hsrc) as Hkeys.
    split; [|apply return_output_derived].
    rewrite (return_output_category config names); try assumption; [reflexivity | |];
      now rewrite Hkeys.
  - apply Forall2_imap_map. intros i src Hsrc.
    apply filter_In in Hsrc as [Hsrc Hmapped].
    pose proof (keys_of_well_formed input src Hwfi Hsrc) as Hkeys.
    split; [|apply return_output_derived].
    unfold status_mapped in Hmapped.
    destruct (get (return_status_col config) src) as [s| | |] eqn:Hs; try discriminate.
    apply bool_decide_eq_true in Hmapped as [c Hc].
    exists s, c. repeat split; [assumption|].
    rewrite (return_output_category config names); try assumption;
      [| now rewrite Hkeys | now rewrite Hkeys].
    destruct (status_mapped_after_coercion config
                (CNum (numeric_or_zero (get (return_qty_col config) src))) src Hsq)
      as [_ ->].
    unfold mapped_category. now rewrite Hs, Hc.
  - unfold len. rewrite Hrows, length_app, !length_imap, !length_map.
    pose proof (filter_split_length (status_mapped config) (rows input)). lia.
Qed.

(** C3: the quantity of every output row of the return classifier is the
    absolute value of its source quantity read as a number, negated
    exactly when the row is labelled as a return; the relabelled copies
    carry the absolute value, and the rows of a status outside the map
    have a quantity that is not positive. *)
Theorem return_quantity_sign now df input out :
  let config := rules_return CONFIG in
  let m := canonical_rename_map (return_final_columns config) in
  return_filtered_input now df = Ok input ->
  process_return_data now df = Ok out ->
  well_formed df ->
  return_status_col config <> return_qty_col config ->
  renamed m (return_qty_col config) = col_qty ->
  sole_source (renamed m) col_qty (return_qty_col config) (columns input) ->
  sole_source (renamed m) col_new col_new (columns input) ->
  exists originals copies,
    rows out = originals ++ copies
    /\ Forall2 (fun src r => signed_quantity config src r
                             /\ get col_new r = CStr cat_return)
               (rows input) originals
    /\ Forall2 (fun src r => signed_quantity config src r
                             /\ (get col_new r <> CStr cat_return ->
                                 forall q, coerced (get (return_qty_col config) src) q ->
                                           get col_qty r = CNum (Z.abs q)))
               (List.filter (status_is_key config) (rows input)) copies.
Proof.
  intros config m Hin Hout Hwf Hsq Hren Hsole_q Hsole_n.
  rewrite (filter_status_is_key config).
  pose proof (well_formed_return_filtered_input now df input Hwf Hin) as Hwfi.
  destruct (process_return_data_cases now df input out Hin Hout) as [[Hri Hro]|Hcl].
  { exists [], []. rewrite Hri, Hro. simpl. repeat split; constructor. }
  fold config in Hcl.
  destruct (return_classify_rows config input out Hwfi Hsq Hcl)
    as (Hqin & names & Hnames & Hrows).
  fold m in Hnames, Hrows.
  destruct (renamed_canonical (return_final_columns config)) as (Hnew & _ & _).
  fold m in Hnew.
  assert (Hqn : return_qty_col config <> col_new)
    by (intros E; rewrite E, Hnew in Hren; discriminate).
  assert (Hnew_in : In col_new names).
  { apply (In_canonical_names config (columns input) names col_new col_new Hnames).
    - simpl. tauto.
    - right. now left.
    - exact Hnew. }
  assert (Hqty_in : In col_qty names).
  { apply (In_canonical_names config (columns input) names col_qty
             (return_qty_col config) Hnames).
    - simpl. tauto.
    - now left.
    - exact Hren. }
  rewrite imap_app in Hrows.
  eexists _, _. split; [exact Hrows|]. split.
  - apply Forall2_imap_map. intros i src Hsrc.
    pose proof (keys_of_well_formed input src Hwfi Hsrc) as Hkeys.
    assert (Hlabel : get col_new
              (projected m names
                 (return_signed config
                    (mkRow (Z.of_nat i)
                       (fields (return_labelled config (fun _ => CStr cat_return) src)))))
            = CStr cat_return).
    { rewrite (return_output_category config names); try assumption; [reflexivity | |];
        now rewrite Hkeys. }
    split; [|exact Hlabel].
    unfold signed_quantity. eexists _, _. split; [apply coerced_numeric_or_zero|].
    split; [|split].
    + apply (return_output_quantity config names); try assumption; now rewrite Hkeys.
    + rewrite Hlabel. rewrite bool_decide_true by reflexivity. reflexivity.
    + intros _. simpl. lia.
  - apply Forall2_imap_map. intros i src Hsrc.
    apply filter_In in Hsrc as [Hsrc Hmapped].
    pose proof (keys_of_well_formed input src Hwfi Hsrc) as Hkeys.
    match goal with
    | |- signed_quantity _ _ ?row /\ _ => set (r := row)
    end.
    assert (Hlabel : get col_new r
              = mapped_category config
                  (set_cell (return_qty_col config)
                     (CNum (numeric_or_zero (get (return_qty_col config) src))) src)).
    { unfold r. rewrite (return_output_category config names); try assumption;
        [reflexivity | |]; now rewrite Hkeys. }
    assert (Hqty : get col_qty r
              = CNum (if cell_eqb (get col_new r) (CStr cat_return)
                      then - Z.abs (numeric_or_zero (get (return_qty_col config) src))
                      else Z.abs (numeric_or_zero (get (return_qty_col config) src)))).
    { rewrite Hlabel. unfold r.
      apply (return_output_quantity config names); try assumption; now rewrite Hkeys. }
    assert (Hdec : cell_eqb (get col_new r) (CStr cat_return)
                   = bool_decide (get col_new r = CStr cat_return)).
    { destruct (cell_eqb (get col_new r) (CStr cat_return)) eqn:E.
      - apply cell_eqb_str in E. now rewrite bool_decide_true.
      - rewrite bool_decide_false; [reflexivity|].
        intros E'. apply cell_eqb_str in E'. congruence. }
    split.
    + unfold signed_quantity. eexists _, _. split; [apply coerced_numeric_or_zero|].
      split; [exact Hqty|]. split.
      * now rewrite Hdec.
      * intros Hno. rewrite <- status_mapped_is_key in Hno. congruence.
    + intros Hno q Hq. apply coerced_unique in Hq. subst q.
      rewrite Hqty, Hdec. now rewrite bool_decide_false.
Qed.

(** ** Receiving classifier *)


Lemma Forall2_indexed {A B} (P : A -> B -> Prop) (h : nat -> A -> B) (l : list A) :
  (forall i x, l !! i = Some x -> P x (h i x)) -> Forall2 P l (imap h l).
Proof.
  revert h. induction l as [|x l IH]; intros h H; [constructor|].
  rewrite imap_cons. constructor.
  - now apply (H 0%nat).
  - apply (IH (h ∘ S)). intros i y Hy. now apply (H (S i)).
Qed.


Lemma rows_fill_missing cols d :
  exists missing,
    (forall c, In c missing -> ~ In c (columns d))
    /\ (forall c, In c (columns d) -> In c (columns (fill_missing cols d)))
    /\ rows (fill_missing cols d)
       = map (fun r => fold_left (fun r c => set_cell c CNull r) missing r) (rows d).
Proof.
  unfold fill_missing. revert d. induction cols as [|col cols IH]; intros d; simpl.
  - exists []. repeat split; auto. simpl. now rewrite map_id.
  - destruct (has_column col d) eqn:Hcol.
    + apply IH.
    + destruct (IH (assign col (fun _ => CNull) d)) as (ms & Hms & Hcols & Hrows).
      exists (col :: ms). repeat split.
      * intros c [<-|Hc].
        -- intros Hin. apply has_column_true_iff in Hin. congruence.
        -- intros Hin. apply (Hms c Hc). simpl. now apply In_add_column_old.
      * intros c Hc. apply Hcols. simpl. now apply In_add_column_old.
      * rewrite Hrows. simpl. now rewrite map_map.
Qed.

Lemma get_fill_row c missing r :
  ~ In c missing -> get c (fold_left (fun r c => set_cell c CNull r) missing r) = get c r.
Proof.
  revert r. induction missing as [|m ms IH]; intros r Hc; simpl; [reflexivity|].
  rewrite IH by (intros H; apply Hc; now right).
  apply get_set_other. intros ->. apply Hc. now left.
Qed.


Lemma get_picked c names r :
  In c names -> get c (mkRow (label r) (pick_fields names (fields r))) = get c r.
Proof. intros H. unfold get. simpl. now rewrite lookup_field_pick. Qed.


Lemma columns_keep_not_equal c val df out :
  keep_not_equal c val df = Ok out -> columns out = columns df.
Proof.
  unfold keep_not_equal, require_column.
  destruct (has_column c df); [|discriminate].
  cbn [mbind result_bind mret result_ret].
  destruct val as [v|vs].
  - intros H. apply Ok_inj in H. now subst out.
  - destruct (bool_decide (length vs = len df)); [|discriminate].
    intros H. apply Ok_inj in H. now subst out.
Qed.



(** ** Batch processing *)

Lemma write_sheet_names name df sheets :
  write_sheet name df = Ok sheets -> forall n, In n (map fst sheets) -> n = name.
Proof.
  unfold write_sheet. destruct (negb (empty df)).
  - destruct (format_date_columns df) as [d|]; [|discriminate].
    cbn [mbind result_bind mret result_ret]. intros H. apply Ok_inj in H. subst sheets.
    simpl. intros n [<-|[]]. reflexivity.
  - intros H. apply Ok_inj in H. subst sheets. contradiction.
Qed.

Lemma run_batch_no_domain_file now :
  run_batch now [pd_DataFrame] = Ok [(sheet_validation, validation_frame 0 0 0)].
Proof. reflexivity. Qed.

(** C10: every successful run writes the validation sheet, once and last,
    with four rows: the counts of the main, type-anomaly and mall-anomaly
    shipping tables and their sum, all zero when the three tables are
    empty; no other sheet is in every workbook. *)
Theorem validation_sheet_always_written now uploaded_files workbook :
  run_batch now uploaded_files = Ok workbook ->
  exists df_shipping main type_abnormal store_abnormal others,
    concat_parts (sort_uploads uploaded_files).1.1 = Ok df_shipping
    /\ process_shipping_data now df_shipping = Ok (main, type_abnormal, store_abnormal)
    /\ workbook
       = others ++ [(sheet_validation,
                     validation_frame (len main) (len type_abnormal) (len store_abnormal))]
    /\ ~ In sheet_validation (map fst others)
    /\ len (validation_frame (len main) (len type_abnormal) (len store_abnormal)) = 4%nat
    /\ column_values "건수"
         (validation_frame (len main) (len type_abnormal) (len store_abnormal))
       = [CNum (Z.of_nat (len main)); CNum (Z.of_nat (len type_abnormal));
          CNum (Z.of_nat (len store_abnormal));
          CNum (Z.of_nat (len main + len type_abnormal + len store_abnormal))]
    /\ (len main = 0%nat -> len type_abnormal = 0%nat -> len store_abnormal = 0%nat ->
        column_values "건수"
          (validation_frame (len main) (len type_abnormal) (len store_abnormal))
        = [CNum 0; CNum 0; CNum 0; CNum 0])
    /\ (forall name,
          (forall files wb, run_batch now files = Ok wb -> In name (map fst wb))
          <-> name = sheet_validation).
Proof.
  assert (Hshape : forall files wb,
    run_batch now files = Ok wb ->
    exists df_shipping main type_abnormal store_abnormal others,
      concat_parts (sort_uploads files).1.1 = Ok df_shipping
      /\ process_shipping_data now df_shipping = Ok (main, type_abnormal, store_abnormal)
      /\ wb = others ++ [(sheet_validation,
                          validation_frame (len main) (len type_abnormal)
                                           (len store_abnormal))]
      /\ ~ In sheet_validation (map fst others)).
  { intros files wb. unfold run_batch.
    destruct (sort_uploads files) as [[shipping_parts return_parts] receiving_parts].
    cbn [fst].
    destruct (concat_parts shipping_parts) as [df_shipping|]; [|discriminate].
    cbn [mbind result_bind].
    destruct (concat_parts return_parts) as [df_return|]; [|discriminate].
    cbn [mbind result_bind].
    destruct (concat_parts receiving_parts) as [df_receiving|]; [|discriminate].
    cbn [mbind result_bind]. unfold assemble.
    destruct (process_shipping_data now df_shipping) as [[[main ta] sa]|] eqn:Hproc;
      [|discriminate].
    cbn [mbind result_bind].
    destruct (process_return_data now df_return) as [main_return|]; [|discriminate].
    cbn [mbind result_bind].
    destruct (process_receiving_data now df_receiving) as [[pec free]|]; [|discriminate].
    cbn [mbind result_bind].
    destruct (concat [main; main_return]) as [summary|]; [|discriminate].
    cbn [mbind result_bind].
    destruct (write_sheet "정산요약" summary) as [s1|] eqn:H1; [|discriminate].
    cbn [mbind result_bind].
    destruct (write_sheet "매출처 이상" sa) as [s2|] eqn:H2; [|discriminate].
    cbn [mbind result_bind].
    destruct (write_sheet "출고타입 이상" ta) as [s3|] eqn:H3; [|discriminate].
    cbn [mbind result_bind].
    destruct (write_sheet "입고 특이사항" pec) as [s4|] eqn:H4; [|discriminate].
    cbn [mbind result_bind].
    destruct (write_sheet "무상 정상 입고" free) as [s5|] eqn:H5; [|discriminate].
    cbn [mbind result_bind mret result_ret]. intros H. apply Ok_inj in H. subst wb.
    exists df_shipping, main, ta, sa, (s1 ++ s2 ++ s3 ++ s4 ++ s5).
    split; [reflexivity|]. split; [exact Hproc|]. split.
    - now rewrite <- !app_assoc.
    - rewrite !map_app, !in_app_iff.
      intros [H|[H|[H|[H|H]]]];
        [ apply (write_sheet_names _ _ _ H1) in H
        | apply (write_sheet_names _ _ _ H2) in H
        | apply (write_sheet_names _ _ _ H3) in H
        | apply (write_sheet_names _ _ _ H4) in H
        | apply (write_sheet_names _ _ _ H5) in H ];
        apply String.eqb_eq in H; discriminate. }
  intros Hrun.
  destruct (Hshape uploaded_files workbook Hrun)
    as (df_shipping & main & ta & sa & others & Hcat & Hproc & Hwb & Hother).
  exists df_shipping, main, ta, sa, others.
  repeat split; try assumption.
  - intros H0 H1 H2. rewrite H0, H1, H2. reflexivity.
  - intros Hall. specialize (Hall [pd_DataFrame] _ (run_batch_no_domain_file now)).
    simpl in Hall. destruct Hall as [<-|[]]. reflexivity.
  - intros -> files wb Hwb'.
    destruct (Hshape files wb Hwb') as (d' & m' & t' & s' & others' & _ & _ & -> & _).
    rewrite map_app, in_app_iff. right. now left.
Qed.

(** ** The keyword test as a substring search *)

Lemma append_empty_r (s : string) : (s ++ EmptyString)%string = s.
Proof. induction s as [|c s IH]; [reflexivity|]. now rewrite <- IH at 2. Qed.

Lemma append_assoc_string (a b c : string) : ((a ++ b) ++ c)%string = (a ++ (b ++ c))%string.
Proof.
  induction a as [|x a IH]; [reflexivity|].
  change (String x ((a ++ b) ++ c) = String x (a ++ (b ++ c)))%string. now rewrite IH.
Qed.








(** ** Further properties of the previous-month filter *)

Lemma fresh_unallocated (h : gmap nat DataFrame) : h !! fresh (dom h) = None.
Proof. apply not_elem_of_dom. apply is_fresh. Qed.

Lemma is_Some_insert_mono (h : gmap nat DataFrame) l l' d :
  is_Some (h !! l) -> is_Some (<[l' := d]> h !! l).
Proof.
  intros H. destruct (decide (l' = l)) as [->|Hne].
  - rewrite lookup_insert_eq. eauto.
  - now rewrite lookup_insert_ne.
Qed.

(** X2: the table the filter returns is a new one, at a reference that was
    not in use before the call, and no table of the store other than the
    caller's is touched. *)
Theorem filter_by_previous_month_fresh_result now h df date_col :
  is_Some (h !! df) ->
  let res := fst (run (filter_by_previous_month now df date_col) h) in
  let h' := snd (run (filter_by_previous_month now df date_col) h) in
  res <> df
  /\ h !! res = None
  /\ is_Some (h' !! res)
  /\ forall l, l <> df -> is_Some (h !! l) -> h' !! l = h !! l.
Proof.
  intros Hdf. unfold filter_by_previous_month.
  cbn [run mbind St_bind mret St_ret deref store_at new_object].
  set (d := content h df).
  destruct (negb (has_column date_col d) || empty d).
  { cbn [run new_object fst snd]. repeat split.
    - now apply fresh_not_allocated.
    - apply fresh_unallocated.
    - rewrite lookup_insert_eq. eauto.
    - intros l _ Hl. apply lookup_insert_ne. now apply fresh_not_allocated. }
  destruct (1 <? len d)%nat;
    cbn [run mbind St_bind mret St_ret deref store_at new_object fst snd];
    rewrite !content_insert.
  - set (l1 := fresh (dom h)).
    match goal with
    | |- context [run (if ?c then _ else _) ?hh] => set (h2 := hh); destruct c
    end; cbn [run new_object fst snd];
      (assert (Hdom : forall l, is_Some (h !! l) -> is_Some (h2 !! l))
         by (intros l Hl; unfold h2; repeat apply is_Some_insert_mono; exact Hl);
       repeat split;
       [ apply fresh_not_allocated; now apply Hdom
       | destruct (h !! fresh (dom h2)) eqn:E; [|reflexivity];
         exfalso; apply (fresh_not_allocated h2 (fresh (dom h2))); [apply Hdom; eauto | reflexivity]
       | rewrite lookup_insert_eq; eauto
       | intros l Hne Hl;
         rewrite lookup_insert_ne by (apply fresh_not_allocated; now apply Hdom);
         unfold h2; rewrite !lookup_insert_ne by (apply fresh_not_allocated; assumption);
         reflexivity ]).
  - fold d.
    match goal with
    | |- context [run (if ?c then _ else _) ?hh] => set (h2 := hh); destruct c
    end; cbn [run new_object fst snd];
      (assert (Hdom : forall l, is_Some (h !! l) -> is_Some (h2 !! l))
         by (intros l Hl; unfold h2; repeat apply is_Some_insert_mono; exact Hl);
       repeat split;
       [ apply fresh_not_allocated; now apply Hdom
       | destruct (h !! fresh (dom h2)) eqn:E; [|reflexivity];
         exfalso; apply (fresh_not_allocated h2 (fresh (dom h2))); [apply Hdom; eauto | reflexivity]
       | rewrite lookup_insert_eq; eauto
       | intros l Hne Hl;
         rewrite lookup_insert_ne by (apply fresh_not_allocated; now apply Hdom);
         unfold h2; rewrite !lookup_insert_ne by congruence;
         reflexivity ]).
Qed.

(** ** Brand clean-up *)

Lemma prefix_char a c s :
  String.prefix (String a EmptyString) (String c s) = bool_decide (a = c).
Proof.
  cbv [String.prefix]. destruct (ascii_dec a c) as [->|Hne].
  - rewrite bool_decide_true by reflexivity. now destruct s.
  - now rewrite bool_decide_false.
Qed.

Lemma contains_char_cons a c s :
  Str.contains (String a EmptyString) (String c s)
  = bool_decide (a = c) || Str.contains (String a EmptyString) s.
Proof. cbn [Str.contains]. now rewrite prefix_char. Qed.

Lemma contains_char_app a s t :
  Str.contains (String a EmptyString) (s ++ t)%string
  = Str.contains (String a EmptyString) s || Str.contains (String a EmptyString) t.
Proof.
  induction s as [|c s IH].
  - reflexivity.
  - change (String c s ++ t)%string with (String c (s ++ t)).
    rewrite !contains_char_cons, IH. now rewrite orb_assoc.
Qed.

Lemma split_go_char_free a k cur :
  Str.contains (String a EmptyString) k = false ->
  Str.split_go (String a EmptyString) 0 cur k = [(cur ++ k)%string].
Proof.
  revert cur. induction k as [|c k IH]; intros cur Hfree.
  - simpl. now rewrite append_empty_r.
  - rewrite contains_char_cons in Hfree. apply orb_false_iff in Hfree as [Hc Hk].
    cbn [Str.split_go]. rewrite prefix_char, Hc.
    rewrite (IH _ Hk). now rewrite append_assoc_string.
Qed.

Lemma hd_split_go_char_free a s cur :
  Str.contains (String a EmptyString) cur = false ->
  Str.contains (String a EmptyString)
               (hd EmptyString (Str.split_go (String a EmptyString) 0 cur s)) = false.
Proof.
  revert cur. induction s as [|c s IH]; intros cur Hcur; [exact Hcur|].
  cbn [Str.split_go]. rewrite prefix_char.
  destruct (bool_decide (a = c)) eqn:Hc; [exact Hcur|].
  apply IH. rewrite contains_char_app, Hcur, contains_char_cons, Hc. reflexivity.
Qed.

Lemma lstrip_char_free a s :
  Str.contains (String a EmptyString) s = false ->
  Str.contains (String a EmptyString) (Str.lstrip s) = false.
Proof.
  induction s as [|c s IH]; [auto|]. intros H. simpl.
  destruct (Str.is_space c); [|exact H].
  rewrite contains_char_cons in H. apply orb_false_iff in H as [_ H]. now apply IH.
Qed.

Lemma rstrip_char_free a s :
  Str.contains (String a EmptyString) s = false ->
  Str.contains (String a EmptyString) (Str.rstrip s) = false.
Proof.
  induction s as [|c s IH]; [auto|]. intros H.
  rewrite contains_char_cons in H. apply orb_false_iff in H as [Hc H].
  specialize (IH H). simpl.
  destruct (Str.rstrip s) as [|c' t].
  - destruct (Str.is_space c); [reflexivity|]. rewrite contains_char_cons, Hc. reflexivity.
  - rewrite contains_char_cons, Hc. exact IH.
Qed.

Lemma lstrip_idempotent s : Str.lstrip (Str.lstrip s) = Str.lstrip s.
Proof.
  induction s as [|c s IH]; [reflexivity|]. simpl.
  destruct (Str.is_space c) eqn:Hc; [exact IH|]. simpl. now rewrite Hc.
Qed.

Lemma rstrip_idempotent s : Str.rstrip (Str.rstrip s) = Str.rstrip s.
Proof.
  induction s as [|c s IH]; [reflexivity|]. simpl.
  destruct (Str.rstrip s) as [|c' t] eqn:Ht.
  - destruct (Str.is_space c) eqn:Hc; [reflexivity|]. simpl. now rewrite Hc.
  - change (Str.rstrip (String c (String c' t))) with
      (match Str.rstrip (String c' t) with
       | EmptyString => if Str.is_space c then EmptyString else String c EmptyString
       | u => String c u
       end).
    now rewrite IH.
Qed.

Lemma rstrip_lstrip_clean s : Str.rstrip s = s -> Str.rstrip (Str.lstrip s) = Str.lstrip s.
Proof.
  induction s as [|c s IH]; [reflexivity|]. intros H. simpl.
  destruct (Str.is_space c) eqn:Hc; [|exact H].
  apply IH. simpl in H. rewrite Hc in H.
  destruct (Str.rstrip s) as [|c' t]; [discriminate | congruence].
Qed.

Lemma strip_idempotent s : Str.strip (Str.strip s) = Str.strip s.
Proof.
  unfold Str.strip.
  rewrite (rstrip_lstrip_clean (Str.rstrip s)) by apply rstrip_idempotent.
  apply lstrip_idempotent.
Qed.

Lemma normalize_brand_clean c :
  normalize_brand (CStr (normalize_brand c)) = normalize_brand c.
Proof.
  unfold normalize_brand at 1. cbn [astype_str]. unfold Str.split.
  assert (Hfree : Str.contains ":" (normalize_brand c) = false).
  { unfold normalize_brand, Str.strip, Str.split.
    apply lstrip_char_free, rstrip_char_free, hd_split_go_char_free. reflexivity. }
  rewrite (split_go_char_free ":" _ EmptyString Hfree). cbn [hd].
  change (EmptyString ++ normalize_brand c)%string with (normalize_brand c).
  unfold normalize_brand. apply strip_idempotent.
Qed.

(** X3: cleaning a brand that is already clean changes nothing: the text
    before the first colon, stripped, has no colon and no blank at either
    end. *)
Theorem normalize_brand_idempotent c :
  normalize_brand (CStr (normalize_brand c)) = normalize_brand c.
Proof. apply normalize_brand_clean. Qed.

Lemma set_fields_twice c v fs : set_fields c v (set_fields c v fs) = set_fields c v fs.
Proof.
  unfold set_fields at 1. rewrite keys_set_fields.
  assert (Hin : Str.mem c (add_column c (map fst fs)) = true)
    by (apply mem_true_iff, In_add_column).
  rewrite Hin. unfold set_fields. destruct (Str.mem c (map fst fs)) eqn:Hmem.
  - rewrite map_map. apply map_ext. intros [k x]. simpl.
    destruct (String.eqb k c) eqn:Hk; simpl; now rewrite Hk.
  - rewrite map_app. simpl. rewrite String.eqb_refl. f_equal.
    rewrite <- (map_id fs) at 2. apply map_ext_in. intros [k x] Hkx. simpl.
    destruct (String.eqb k c) eqn:Hk; [|reflexivity].
    apply String.eqb_eq in Hk. subst k. apply mem_false_iff in Hmem.
    exfalso. apply Hmem. apply in_map_iff. now exists (c, x).
Qed.

Lemma filter_idempotent {A} (p : A -> bool) (l : list A) :
  List.filter p (List.filter p l) = List.filter p l.
Proof. apply filter_all. intros x Hx. now apply filter_In in Hx. Qed.

(** X4: without the brand column the brand exclusion raises [KeyError].
    On a table with the column, and no column name twice, every row it
    keeps has a clean brand text that is not an excluded brand, the rows
    kept are rows of the input in their order, and excluding again
    changes nothing. *)
Theorem exclude_brands_postcondition brand_col df :
  (has_column brand_col df = false ->
   exclude_brands brand_col df = Err (KeyError brand_col))
  /\ (has_column brand_col df = true -> NoDup (columns df) ->
      exists out,
        exclude_brands brand_col df = Ok out
        /\ Forall (fun r => exists b, get brand_col r = CStr b
                                      /\ ~ In b (excluded_brands CONFIG)
                                      /\ normalize_brand (CStr b) = b)
                  (rows out)
        /\ sublist (labels out) (labels df)
        /\ exclude_brands brand_col out = Ok out).
Proof.
  unfold exclude_brands at 1 2, require_column. split; intros Hcol; rewrite Hcol.
  { reflexivity. }
  intros _. cbn [mbind result_bind mret result_ret].
  set (f := fun r => CStr (normalize_brand (get brand_col r))).
  set (p := fun r => negb (str_isin (excluded_brands CONFIG) (get brand_col r))).
  eexists. split; [reflexivity|]. split; [|split].
  - rewrite List.Forall_forall. intros r Hr. cbn [select_rows rows] in Hr.
    apply filter_In in Hr as [Hr Hp]. cbn [assign rows] in Hr.
    apply in_map_iff in Hr as (r0 & <- & _).
    unfold p in Hp. rewrite get_set_same in Hp |- *. unfold f in Hp |- *.
    eexists. split; [reflexivity|]. split.
    + cbn [str_isin] in Hp. apply negb_true_iff, mem_false_iff in Hp. exact Hp.
    + apply normalize_brand_clean.
  - etrans; [apply labels_select_rows_sublist|]. now rewrite labels_assign.
  - unfold exclude_brands, require_column.
    assert (Hin : has_column brand_col (select_rows p (assign brand_col f df)) = true)
      by (apply has_column_true_iff, In_add_column).
    rewrite Hin. cbn [mbind result_bind mret result_ret]. f_equal.
    unfold select_rows, assign. cbn [columns rows]. f_equal.
    + apply add_column_present, In_add_column.
    + fold f. fold p.
      assert (Hfix : map (fun r => set_cell brand_col (f r) r)
                         (List.filter p (map (fun r => set_cell brand_col (f r) r) (rows df)))
                     = List.filter p (map (fun r => set_cell brand_col (f r) r) (rows df))).
      { rewrite <- (map_id (List.filter p _)) at 2. apply map_ext_in. intros r Hr.
        apply filter_In in Hr as [Hr _]. apply in_map_iff in Hr as (r0 & <- & _).
        unfold set_cell at 1. cbn [label fields set_cell].
        assert (Hf : f (set_cell brand_col (f r0) r0) = f r0).
        { unfold f. rewrite get_set_same. now rewrite normalize_brand_clean. }
        unfold set_cell in Hf |- *. cbn [label fields]. rewrite Hf.
        now rewrite set_fields_twice. }
      etrans; [exact (f_equal (List.filter p) Hfix) | apply filter_idempotent].
Qed.

(** ** The rule of the two receiving buckets *)








Lemma first_cut_colon_free a u :
  Str.contains ":" a = false -> first_cut " : " (a ++ " : " ++ u) a u.
Proof.
  intros Ha. split; [reflexivity|]. revert Ha.
  induction a as [|c a IH]; intros Ha a' u' Heq; [cbn; lia|].
  rewrite contains_char_cons in Ha. apply orb_false_iff in Ha as [Hc Ha].
  change (String c a ++ " : " ++ u)%string with (String c (a ++ " : " ++ u)) in Heq.
  destruct a' as [|c' a'].
  - exfalso. change (EmptyString ++ " : " ++ u')%string
      with (String " " (String ":" (String " " u'))) in Heq.
    injection Heq as _ Heq. destruct a as [|d a].
    + discriminate Heq.
    + change (String d a ++ " : " ++ u)%string with (String d (a ++ " : " ++ u)) in Heq.
      injection Heq as -> _. rewrite contains_char_cons in Ha.
      rewrite bool_decide_true in Ha by reflexivity. discriminate.
  - change (String c' a' ++ " : " ++ u')%string with (String c' (a' ++ " : " ++ u')) in Heq.
    injection Heq as _ Heq. cbn [String.length]. apply le_n_S.
    exact (IH Ha a' u' Heq).
Qed.

Lemma uncut_colon_free seg : Str.contains ":" seg = false -> uncut " : " seg.
Proof.
  intros Hfree a u ->. rewrite !contains_char_app in Hfree.
  apply orb_false_iff in Hfree as [_ Hfree]. apply orb_false_iff in Hfree as [Hsep _].
  discriminate.
Qed.

(** The second segment of a text of two segments without a colon of
    their own is the second of them. *)
Lemma second_of_two_segments a seg :
  Str.contains ":" a = false -> Str.contains ":" seg = false ->
  second_of (CStr (a ++ " : " ++ seg)) (CStr seg).
Proof.
  intros Ha Hseg. eapply second_of_last.
  - now apply first_cut_colon_free.
  - now apply uncut_colon_free.
Qed.


(** ** Reserved keys of the configuration *)

Lemma inverted_skips (keep : string -> string -> bool) (p : string -> bool)
      (cols_map : list (string * string)) :
  (forall k v, p k = false -> keep k v = false) ->
  inverted keep cols_map = inverted keep (List.filter (fun kv => p (fst kv)) cols_map).
Proof.
  intros Hkeep. unfold inverted. generalize (∅ : gmap string string) as acc.
  induction cols_map as [|[k v] l IH]; intros acc; [reflexivity|].
  simpl. destruct (p k) eqn:Hp; simpl.
  - apply IH.
  - rewrite (Hkeep k v Hp). apply IH.
Qed.

(** X5: the entries of the configuration whose key starts with an
    underscore have no effect: not in the shipping filters, not in the
    filters of the peculiar receipts, not in the column maps. *)
Theorem underscore_keys_ignored :
  let public {A} (entries : list (string * A)) :=
    List.filter (fun e => negb (Str.startswith "_" (fst e))) entries in
  (forall entries df,
      shipping_filters_loop entries df = shipping_filters_loop (public entries) df)
  /\ (forall entries df,
         receiving_filters_loop entries df = receiving_filters_loop (public entries) df)
  /\ (forall cols_map, canonical_rename_map cols_map = canonical_rename_map (public cols_map))
  /\ (forall qty cols_map,
         receiving_rename_map qty cols_map = receiving_rename_map qty (public cols_map)).
Proof.
  cbv zeta. repeat split.
  - intros entries. induction entries as [|[col val] es IH]; intros df; [reflexivity|].
    simpl. destruct (Str.startswith "_" col) eqn:Hu; simpl.
    + apply IH.
    + rewrite Hu. destruct (Str.endswith "_exclude" col).
      * destruct (keep_not_equal _ val df); [apply IH | reflexivity].
      * destruct (require_column col df); [|reflexivity]. simpl.
        destruct val; apply IH.
  - intros entries. induction entries as [|[col val] es IH]; intros df; [reflexivity|].
    simpl. destruct (Str.startswith "_" col) eqn:Hu; simpl.
    + apply IH.
    + rewrite Hu. destruct val.
      * destruct (keep_not_equal col _ df); [apply IH | reflexivity].
      * destruct (require_column col df); [|reflexivity]. simpl. apply IH.
  - intros cols_map. unfold canonical_rename_map. do 3 f_equal.
    apply (inverted_skips _ (fun k => negb (Str.startswith "_" k))). auto.
  - intros qty cols_map. unfold receiving_rename_map.
    apply (inverted_skips _ (fun k => negb (Str.startswith "_" k))).
    intros k v Hk. now rewrite Hk.
Qed.

(** ** The table the shipping classification starts from *)

Lemma In_rows_select_rows_at p d r : In r (rows (select_rows_at p d)) -> In r (rows d).
Proof.
  unfold select_rows_at. cbn [rows]. rewrite in_map_iff.
  intros ([i r'] & <- & Hin). apply filter_In in Hin as [Hin _].
  apply list_elem_of_In, elem_of_lookup_imap_1 in Hin as (j & x & Heq & Hx).
  injection Heq as _ ->. apply list_elem_of_In, list_elem_of_lookup. eauto.
Qed.

Lemma shipping_filter_holds df entry out :
  shipping_filter df entry = Ok out ->
  forall r, In r (rows out) -> In r (rows df) /\ shipping_entry_holds entry r = true.
Proof.
  unfold shipping_filter, shipping_entry_holds. destruct entry as [col val].
  destruct (Str.startswith "_" col).
  { intros H r Hr. apply Ok_inj in H. subst out. auto. }
  destruct (Str.endswith "_exclude" col).
  - unfold keep_not_equal, require_column.
    destruct (has_column _ df); [|discriminate].
    cbn [mbind result_bind mret result_ret]. destruct val as [v|vs].
    + intros H r Hr. apply Ok_inj in H. subst out. now apply filter_In in Hr.
    + destruct (bool_decide _); [|discriminate].
      intros H r Hr. apply Ok_inj in H. subst out.
      split; [now apply In_rows_select_rows_at in Hr | reflexivity].
  - unfold require_column. destruct (has_column col df); [|discriminate].
    cbn [mbind result_bind mret result_ret].
    destruct val; intros H r Hr; apply Ok_inj in H; subst out; now apply filter_In in Hr.
Qed.

Lemma shipping_filters_loop_holds entries df out :
  shipping_filters_loop entries df = Ok out ->
  forall r, In r (rows out) ->
            In r (rows df) /\ forallb (fun e => shipping_entry_holds e r) entries = true.
Proof.
  revert df. induction entries as [|e es IH]; intros df; simpl.
  - intros H r Hr. apply Ok_inj in H. subst out. auto.
  - destruct (shipping_filter df e) as [d|] eqn:He; [|discriminate].
    cbn [mbind result_bind]. intros H r Hr.
    destruct (IH d H r Hr) as [Hd Hes].
    destruct (shipping_filter_holds df e d He r Hd) as [Hdf Hhold].
    split; [exact Hdf|]. now rewrite Hhold, Hes.
Qed.

(** X6: every row the shipping classification starts from has a brand
    that is not excluded and meets every configured filter at once. *)
Theorem shipping_prepare_postcondition config df out :
  shipping_prepare config df = Ok out ->
  Forall (fun r =>
            (exists b, get col_brand r = CStr b /\ ~ In b (excluded_brands CONFIG))
            /\ forallb (fun e => shipping_entry_holds e r) (shipping_filters config) = true)
         (rows out).
Proof.
  unfold shipping_prepare.
  destruct (exclude_brands col_brand df) as [d|] eqn:Hb; [|discriminate].
  cbn [mbind result_bind]. intros Hloop.
  rewrite List.Forall_forall. intros r Hr.
  destruct (shipping_filters_loop_holds _ _ _ Hloop r Hr) as [Hd Hall].
  split; [|exact Hall].
  revert Hb Hd. unfold exclude_brands, require_column.
  destruct (has_column col_brand df); [|discriminate].
  cbn [mbind result_bind mret result_ret]. intros H Hd. apply Ok_inj in H. subst d.
  cbn [select_rows rows] in Hd. apply filter_In in Hd as [Hd Hp].
  cbn [assign rows] in Hd. apply in_map_iff in Hd as (r0 & <- & _).
  rewrite get_set_same in Hp |- *. eexists. split; [reflexivity|].
  cbn [str_isin] in Hp. now apply negb_true_iff, mem_false_iff in Hp.
Qed.

(** ** The three shipping tables *)

Lemma filter_filter_andb {A} (p q : A -> bool) (l : list A) :
  List.filter q (List.filter p l) = List.filter (fun x => p x && q x) l.
Proof.
  induction l as [|x l IH]; simpl; [reflexivity|].
  destruct (p x); simpl; [destruct (q x); now rewrite IH | exact IH].
Qed.

(** X7: a row of the prepared table goes to the type-anomaly table when
    its carrier type is not a normal type, whatever the keywords; to the
    main table when the type is normal and its channel, cut after the
    first colon-space, is a listed mall; to the mall-anomaly table when the
    type is normal and the channel is not listed. *)
Theorem shipping_tables_by_membership config df main type_abnormal store_abnormal :
  shipping_classify config df = Ok (main, type_abnormal, store_abnormal) ->
  let type_ok r := str_isin (normal_type (type_conditions config)) (get col_type r) in
  let mall_ok r := Str.mem (normalize_mall (get col_mall r)) (mall_list config) in
  labels main = map label (List.filter (fun r => type_ok r && mall_ok r) (rows df))
  /\ labels type_abnormal = map label (List.filter (fun r => negb (type_ok r)) (rows df))
  /\ labels store_abnormal
     = map label (List.filter (fun r => type_ok r && negb (mall_ok r)) (rows df)).
Proof.
  unfold shipping_classify, require_column.
  destruct (has_column col_mall df); [|discriminate].
  cbn [mbind result_bind].
  set (g := fun r => set_cell col_mall (CStr (normalize_mall (get col_mall r))) r).
  set (df1 := assign col_mall _ df).
  destruct (has_column col_type df1); [|discriminate].
  cbn [mbind result_bind].
  destruct (type_normal_mask config) as [mask|] eqn:Hmask; [|discriminate].
  cbn [mbind result_bind mret result_ret].
  intros H. apply Ok_inj in H. injection H as <- <- <-.
  set (type_ok := fun r => str_isin (normal_type (type_conditions config)) (get col_type r)).
  set (mall_ok := fun r => Str.mem (normalize_mall (get col_mall r)) (mall_list config)).
  assert (Hc : columns df1 <> []) by apply columns_assign_not_nil.
  assert (Hm : forall r, mask r = cond_type_normal config r)
    by exact (type_normal_mask_Ok config mask Hmask).
  assert (Htype : forall r, cond_type_normal config (g r) = type_ok r).
  { intros r. unfold cond_type_normal, type_ok, g.
    now rewrite get_set_other by (now apply String.eqb_neq). }
  assert (Hmall : forall r, str_isin (mall_list config) (get col_mall (g r)) = mall_ok r).
  { intros r. unfold g, mall_ok. now rewrite get_set_same. }
  assert (Hrows : rows df1 = map g (rows df)) by reflexivity.
  rewrite !labels_shipping_finalize, !labels_assign_category;
    try (apply columns_assign_category); try exact Hc.
  rewrite !labels_select_rows. cbn [select_rows rows].
  rewrite !filter_filter_andb, Hrows, !filter_map_commute, !map_map.
  repeat split; (etrans; [apply map_ext; intros r; reflexivity|]); f_equal;
    apply filter_ext; intros r; now rewrite ?Hm, ?Htype, ?Hmall.
Qed.

(** ** The columns of the output tables *)

Lemma columns_fill_missing_old cols d c :
  In c (columns d) -> In c (columns (fill_missing cols d)).
Proof. destruct (rows_fill_missing cols d) as (ms & _ & H & _). apply H. Qed.

Lemma columns_fill_missing_all cols d c :
  In c cols -> In c (columns (fill_missing cols d)).
Proof.
  revert d. induction cols as [|col cols IH]; intros d; [contradiction|].
  intros [->|Hc].
  - change (fill_missing (c :: cols) d)
      with (fill_missing cols (if has_column c d then d else assign c (fun _ => CNull) d)).
    apply columns_fill_missing_old.
    destruct (has_column c d) eqn:H; [now apply has_column_true_iff | apply In_add_column].
  - change (fill_missing (col :: cols) d)
      with (fill_missing cols (if has_column col d then d else assign col (fun _ => CNull) d)).
    now apply IH.
Qed.

Lemma well_formed_fill_missing cols d : well_formed d -> well_formed (fill_missing cols d).
Proof.
  unfold fill_missing. revert d. induction cols as [|col cols IH]; intros d H; [exact H|].
  simpl. apply IH. destruct (has_column col d); [exact H | now apply well_formed_assign].
Qed.

Lemma well_formed_rename m d : well_formed d -> well_formed (rename m d).
Proof.
  unfold well_formed, rename. cbn [rows columns]. rewrite !List.Forall_forall.
  intros H r' Hr'. apply in_map_iff in Hr' as (r & <- & Hr). cbn [fields].
  rewrite map_map. cbn [fst]. rewrite <- (H r Hr). now rewrite map_map.
Qed.

Lemma keys_pick_fields names fs :
  map fst (pick_fields names fs)
  = flat_map (fun n => List.filter (String.eqb n) (map fst fs)) names.
Proof.
  unfold pick_fields. induction names as [|n names IH]; [reflexivity|].
  simpl. rewrite map_app, IH. f_equal.
  clear IH. induction fs as [|[k x] fs IH]; [reflexivity|].
  simpl. rewrite (String.eqb_sym n k).
  destruct (String.eqb k n); simpl; now rewrite IH.
Qed.

Lemma well_formed_select_columns names d :
  well_formed d -> well_formed (select_columns names d).
Proof.
  unfold well_formed, select_columns. cbn [rows columns]. rewrite !List.Forall_forall.
  intros H r' Hr'. apply in_map_iff in Hr' as (r & <- & Hr). cbn [fields].
  now rewrite keys_pick_fields, (H r Hr).
Qed.

Lemma In_select_columns names d c :
  In c (columns (select_columns names d)) <-> In c names /\ In c (columns d).
Proof.
  unfold select_columns. cbn [columns]. rewrite in_flat_map. split.
  - intros (n & Hn & Hc). apply filter_In in Hc as [Hc Heq].
    apply String.eqb_eq in Heq. subst. auto.
  - intros [Hn Hc]. exists c. split; [exact Hn|]. apply filter_In. split; [exact Hc|].
    apply String.eqb_refl.
Qed.

Lemma well_formed_assign_category d cm sm :
  well_formed d -> well_formed (assign_category d cm sm).
Proof.
  intros H. unfold assign_category. destruct (empty d); [exact H|].
  destruct sm; repeat apply well_formed_assign; exact H.
Qed.

Lemma shipping_finalize_shape d cols_map is_abnormal :
  let out := shipping_finalize d cols_map is_abnormal in
  (well_formed d -> well_formed out)
  /\ (empty d = true -> out = pd_DataFrame)
  /\ (empty d = false ->
      forall c, In c (columns out) <-> In c (shipping_col_order is_abnormal)).
Proof.
clear re_compile.
  unfold shipping_finalize. destruct (empty d); cbv zeta.
  { split; [intros _; apply well_formed_empty_frame|]. split; [reflexivity | discriminate]. }
  split; [|split; [discriminate|]].
  - intros H. apply well_formed_select_columns, well_formed_fill_missing, well_formed_rename.
    now repeat apply well_formed_assign.
  - intros _ c. rewrite In_select_columns, filter_In, has_column_true_iff.
    split; [tauto|]. intros Hc.
    assert (In c (columns (fill_missing (shipping_col_order is_abnormal)
                             (rename (renamed (canonical_rename_map cols_map))
                                (assign col_unit (fun _ => CNum 1)
                                   (assign col_source (fun _ => CStr "삼일 출고데이터") d))))))
      by now apply columns_fill_missing_all.
    tauto.
Qed.

Lemma well_formed_select_rows_at p d : well_formed d -> well_formed (select_rows_at p d).
Proof.
  unfold well_formed. rewrite !List.Forall_forall. intros H r Hr.
  apply In_rows_select_rows_at in Hr. now apply H.
Qed.

Lemma well_formed_keep_not_equal c val df out :
  well_formed df -> keep_not_equal c val df = Ok out -> well_formed out.
Proof.
  intros Hwf. unfold keep_not_equal, require_column.
  destruct (has_column c df); [|discriminate].
  cbn [mbind result_bind mret result_ret]. destruct val as [v|vs].
  - intros H. apply Ok_inj in H. subst out. now apply well_formed_select_rows.
  - destruct (bool_decide _); [|discriminate].
    intros H. apply Ok_inj in H. subst out. now apply well_formed_select_rows_at.
Qed.

Lemma well_formed_shipping_prepare config df out :
  well_formed df -> shipping_prepare config df = Ok out -> well_formed out.
Proof.
  intros Hwf. unfold shipping_prepare.
  destruct (exclude_brands col_brand df) as [d|] eqn:Hb; [|discriminate].
  cbn [mbind result_bind].
  apply (well_formed_exclude_brands _ _ _ Hwf) in Hb.
  revert d Hb. induction (shipping_filters config) as [|[col val] es IH]; intros d Hd; simpl.
  - intros H. apply Ok_inj in H. now subst out.
  - destruct (Str.startswith "_" col).
    { cbn [mbind result_bind mret result_ret]. now apply IH. }
    destruct (Str.endswith "_exclude" col).
    + destruct (keep_not_equal _ val d) as [d'|] eqn:Hk; [|discriminate].
      cbn [mbind result_bind]. apply IH. exact (well_formed_keep_not_equal _ _ _ _ Hd Hk).
    + unfold require_column. destruct (has_column col d); [|discriminate].
      cbn [mbind result_bind mret result_ret].
      destruct val; apply IH; now apply well_formed_select_rows.
Qed.

(** *** Blank cells of the columns that are added *)

Lemma In_columns_assign_old c f d k : In k (columns d) -> In k (columns (assign c f d)).
Proof. unfold assign. cbn [columns]. apply In_add_column_old. Qed.

Lemma In_columns_assign_new c f d : In c (columns (assign c f d)).
Proof. unfold assign. cbn [columns]. apply In_add_column. Qed.

Lemma fill_missing_keeps_blank c cols : forall d,
  has_column c d = true ->
  Forall (fun r => get c r = CNull) (rows d) ->
  Forall (fun r => get c r = CNull) (rows (fill_missing cols d)).
Proof.
  unfold fill_missing. induction cols as [|col cols IH]; intros d Hc Hblank; [exact Hblank|].
  cbn [fold_left]. destruct (has_column col d) eqn:Hcol; [now apply IH|].
  assert (Hne : col <> c) by (intros ->; congruence).
  apply IH.
  - apply has_column_true_iff, In_columns_assign_old. now apply has_column_true_iff.
  - rewrite rows_assign. apply List.Forall_forall. intros r Hr.
    apply in_map_iff in Hr as (r0 & <- & Hr0). rewrite get_set_other by exact Hne.
    rewrite List.Forall_forall in Hblank. now apply Hblank.
Qed.

Lemma fill_missing_blank c cols : forall d,
  In c cols -> has_column c d = false ->
  Forall (fun r => get c r = CNull) (rows (fill_missing cols d)).
Proof.
  induction cols as [|col cols IH]; intros d Hin Hc; [contradiction|].
  change (fill_missing (col :: cols) d)
    with (fill_missing cols (if has_column col d then d
                             else assign col (fun _ => CNull) d)).
  destruct (String.eqb col c) eqn:Heq.
  - apply String.eqb_eq in Heq. subst col. rewrite Hc.
    apply fill_missing_keeps_blank.
    + apply has_column_true_iff, In_columns_assign_new.
    + rewrite rows_assign. apply List.Forall_forall. intros r Hr.
      apply in_map_iff in Hr as (r0 & <- & _). apply get_set_same.
  - apply String.eqb_neq in Heq. destruct Hin as [->|Hin]; [contradiction|].
    apply IH; [exact Hin|].
    destruct (has_column col d); [exact Hc|].
    apply mem_false_iff. intros H. apply In_add_column_iff in H as [->|H]; [contradiction|].
    apply mem_false_iff in Hc. contradiction.
Qed.

Lemma select_columns_blank c names d :
  In c names ->
  Forall (fun r => get c r = CNull) (rows d) ->
  Forall (fun r => get c r = CNull) (rows (select_columns names d)).
Proof.
  intros Hin Hblank. unfold select_columns. cbn [rows]. apply List.Forall_forall.
  intros r Hr. apply in_map_iff in Hr as (r0 & <- & Hr0).
  rewrite get_picked by exact Hin. rewrite List.Forall_forall in Hblank. now apply Hblank.
Qed.

Lemma incl_columns_previous_month_value now d date_col :
  incl (columns (previous_month_value now d date_col)) (columns d).
Proof.
  unfold previous_month_value.
  destruct (has_column date_col d) eqn:Hc; cbn [negb orb]; [|intros k []].
  destruct (empty d); [intros k []|].
  match goal with
  | |- context [if empty ?p then _ else _] => destruct (empty p)
  end; [intros k []|].
  cbn [select_rows dropna assign_at columns].
  assert (Hbody : columns (if (1 <? len d)%nat then iloc_drop_last d else d) = columns d)
    by (now destruct (1 <? len d)%nat).
  rewrite Hbody, add_column_present by (now apply has_column_true_iff).
  apply incl_refl.
Qed.

Lemma columns_exclude_brands brand_col df out :
  exclude_brands brand_col df = Ok out -> columns out = columns df.
Proof.
  unfold exclude_brands, require_column.
  destruct (has_column brand_col df) eqn:Hc; [|discriminate].
  cbn [mbind result_bind mret result_ret]. intros H. apply Ok_inj in H. subst out.
  cbn [select_rows assign columns]. now apply add_column_present, has_column_true_iff.
Qed.

Lemma columns_shipping_filters_loop entries : forall df out,
  shipping_filters_loop entries df = Ok out -> columns out = columns df.
Proof.
  induction entries as [|[col val] es IH]; intros df out; simpl.
  - intros H. apply Ok_inj in H. now subst out.
  - destruct (Str.startswith "_" col).
    { cbn [mbind result_bind mret result_ret]. apply IH. }
    destruct (Str.endswith "_exclude" col).
    + destruct (keep_not_equal _ val df) as [d|] eqn:Hk; [|discriminate].
      cbn [mbind result_bind]. intros H. rewrite (IH d out H).
      exact (columns_keep_not_equal _ _ _ _ Hk).
    + unfold require_column. destruct (has_column col df); [|discriminate].
      cbn [mbind result_bind mret result_ret].
      destruct val; intros H; now rewrite (IH _ _ H).
Qed.

Lemma columns_shipping_prepare config df out :
  shipping_prepare config df = Ok out -> columns out = columns df.
Proof.
  unfold shipping_prepare.
  destruct (exclude_brands col_brand df) as [d|] eqn:Hb; [|discriminate].
  cbn [mbind result_bind]. intros H.
  rewrite (columns_shipping_filters_loop _ _ _ H). exact (columns_exclude_brands _ _ _ Hb).
Qed.

Lemma In_columns_assign_category d cm sm k :
  In k (columns (assign_category d cm sm)) -> k = col_new \/ In k (columns d).
Proof.
clear re_compile.
  unfold assign_category. destruct (empty d); [now right|].
  destruct sm; cbn [assign columns]; rewrite ?In_add_column_iff; tauto.
Qed.

Lemma shipping_finalize_blank d cols_map is_abnormal c :
  In c (shipping_col_order is_abnormal) ->
  (forall k, In k (columns d) \/ In k [col_source; col_unit] ->
             renamed (canonical_rename_map cols_map) k <> c) ->
  Forall (fun r => get c r = CNull) (rows (shipping_finalize d cols_map is_abnormal)).
Proof.
  intros Hc Hnone. unfold shipping_finalize. destruct (empty d); [constructor|]. cbv zeta.
  set (renamed_d := rename _ _).
  assert (Habsent : has_column c renamed_d = false).
  { apply mem_false_iff. unfold renamed_d, rename. cbn [columns assign].
    intros Hin. apply in_map_iff in Hin as (k & Hk & Hin). revert Hk. apply Hnone.
    rewrite !In_add_column_iff in Hin. cbn [In].
    destruct Hin as [->|[->|Hin]]; auto. }
  apply select_columns_blank.
  - apply filter_In. split; [exact Hc|].
    now apply has_column_true_iff, columns_fill_missing_all.
  - now apply fill_missing_blank.
Qed.

(** X8: each of the three tables the shipping classifier returns is either
    the empty table or has exactly the canonical columns, the type-anomaly
    table with the shipment-type column in addition.  A column that
    neither the upload provides nor the classifier writes is there all
    the same, with a blank cell in every row; in the type-anomaly table
    this holds of the new category too, which is written for the other
    two only.  Every row has a cell for each column. *)
Theorem shipping_tables_shape now df main type_abnormal store_abnormal :
  process_shipping_data now df = Ok (main, type_abnormal, store_abnormal) ->
  well_formed df ->
  let m := renamed (canonical_rename_map (shipping_final_columns (rules_shipping CONFIG))) in
  let shaped (is_abnormal : bool) (written : list string) (t : DataFrame) :=
    well_formed t
    /\ (t = pd_DataFrame
        \/ forall c, In c (columns t) <-> In c (shipping_col_order is_abnormal))
    /\ (forall c, In c (shipping_col_order is_abnormal) ->
                  (forall k, In k (columns df) \/ In k written -> m k <> c) ->
                  Forall (fun r => get c r = CNull) (rows t)) in
  shaped false [col_new; col_source; col_unit] main
  /\ shaped true [col_source; col_unit] type_abnormal
  /\ shaped false [col_new; col_source; col_unit] store_abnormal.
Proof.
  intros Hrun Hwf. cbv zeta.
  revert Hrun. unfold process_shipping_data.
  assert (Hempty : forall b written,
            well_formed pd_DataFrame
            /\ (pd_DataFrame = pd_DataFrame
                \/ forall c, In c (columns pd_DataFrame) <-> In c (shipping_col_order b))
            /\ (forall c, In c (shipping_col_order b) ->
                   (forall k, In k (columns df) \/ In k written ->
                      renamed (canonical_rename_map
                                 (shipping_final_columns (rules_shipping CONFIG))) k <> c) ->
                   Forall (fun r => get c r = CNull) (rows pd_DataFrame)))
    by (intros b written; split; [apply well_formed_empty_frame|];
        split; [now left | intros; constructor]).
  destruct (empty df).
  { intros H. apply Ok_inj in H. injection H as <- <- <-. auto. }
  rewrite previous_month_of_value.
  destruct (empty (previous_month_value now df _)) eqn:He.
  { intros H. apply Ok_inj in H. injection H as <- <- <-. auto. }
  clear Hempty.
  destruct (shipping_prepare _ _) as [input|] eqn:Hprep; [|discriminate].
  cbn [mbind result_bind].
  pose proof (columns_shipping_prepare _ _ _ Hprep) as Hcols.
  apply well_formed_shipping_prepare in Hprep;
    [|now apply well_formed_previous_month_value].
  unfold shipping_classify, require_column.
  destruct (has_column col_mall input) eqn:Hmall; [|discriminate].
  cbn [mbind result_bind].
  set (df1 := assign col_mall _ input).
  destruct (has_column col_type df1); [|discriminate].
  cbn [mbind result_bind].
  destruct (type_normal_mask _) as [mask|]; [|discriminate].
  cbn [mbind result_bind mret result_ret].
  intros H. apply Ok_inj in H. injection H as <- <- <-.
  assert (Hwf1 : well_formed df1) by now apply well_formed_assign.
  assert (Hcols1 : forall k, In k (columns df1) -> In k (columns df)).
  { intros k Hk. unfold df1, assign in Hk. cbn [columns] in Hk.
    rewrite add_column_present in Hk by (now apply has_column_true_iff).
    rewrite Hcols in Hk. exact (incl_columns_previous_month_value _ _ _ k Hk). }
  assert (Hshape : forall d b written, well_formed d ->
            (forall k, In k (columns d) \/ In k [col_source; col_unit] ->
                       In k (columns df) \/ In k written) ->
            let t := shipping_finalize d (shipping_final_columns (rules_shipping CONFIG)) b in
            well_formed t
            /\ (t = pd_DataFrame \/ forall c, In c (columns t) <-> In c (shipping_col_order b))
            /\ (forall c, In c (shipping_col_order b) ->
                   (forall k, In k (columns df) \/ In k written ->
                      renamed (canonical_rename_map
                                 (shipping_final_columns (rules_shipping CONFIG))) k <> c) ->
                   Forall (fun r => get c r = CNull) (rows t))).
  { intros d b written Hd Hsub. cbv zeta.
    destruct (shipping_finalize_shape d (shipping_final_columns (rules_shipping CONFIG)) b)
      as (Hw & He0 & Hc).
    split; [now apply Hw|]. split.
    - destruct (empty d); [left; now apply He0 | right; now apply Hc].
    - intros c Hin Hnone. apply shipping_finalize_blank; [exact Hin|].
      intros k Hk. apply Hnone, Hsub, Hk. }
  assert (Hcat : forall d k,
            (forall k, In k (columns d) -> In k (columns df)) ->
            In k (columns (assign_category d (category_map (rules_shipping CONFIG))
                             (seeding_map (rules_shipping CONFIG))))
            \/ In k [col_source; col_unit] ->
            In k (columns df) \/ In k [col_new; col_source; col_unit]).
  { intros d k Hd [Hk|Hk].
    - apply In_columns_assign_category in Hk as [->|Hk]; [right; now left | left; now apply Hd].
    - right. now right. }
  split; [|split]; apply Hshape.
  - apply well_formed_assign_category. now repeat apply well_formed_select_rows.
  - intros k. apply Hcat. exact Hcols1.
  - now apply well_formed_select_rows.
  - intros k [Hk|Hk]; [left; now apply Hcols1 | now right].
  - apply well_formed_assign_category. now repeat apply well_formed_select_rows.
  - intros k. apply Hcat. exact Hcols1.
Qed.

(** ** Category assignment *)

Lemma Forall2_map_self {A B} (P : A -> B -> Prop) (f : A -> B) (l : list A) :
  (forall x, In x l -> P x (f x)) -> Forall2 P l (map f l).
Proof.
  induction l as [|x l IH]; intros H; [constructor|].
  simpl. constructor; [apply H; now left | apply IH; intros y Hy; apply H; now right].
Qed.

(** X9: on a table with rows and with the brand and channel columns, the
    category assignment writes a text category into every row and leaves
    the other cells alone.  A row whose
    brand and channel are those of the seeding override gets the override
    category whatever the category map says; any other row gets the entry
    of the category map for its channel, failing that the [default] entry,
    failing that "기타". *)
Theorem assign_category_rule d category_map seeding_map :
  empty d = false ->
  has_column col_brand d = true ->
  has_column col_mall d = true ->
  let fallback := default cat_other (category_map !! "default") in
  let mapped r := match get col_mall r with
                  | CStr s => default fallback (category_map !! s)
                  | _ => fallback
                  end in
  let seeded r := match seeding_map with
                  | Some sm => cell_eqb (get col_brand r) (CStr (seed_brand sm))
                               && cell_eqb (get col_mall r) (CStr (seed_mall sm))
                  | None => false
                  end in
  Forall2 (fun r r' =>
             label r' = label r
             /\ (forall c, c <> col_new -> get c r' = get c r)
             /\ get col_new r'
                = CStr (if seeded r
                        then match seeding_map with
                             | Some sm => seed_category sm
                             | None => mapped r
                             end
                        else mapped r))
          (rows d) (rows (assign_category d category_map seeding_map)).
Proof.
  intros Hemp _ _. cbv zeta. unfold assign_category. rewrite Hemp.
  destruct seeding_map as [sm|].
  - rewrite !rows_assign, map_map. apply Forall2_map_self. intros r _.
    split; [reflexivity|]. split.
    + intros c Hc. now rewrite !get_set_other by congruence.
    + rewrite get_set_same.
      rewrite !(get_set_other col_new col_brand) by (now apply String.eqb_neq).
      rewrite !(get_set_other col_new col_mall) by (now apply String.eqb_neq).
      rewrite get_set_same.
      destruct (cell_eqb (get col_brand r) (CStr (seed_brand sm))
                && cell_eqb (get col_mall r) (CStr (seed_mall sm))); [reflexivity|].
      now destruct (get col_mall r).
  - rewrite rows_assign. apply Forall2_map_self. intros r _.
    split; [reflexivity|]. split.
    + intros c Hc. now rewrite get_set_other by congruence.
    + rewrite get_set_same. now destruct (get col_mall r).
Qed.

(** ** Outcome of the return classifier *)

Lemma NoDup_add_column c cols : NoDup cols -> NoDup (add_column c cols).
Proof.
  intros H. unfold add_column. destruct (Str.mem c cols) eqn:Hm; [exact H|].
  apply mem_false_iff in Hm. apply NoDup_app. repeat split.
  - exact H.
  - intros x Hx Hx'. apply list_elem_of_In in Hx. apply list_elem_of_In in Hx'.
    destruct Hx' as [<-|[]]. contradiction.
  - apply NoDup_singleton.
Qed.

Lemma return_classify_outcome config df :
  let qty_col := return_qty_col config in
  let status_col := return_status_col config in
  (has_column qty_col df = false -> return_classify config df = Err (KeyError qty_col))
  /\ (has_column qty_col df = true -> has_column status_col df = false ->
      return_classify config df = Err (KeyError status_col))
  /\ (has_column qty_col df = true -> has_column status_col df = true ->
      NoDup (columns df) -> exists out, return_classify config df = Ok out).
Proof.
  cbv zeta. unfold return_classify, require_column.
  destruct (has_column (return_qty_col config) df) eqn:Hq.
  2: { repeat split; try discriminate. }
  cbn [mbind result_bind].
  set (df1 := assign (return_qty_col config) _ df).
  assert (Hcols1 : columns df1 = columns df).
  { unfold df1, assign. cbn [columns]. now apply add_column_present, has_column_true_iff. }
  assert (Hs : has_column (return_status_col config) df1
               = has_column (return_status_col config) df)
    by (unfold has_column; now rewrite Hcols1).
  rewrite Hs.
  destruct (has_column (return_status_col config) df).
  2: { repeat split; try discriminate. }
  cbn [mbind result_bind].
  split; [discriminate|]. split; [discriminate|]. intros _ _ Hnd.
  set (df_return := assign col_new _ df1).
  set (df_bad := if negb (empty (select_rows (status_mapped config) df1)) then _ else _).
  assert (Hnd_ret : NoDup (columns df_return)).
  { unfold df_return, assign. cbn [columns]. rewrite Hcols1. now apply NoDup_add_column. }
  assert (Hnd_bad : NoDup (columns df_bad)).
  { unfold df_bad.
    destruct (negb (empty (select_rows (status_mapped config) df1))).
    - unfold assign. cbn [columns select_rows]. rewrite Hcols1. now apply NoDup_add_column.
    - cbn [columns select_rows]. now rewrite Hcols1. }
  assert (Hcat : exists stacked, concat [df_return; df_bad] = Ok stacked).
  { unfold concat. destruct (forallb _ [df_return; df_bad]); [eauto|].
    cbn [forallb]. rewrite !bool_decide_true by assumption. simpl. eauto. }
  destruct Hcat as [stacked ->]. cbn [mbind result_bind mret result_ret]. eauto.
Qed.

(** X10: what the return classifier answers.  A table with no row of the
    previous month gives the empty table, whatever its columns.  Otherwise,
    on a table with no column name twice, a missing brand, quantity or
    status column raises [KeyError] with the name of the first one missing
    in that order, and with the three columns present a table is
    returned. *)
Theorem process_return_data_outcome now df :
  let config := rules_return CONFIG in
  let month := previous_month_of now df (return_date_col config) in
  (empty df = true \/ empty month = true -> process_return_data now df = Ok pd_DataFrame)
  /\ (empty df = false -> empty month = false -> NoDup (columns month) ->
      (has_column (return_brand_col config) month = false ->
       process_return_data now df = Err (KeyError (return_brand_col config)))
      /\ (has_column (return_brand_col config) month = true ->
          has_column (return_qty_col config) month = false ->
          process_return_data now df = Err (KeyError (return_qty_col config)))
      /\ (has_column (return_brand_col config) month = true ->
          has_column (return_qty_col config) month = true ->
          has_column (return_status_col config) month = false ->
          process_return_data now df = Err (KeyError (return_status_col config)))
      /\ (has_column (return_brand_col config) month = true ->
          has_column (return_qty_col config) month = true ->
          has_column (return_status_col config) month = true ->
          exists out, process_return_data now df = Ok out)).
Proof.
  cbv zeta. unfold process_return_data.
  set (config := rules_return CONFIG).
  set (month := previous_month_of now df (return_date_col config)).
  split.
  { intros [H|H].
    - now rewrite H.
    - destruct (empty df); [reflexivity | now rewrite H]. }
  intros He Hm Hnd. rewrite He, Hm.
  unfold return_prepare, exclude_brands, require_column.
  destruct (has_column (return_brand_col config) month) eqn:Hb.
  2: { repeat split; try discriminate. }
  cbn [mbind result_bind mret result_ret].
  set (prepared := select_rows _ (assign (return_brand_col config) _ month)).
  assert (Hcols : columns prepared = columns month).
  { unfold prepared, select_rows, assign. cbn [columns].
    now apply add_column_present, has_column_true_iff. }
  assert (Hhas : forall c, has_column c prepared = has_column c month)
    by (intros c; unfold has_column; now rewrite Hcols).
  destruct (return_classify_outcome config prepared) as (Hq & Hs & Hok).
  split; [discriminate|]. split; [|split].
  - intros _ H. apply Hq. rewrite Hhas. exact H.
  - intros _ H1 H2. apply Hs; rewrite Hhas; assumption.
  - intros _ H1 H2. apply Hok; rewrite ?Hhas, ?Hcols; assumption.
Qed.

(** ** Shape of the return table *)

Lemma label_renumber_from (k : nat) (rs : list Row) :
  map label (imap (fun i r => mkRow (Z.of_nat (k + i)) (fields r)) rs)
  = map Z.of_nat (seq k (length rs)).
Proof.
  revert k. induction rs as [|r rs IH]; intros k; [reflexivity|].
  rewrite imap_cons. cbn [map length seq label]. rewrite Nat.add_0_r. f_equal.
  rewrite <- (IH (S k)). f_equal. apply imap_ext. intros i x _. cbn.
  now rewrite Nat.add_succ_r.
Qed.

Lemma labels_renumber rs :
  map label (renumber rs) = map Z.of_nat (seq 0 (length rs)).
Proof. exact (label_renumber_from 0 rs). Qed.

Lemma length_renumber rs : length (renumber rs) = length rs.
Proof. unfold renumber. apply length_imap. Qed.

Lemma In_union_columns_acc frames : forall acc c,
  In c acc ->
  In c (fold_left (fun acc d => acc ++ List.filter (fun c => negb (Str.mem c acc)) (columns d))
                  frames acc).
Proof.
  induction frames as [|d frames IH]; intros acc c Hc; [exact Hc|].
  cbn [fold_left]. apply IH. apply in_or_app. now left.
Qed.

Lemma concat_shape d0 rest stacked :
  concat (d0 :: rest) = Ok stacked ->
  (forall c, In c (columns d0) -> In c (columns stacked))
  /\ labels stacked = map Z.of_nat (seq 0 (len stacked)).
Proof.
  unfold concat, labels, len.
  destruct (forallb _ (d0 :: rest)).
  { intros H. apply Ok_inj in H. subst stacked. cbn [columns rows].
    split; [auto|]. now rewrite labels_renumber, length_renumber. }
  destruct (forallb _ (d0 :: rest)); [|discriminate].
  intros H. apply Ok_inj in H. subst stacked. cbn [columns rows]. split.
  - intros c Hc. unfold union_columns. cbn [fold_left]. apply In_union_columns_acc.
    cbn [app]. apply filter_In. split; [exact Hc | reflexivity].
  - now rewrite labels_renumber, length_renumber.
Qed.

Lemma len_rename m d : len (rename m d) = len d.
Proof. unfold len, rename. cbn [rows]. apply length_map. Qed.

Lemma len_select_columns names d : len (select_columns names d) = len d.
Proof. unfold len, select_columns. cbn [rows]. apply length_map. Qed.

(** X11: the table of returns is numbered afresh, from zero, whatever the
    labels of the upload were; its columns are all of the canonical nine;
    and unless it is the empty table it has the category, unit and source
    columns, which the classifier itself writes. *)
Theorem return_table_shape now df out :
  process_return_data now df = Ok out ->
  labels out = map Z.of_nat (seq 0 (len out))
  /\ (forall c, In c (columns out) -> In c canonical_col_order)
  /\ (out = pd_DataFrame
      \/ In col_new (columns out) /\ In col_unit_ea (columns out)
         /\ In col_source (columns out)).
Proof.
  unfold process_return_data.
  assert (Hnil : forall out, Ok pd_DataFrame = Ok out ->
            labels out = map Z.of_nat (seq 0 (len out))
            /\ (forall c, In c (columns out) -> In c canonical_col_order)
            /\ (out = pd_DataFrame
                \/ In col_new (columns out) /\ In col_unit_ea (columns out)
                   /\ In col_source (columns out))).
  { intros o H. apply Ok_inj in H. subst o. split; [reflexivity|].
    split; [intros c []|now left]. }
  destruct (empty df); [apply Hnil|].
  destruct (empty (previous_month_of now df _)); [apply Hnil|].
  clear Hnil.
  destruct (return_prepare _ _) as [prepared|]; [|discriminate].
  cbn [mbind result_bind]. unfold return_classify.
  set (config := rules_return CONFIG).
  destruct (require_column (return_qty_col config) prepared); [|discriminate].
  cbn [mbind result_bind].
  set (df1 := assign (return_qty_col config) _ prepared).
  destruct (require_column (return_status_col config) df1); [|discriminate].
  cbn [mbind result_bind].
  set (df_return := assign col_new _ df1).
  destruct (concat _) as [stacked|] eqn:Hcat; [|discriminate].
  cbn [mbind result_bind mret result_ret].
  apply concat_shape in Hcat as [Hcols Hlab].
  set (df_final := assign (return_qty_col config) _ _).
  set (m := canonical_rename_map (return_final_columns config)).
  intros H. apply Ok_inj in H. subst out.
  destruct (renamed_canonical (return_final_columns config)) as (Hn & Hs & Hu).
  fold m in Hn, Hs, Hu.
  assert (Hold : forall k, In k (columns (assign col_unit (fun _ => CNum 1)
                     (assign col_source (fun _ => CStr "삼일 반품데이터") stacked))) ->
                   In (renamed m k) (columns (rename (renamed m) df_final))).
  { intros k Hk. unfold rename. cbn [columns]. apply in_map.
    unfold df_final. now do 3 apply In_columns_assign_old. }
  assert (Hkeep : forall c, In c canonical_col_order ->
                    In c (columns (rename (renamed m) df_final)) ->
                    In c (columns (select_columns
                            (List.filter (fun c => has_column c (rename (renamed m) df_final))
                                         canonical_col_order)
                            (rename (renamed m) df_final)))).
  { intros c Hc Hin. apply In_select_columns. split; [|exact Hin].
    apply filter_In. split; [exact Hc | now apply has_column_true_iff]. }
  split; [|split].
  - rewrite labels_select_columns, labels_rename, len_select_columns, len_rename.
    unfold df_final. rewrite !labels_assign, !len_assign. exact Hlab.
  - intros c Hc. apply In_select_columns in Hc as [Hc _].
    now apply filter_In in Hc as [Hc _].
  - right. repeat split.
    + apply Hkeep; [compute_done|]. rewrite <- Hn. apply Hold.
      do 2 apply In_columns_assign_old. apply Hcols. apply In_columns_assign_new.
    + apply Hkeep; [compute_done|]. rewrite <- Hu. apply Hold.
      apply In_columns_assign_new.
    + apply Hkeep; [compute_done|]. rewrite <- Hs. apply Hold.
      apply In_columns_assign_old, In_columns_assign_new.
Qed.

(** ** The two receiving buckets *)

Lemma receiving_filter_rows df entry out :
  receiving_filter df entry = Ok out ->
  columns out = columns df
  /\ rows out = List.filter (receiving_entry_holds entry) (rows df).
Proof.
  unfold receiving_filter, receiving_entry_holds. destruct entry as [col val].
  destruct (Str.startswith "_" col).
  { intros H. apply Ok_inj in H. subst out. split; [reflexivity|].
    symmetry. now apply filter_all. }
  destruct val as [v|vs].
  - unfold keep_not_equal, require_column. destruct (has_column col df); [|discriminate].
    cbn [mbind result_bind mret result_ret]. intros H. apply Ok_inj in H. now subst out.
  - unfold require_column. destruct (has_column col df); [|discriminate].
    cbn [mbind result_bind mret result_ret]. intros H. apply Ok_inj in H. now subst out.
Qed.

Lemma receiving_filters_loop_rows entries : forall df out,
  receiving_filters_loop entries df = Ok out ->
  columns out = columns df
  /\ rows out
     = List.filter (fun r => forallb (fun e => receiving_entry_holds e r) entries) (rows df).
Proof.
  induction entries as [|e es IH]; intros df out; cbn [receiving_filters_loop forallb].
  - intros H. apply Ok_inj in H. subst out. split; [reflexivity|].
    symmetry. now apply filter_all.
  - destruct (receiving_filter df e) as [d|] eqn:He; [|discriminate].
    cbn [mbind result_bind]. intros H.
    destruct (IH d out H) as [Hc Hr].
    destruct (receiving_filter_rows df e d He) as [Hc' Hr'].
    split; [congruence|]. rewrite Hr, Hr'. apply filter_filter_andb.
Qed.

(** X12: the two receiving buckets are cut from one table, the upload
    after the brand clean-up.  The free bucket holds its rows whose type is
    a free type; the peculiar bucket holds the others that pass every
    configured filter, where a scalar filter drops the rows equal to its
    value.  No row is changed and no row is in both. *)
Theorem receiving_buckets_rows config df peculiar free :
  receiving_buckets config df = Ok (peculiar, free) ->
  let is_free r := str_isin (free_types config) (get (receiving_type_col config) r) in
  let passes r := forallb (fun e => receiving_entry_holds e r) (peculiar_filters config) in
  exists cleaned,
    exclude_brands col_brand df = Ok cleaned
    /\ columns free = columns cleaned
    /\ columns peculiar = columns cleaned
    /\ rows free = List.filter is_free (rows cleaned)
    /\ rows peculiar = List.filter (fun r => negb (is_free r) && passes r) (rows cleaned)
    /\ (forall r, In r (rows free) -> ~ In r (rows peculiar)).
Proof.
  unfold receiving_buckets.
  destruct (exclude_brands col_brand df) as [cleaned|]; [|discriminate].
  cbn [mbind result_bind]. unfold require_column.
  destruct (has_column _ cleaned); [|discriminate].
  cbn [mbind result_bind].
  destruct (receiving_filters_loop _ _) as [p|] eqn:Hloop; [|discriminate].
  cbn [mbind result_bind mret result_ret]. intros H. apply Ok_inj in H.
  injection H as <- <-. cbv zeta.
  apply receiving_filters_loop_rows in Hloop as [Hc Hr].
  cbn [select_rows columns rows] in Hc, Hr. rewrite filter_filter_andb in Hr.
  exists cleaned. repeat split; try assumption; try reflexivity.
  intros r Hf Hp. rewrite Hr in Hp. cbn [select_rows rows] in Hf.
  apply filter_In in Hf as [_ Hf]. apply filter_In in Hp as [_ Hp].
  rewrite Hf in Hp. discriminate.
Qed.

(** ** Outcome of the receiving finalizer *)

Lemma filter_eqb_absent c (l : list string) :
  ~ In c l -> List.filter (String.eqb c) l = [].
Proof.
  intros H. apply filter_none. intros x Hx. apply String.eqb_neq. intros ->. contradiction.
Qed.

Lemma filter_eqb_once c (l : list string) :
  In c l -> NoDup l -> List.filter (String.eqb c) l = [c].
Proof.
  induction l as [|x l IH]; [contradiction|].
  intros Hin Hnd. apply NoDup_cons in Hnd as [Hx Hnd]. cbn [List.filter].
  destruct (String.eqb c x) eqn:Heq.
  - apply String.eqb_eq in Heq. subst x. f_equal. apply filter_eqb_absent.
    intros H. apply Hx. now apply list_elem_of_In.
  - apply String.eqb_neq in Heq. destruct Hin as [->|Hin]; [contradiction|]. now apply IH.
Qed.

Lemma filter_eqb_twice (m : string -> string) c k1 k2 (l : list string) :
  In k1 l -> In k2 l -> k1 <> k2 -> m k1 = c -> m k2 = c ->
  exists x y rest, List.filter (String.eqb c) (map m l) = x :: y :: rest.
Proof.
  intros H1 H2 Hne Hm1 Hm2.
  assert (Hone : forall k l, In k l -> m k = c ->
                   exists x rest, List.filter (String.eqb c) (map m l) = x :: rest).
  { clear. intros k l. induction l as [|x l IH]; [contradiction|].
    intros Hin Hk. cbn [map List.filter]. destruct (String.eqb c (m x)) eqn:Heq; [eauto|].
    destruct Hin as [->|Hin]; [|now apply IH].
    rewrite Hk, String.eqb_refl in Heq. discriminate. }
  induction l as [|x l IH]; [contradiction|].
  cbn [map List.filter]. destruct (String.eqb c (m x)) eqn:Heq.
  - destruct H1 as [->|H1], H2 as [->|H2].
    + contradiction.
    + destruct (Hone k2 l H2 Hm2) as (y & rest & ->). eauto.
    + destruct (Hone k1 l H1 Hm1) as (y & rest & ->). eauto.
    + destruct (Hone k1 l H1 Hm1) as (y & rest & ->). eauto.
  - apply String.eqb_neq in Heq.
    destruct H1 as [->|H1]; [congruence|]. destruct H2 as [->|H2]; [congruence|].
    now apply IH.
Qed.

Lemma filter_category_add_qty (l : list string) :
  List.filter (String.eqb col_category) (add_column col_qty l)
  = List.filter (String.eqb col_category) l.
Proof.
  unfold add_column. destruct (Str.mem col_qty l); [reflexivity|].
  rewrite List.filter_app. cbn. apply app_nil_r.
Qed.

Lemma len_assign_at c f d : len (assign_at c f d) = len d.
Proof. unfold len, assign_at. cbn [rows]. apply length_imap. Qed.

Lemma len_fill_missing cols d : len (fill_missing cols d) = len d.
Proof.
  unfold fill_missing. revert d. induction cols as [|c cols IH]; intros d; [reflexivity|].
  cbn [fold_left]. rewrite IH. destruct (has_column c d); [reflexivity | apply len_assign].
Qed.

Lemma column_values_assign_at c c' f d :
  c <> c' -> column_values c' (assign_at c f d) = column_values c' d.
Proof.
  intros Hne. unfold column_values, assign_at. cbn [rows]. revert f.
  induction (rows d) as [|r l IH]; intros f; [reflexivity|].
  rewrite imap_cons. cbn [map]. rewrite get_set_other by exact Hne. f_equal.
  apply (IH (f ∘ S)).
Qed.

(** X13: what finalizing a bucket with rows and no column name twice
    answers.  The quantity column of the configuration must be there, or
    it is a [KeyError] with its name.  The peculiar bucket then always
    gives a table.  The free bucket needs one column that ends up named
    as the original category: with none it is a [KeyError], and with two
    source columns renamed to it an [AttributeError]; with exactly one,
    it is an [AttributeError] again when pandas does not accept the
    cells of that column for text, and a table when it does.  A table
    given has one row for each row of the bucket. *)
Theorem receiving_finalize_outcome config d cols_map is_free :
  let qty := receiving_qty_col config in
  let m := renamed (receiving_rename_map qty cols_map) in
  let cols := add_column col_unit (add_column col_source (columns d)) in
  let category :=
    column_values col_category
      (rename m (assign col_unit (fun _ => CNum 1)
                   (assign col_source (fun _ => CStr "삼일 입고데이터") d))) in
  let run := receiving_finalize config d cols_map is_free in
  empty d = false ->
  NoDup (columns d) ->
  (~ In qty cols -> run = Err (KeyError qty))
  /\ (In qty cols -> is_free = false -> exists out, run = Ok out /\ len out = len d)
  /\ (In qty cols -> is_free = true ->
      ((forall k, In k cols -> m k <> col_category) -> run = Err (KeyError col_category))
      /\ (forall k1 k2, In k1 cols -> In k2 cols -> k1 <> k2 ->
                        m k1 = col_category -> m k2 = col_category ->
                        run = Err AttributeError)
      /\ (In col_category (map m cols) -> NoDup (map m cols) ->
          (can_use_str category = false -> run = Err AttributeError)
          /\ (can_use_str category = true ->
              exists out, run = Ok out /\ len out = len d))).
Proof.
  cbv zeta. intros Hemp _. unfold receiving_finalize. rewrite Hemp.
  set (qty := receiving_qty_col config).
  set (m := renamed (receiving_rename_map qty cols_map)).
  set (d2 := assign col_unit _ (assign col_source _ d)).
  set (cols := add_column col_unit (add_column col_source (columns d))).
  assert (Hlen2 : len d2 = len d) by (unfold d2; now rewrite !len_assign).
  unfold require_column.
  destruct (has_column qty d2) eqn:Hq.
  2: { split; [reflexivity|]. apply mem_false_iff in Hq.
       split; intros Hin; contradiction. }
  apply has_column_true_iff in Hq.
  cbn [mbind result_bind]. split; [intros H; contradiction|].
  split.
  - intros _ ->. cbn [mbind result_bind mret result_ret]. eexists. split; [reflexivity|].
    now rewrite len_select_columns, len_fill_missing, !len_assign, len_assign_at, len_rename.
  - intros _ ->. unfold require_single_column.
    change (columns (assign_at col_qty _ (rename m d2)))
      with (add_column col_qty (map m cols)).
    rewrite filter_category_add_qty.
    split; [|split].
    + intros Hnone. rewrite filter_eqb_absent; [reflexivity|].
      intros Hin. apply in_map_iff in Hin as (k & Hk & Hin). exact (Hnone k Hin Hk).
    + intros k1 k2 H1 H2 Hne Hm1 Hm2.
      destruct (filter_eqb_twice m col_category k1 k2 cols H1 H2 Hne Hm1 Hm2)
        as (x & y & rest & ->). reflexivity.
    + intros Hin Hnd. rewrite filter_eqb_once by assumption.
      cbn [mbind result_bind]. unfold require_str_accessor.
      rewrite column_values_assign_at by (now apply String.eqb_neq).
      split; intros ->; cbn [mbind result_bind mret result_ret]; [reflexivity|].
      eexists. split; [reflexivity|].
      now rewrite len_select_columns, len_fill_missing, !len_assign, len_assign_at,
        len_rename.
Qed.

(** ** Shape of the receiving tables *)

Lemma well_formed_receiving_filters_loop entries df out :
  well_formed df -> receiving_filters_loop entries df = Ok out -> well_formed out.
Proof.
  intros Hwf H. apply receiving_filters_loop_rows in H as [Hc Hr].
  unfold well_formed in *. rewrite Hc, Hr. rewrite List.Forall_forall in *.
  intros r Hin. apply Hwf. now apply filter_In in Hin.
Qed.

Lemma well_formed_receiving_buckets config df peculiar free :
  well_formed df -> receiving_buckets config df = Ok (peculiar, free) ->
  well_formed peculiar /\ well_formed free.
Proof.
  intros Hwf. unfold receiving_buckets.
  destruct (exclude_brands col_brand df) as [cleaned|] eqn:Hb; [|discriminate].
  apply (well_formed_exclude_brands _ _ _ Hwf) in Hb.
  cbn [mbind result_bind]. destruct (require_column _ cleaned); [|discriminate].
  cbn [mbind result_bind].
  destruct (receiving_filters_loop _ _) as [p|] eqn:Hloop; [|discriminate].
  cbn [mbind result_bind mret result_ret]. intros H. apply Ok_inj in H.
  injection H as <- <-. split.
  - eapply well_formed_receiving_filters_loop; [|exact Hloop].
    now apply well_formed_select_rows.
  - now apply well_formed_select_rows.
Qed.

Lemma columns_receiving_buckets_eq config df peculiar free :
  receiving_buckets config df = Ok (peculiar, free) ->
  columns peculiar = columns df /\ columns free = columns df.
Proof.
  unfold receiving_buckets.
  destruct (exclude_brands col_brand df) as [cleaned|] eqn:Hb; [|discriminate].
  apply columns_exclude_brands in Hb.
  cbn [mbind result_bind]. destruct (require_column _ cleaned); [|discriminate].
  cbn [mbind result_bind].
  destruct (receiving_filters_loop _ _) as [p|] eqn:Hloop; [|discriminate].
  cbn [mbind result_bind mret result_ret]. intros H. apply Ok_inj in H.
  injection H as <- <-.
  apply receiving_filters_loop_rows in Hloop as [Hc _].
  cbn [select_rows columns] in Hc |- *. rewrite Hc. auto.
Qed.

Lemma receiving_finalize_shape config d cols_map is_free out :
  receiving_finalize config d cols_map is_free = Ok out ->
  (well_formed d -> well_formed out)
  /\ (out = pd_DataFrame \/ forall c, In c (columns out) <-> In c receiving_final_cols)
  /\ Forall (fun r => get col_unit_ea r = CNum 1) (rows out)
  /\ (forall c, In c receiving_final_cols -> ~ In c [col_qty; col_new; col_unit_ea] ->
        (forall k, In k (columns d) \/ In k [col_source; col_unit] ->
                   renamed (receiving_rename_map (receiving_qty_col config) cols_map) k <> c) ->
        Forall (fun r => get c r = CNull) (rows out)).
Proof.
clear re_compile.
  unfold receiving_finalize. destruct (empty d).
  { intros H. apply Ok_inj in H. subst out.
    split; [intros _; apply well_formed_empty_frame|]. split; [now left|].
    split; [constructor | intros; constructor]. }
  destruct (require_column _ _); [|discriminate]. cbn [mbind result_bind].
  set (d2 := assign col_unit _ (assign col_source _ d)).
  set (renamed_d := rename _ d2).
  assert (Hwf2 : well_formed d -> well_formed renamed_d).
  { intros H. apply well_formed_rename. unfold d2. now do 2 apply well_formed_assign. }
  assert (Habsent : forall c,
            (forall k, In k (columns d) \/ In k [col_source; col_unit] ->
               renamed (receiving_rename_map (receiving_qty_col config) cols_map) k <> c) ->
            ~ In c (columns renamed_d)).
  { intros c Hnone Hin. unfold renamed_d, rename, d2 in Hin. cbn [columns assign] in Hin.
    apply in_map_iff in Hin as (k & Hk & Hin). revert Hk. apply Hnone.
    rewrite !In_add_column_iff in Hin. cbn [In].
    destruct Hin as [->|[->|Hin]]; auto. }
  assert (Hshape : forall t, (well_formed d -> well_formed t) ->
            let out := select_columns receiving_final_cols
                         (fill_missing receiving_final_cols
                            (assign col_unit_ea (fun _ => CNum 1) t)) in
            (well_formed d -> well_formed out)
            /\ (out = pd_DataFrame
                \/ forall c, In c (columns out) <-> In c receiving_final_cols)
            /\ Forall (fun r => get col_unit_ea r = CNum 1) (rows out)
            /\ (forall c, In c receiving_final_cols -> c <> col_unit_ea ->
                   ~ In c (columns t) ->
                   Forall (fun r => get c r = CNull) (rows out))).
  { intros t Ht. cbv zeta. split; [|split; [|split]].
    - intros H. apply well_formed_select_columns, well_formed_fill_missing,
        well_formed_assign, Ht, H.
    - right. intros c. rewrite In_select_columns. split; [now intros [H _]|].
      intros H. split; [exact H | now apply columns_fill_missing_all].
    - rewrite List.Forall_forall. intros r Hr. cbn [select_columns rows] in Hr.
      apply in_map_iff in Hr as (r1 & <- & Hr1).
      rewrite get_picked by compute_done.
      destruct (rows_fill_missing receiving_final_cols
                  (assign col_unit_ea (fun _ => CNum 1) t)) as (missing & Hmiss & _ & Hrows).
      rewrite Hrows in Hr1. apply in_map_iff in Hr1 as (r2 & <- & Hr2).
      rewrite get_fill_row.
      + cbn [assign rows] in Hr2. apply in_map_iff in Hr2 as (r3 & <- & _).
        apply get_set_same.
      + intros Hin. apply (Hmiss _ Hin). apply In_columns_assign_new.
    - intros c Hc Hne Hnot. apply select_columns_blank; [exact Hc|].
      apply fill_missing_blank; [exact Hc|].
      apply mem_false_iff. cbn [assign columns]. rewrite In_add_column_iff.
      intros [->|H]; [now apply Hne | now apply Hnot]. }
  assert (Hfinish : forall t,
            (well_formed d -> well_formed t) ->
            (forall c, In c (columns t) ->
                       c = col_new \/ c = col_qty \/ In c (columns renamed_d)) ->
            Ok (select_columns receiving_final_cols
                  (fill_missing receiving_final_cols
                     (assign col_unit_ea (fun _ => CNum 1) t))) = Ok out ->
            (well_formed d -> well_formed out)
            /\ (out = pd_DataFrame
                \/ forall c, In c (columns out) <-> In c receiving_final_cols)
            /\ Forall (fun r => get col_unit_ea r = CNum 1) (rows out)
            /\ (forall c, In c receiving_final_cols ->
                   ~ In c [col_qty; col_new; col_unit_ea] ->
                   (forall k, In k (columns d) \/ In k [col_source; col_unit] ->
                      renamed (receiving_rename_map (receiving_qty_col config) cols_map) k
                      <> c) ->
                   Forall (fun r => get c r = CNull) (rows out))).
  { intros t Ht Hcols H. apply Ok_inj in H. subst out.
    destruct (Hshape t Ht) as (H1 & H2 & H3 & H4).
    split; [exact H1|]. split; [exact H2|]. split; [exact H3|].
    intros c Hc Hnot Hnone. apply H4; [exact Hc | |].
    - intros ->. apply Hnot. cbn [In]. auto.
    - intros Hin. apply Hcols in Hin as [->|[->|Hin]].
      + apply Hnot. cbn [In]. auto.
      + apply Hnot. cbn [In]. auto.
      + exact (Habsent c Hnone Hin). }
  assert (Hcols_t : forall f g c,
            In c (columns (assign col_new f (assign_at col_qty g renamed_d))) ->
            c = col_new \/ c = col_qty \/ In c (columns renamed_d)).
  { intros f g c Hin. cbn [assign assign_at columns] in Hin.
    rewrite !In_add_column_iff in Hin. tauto. }
  destruct is_free.
  - destruct (require_single_column _ _); [|discriminate]. cbn [mbind result_bind].
    destruct (require_str_accessor _); [|discriminate].
    cbn [mbind result_bind mret result_ret]. apply Hfinish; [|apply Hcols_t].
    intros Hwf. now apply well_formed_assign, well_formed_assign_at, Hwf2.
  - cbn [mbind result_bind mret result_ret]. apply Hfinish; [|apply Hcols_t].
    intros Hwf. now apply well_formed_assign, well_formed_assign_at, Hwf2.
Qed.

(** X14: each of the two tables the receiving classifier returns is
    either the empty table or has exactly the twelve final columns; the
    unit cell of every row is 1; a final column that neither the upload
    provides under the column map nor the classifier writes is there all
    the same, with a blank cell in every row; and every row has a cell
    for each column when the upload has. *)
Theorem receiving_tables_shape now df peculiar free :
  process_receiving_data now df = Ok (peculiar, free) ->
  let config := rules_receiving CONFIG in
  let shaped (cols_map : list (string * string)) (t : DataFrame) :=
    (well_formed df -> well_formed t)
    /\ (t = pd_DataFrame \/ forall c, In c (columns t) <-> In c receiving_final_cols)
    /\ Forall (fun r => get col_unit_ea r = CNum 1) (rows t)
    /\ (forall c, In c receiving_final_cols -> ~ In c [col_qty; col_new; col_unit_ea] ->
          (forall k, In k (columns df) \/ In k [col_source; col_unit] ->
                     renamed (receiving_rename_map (receiving_qty_col config) cols_map) k
                     <> c) ->
          Forall (fun r => get c r = CNull) (rows t)) in
  shaped (final_columns_peculiar config) peculiar
  /\ shaped (final_columns_free config) free.
Proof.
  cbv zeta. unfold process_receiving_data.
  assert (Hempty : forall cols_map,
            (well_formed df -> well_formed pd_DataFrame)
            /\ (pd_DataFrame = pd_DataFrame
                \/ forall c, In c (columns pd_DataFrame) <-> In c receiving_final_cols)
            /\ Forall (fun r => get col_unit_ea r = CNum 1) (rows pd_DataFrame)
            /\ (forall c, In c receiving_final_cols ->
                   ~ In c [col_qty; col_new; col_unit_ea] ->
                   (forall k, In k (columns df) \/ In k [col_source; col_unit] ->
                      renamed (receiving_rename_map
                                 (receiving_qty_col (rules_receiving CONFIG)) cols_map) k
                      <> c) ->
                   Forall (fun r => get c r = CNull) (rows pd_DataFrame))).
  { intros cols_map. split; [intros _; apply well_formed_empty_frame|].
    split; [now left|]. split; [constructor | intros; constructor]. }
  destruct (empty df).
  { intros H. apply Ok_inj in H. injection H as <- <-. auto. }
  rewrite previous_month_of_value.
  destruct (empty (previous_month_value now df _)).
  { intros H. apply Ok_inj in H. injection H as <- <-. auto. }
  clear Hempty.
  destruct (receiving_buckets _ _) as [[bp bf]|] eqn:Hb; [|discriminate].
  cbn [mbind result_bind].
  destruct (receiving_finalize _ bp _ false) as [p|] eqn:Hp; [|discriminate].
  cbn [mbind result_bind].
  destruct (receiving_finalize _ bf _ true) as [f|] eqn:Hf; [|discriminate].
  cbn [mbind result_bind mret result_ret]. intros H. apply Ok_inj in H.
  injection H as <- <-.
  apply receiving_finalize_shape in Hp as (Hp1 & Hp2 & Hp3 & Hp4).
  apply receiving_finalize_shape in Hf as (Hf1 & Hf2 & Hf3 & Hf4).
  assert (Hwf : well_formed df -> well_formed bp /\ well_formed bf).
  { intros H. eapply well_formed_receiving_buckets; [|exact Hb].
    now apply well_formed_previous_month_value. }
  destruct (columns_receiving_buckets_eq _ _ _ _ Hb) as [Hcp Hcf].
  assert (Hsub : forall k, In k (columns (previous_month_value now df
                                 (receiving_date_col (rules_receiving CONFIG)))) ->
                           In k (columns df))
    by (intros k; apply incl_columns_previous_month_value).
  split; (split; [|split; [|split]]); try assumption.
  - intros H. apply Hp1, Hwf, H.
  - intros c Hc Hnot Hnone. apply Hp4; [exact Hc | exact Hnot|].
    intros k [Hk|Hk]; apply Hnone; [left | now right].
    apply Hsub. now rewrite <- Hcp.
  - intros H. apply Hf1, Hwf, H.
  - intros c Hc Hnot Hnone. apply Hf4; [exact Hc | exact Hnot|].
    intros k [Hk|Hk]; apply Hnone; [left | now right].
    apply Hsub. now rewrite <- Hcf.
Qed.

(** ** Sorting the uploads *)

(** X15: the uploads are sorted by the first marker column they have, in
    the order shipping, return, receiving: a file with the shipping marker
    is a shipping file whatever else it has, and so on.  Each domain keeps
    its files in upload order, no file goes to two domains, and the files
    left out are those with no marker at all. *)
Theorem sort_uploads_by_first_marker uploaded_files :
  let ids := file_identifiers CONFIG in
  let is_shipping d := has_column (id_shipping ids) d in
  let is_return d := negb (has_column (id_shipping ids) d) && has_column (id_return ids) d in
  let is_receiving d :=
    negb (has_column (id_shipping ids) d) && negb (has_column (id_return ids) d)
    && has_column (id_receiving ids) d in
  let unknown d :=
    negb (has_column (id_shipping ids) d) && negb (has_column (id_return ids) d)
    && negb (has_column (id_receiving ids) d) in
  sort_uploads uploaded_files
  = (List.filter is_shipping uploaded_files,
     List.filter is_return uploaded_files,
     List.filter is_receiving uploaded_files)
  /\ (length (sort_uploads uploaded_files).1.1 + length (sort_uploads uploaded_files).1.2
      + length (sort_uploads uploaded_files).2
      + length (List.filter unknown uploaded_files))%nat
     = length uploaded_files.
Proof.
  cbv zeta. induction uploaded_files as [|d files [IH IHlen]].
  { split; reflexivity. }
  cbn [sort_uploads List.filter]. rewrite IH in IHlen |- *. cbn [fst snd] in IHlen.
  destruct (has_column (id_shipping (file_identifiers CONFIG)) d);
    [cbn [negb andb fst snd length]; split; [reflexivity | lia]|].
  destruct (has_column (id_return (file_identifiers CONFIG)) d);
    [cbn [negb andb fst snd length]; split; [reflexivity | lia]|].
  destruct (has_column (id_receiving (file_identifiers CONFIG)) d);
    cbn [negb andb fst snd length]; (split; [reflexivity | lia]).
Qed.

(** ** Dates in the workbook *)

Lemma length_append_string (s t : string) :
  String.length (s ++ t) = (String.length s + String.length t)%nat.
Proof. induction s as [|a s IH]; [reflexivity|]. simpl. f_equal. exact IH. Qed.

Lemma length_strftime t : String.length (strftime t) = 10%nat.
Proof. unfold strftime, two_digits. now rewrite !length_append_string. Qed.

Lemma format_date_columns_rows df out :
  format_date_columns df = Ok out ->
  columns out = columns df
  /\ Forall2 (fun r r' =>
                label r' = label r
                /\ (forall c, c <> col_date -> get c r' = get c r)
                /\ (has_column col_date df = true ->
                    get col_date r' = CNull
                    \/ exists s, get col_date r' = CStr s /\ String.length s = 10%nat))
             (rows df) (rows out).
Proof.
  unfold format_date_columns. destruct (has_column col_date df) eqn:Hc.
  2: { intros H. apply Ok_inj in H. subst out. split; [reflexivity|].
       rewrite <- (map_id (rows df)) at 2. apply Forall2_map_self.
       intros r _. repeat split. discriminate. }
  destruct (List.filter _ _) as [|x [|y l]]; try discriminate.
  cbn [mret result_ret]. intros H. apply Ok_inj in H. subst out.
  unfold assign_at. cbn [columns rows]. split.
  { now apply add_column_present, has_column_true_iff. }
  apply Forall2_indexed. intros i r _. split; [reflexivity|]. split.
  - intros c Hne. apply get_set_other. congruence.
  - intros _. rewrite get_set_same.
    destruct (to_datetime _ i) as [t|]; [right | now left].
    eexists. split; [reflexivity | apply length_strftime].
Qed.

(** X17: formatting the dates of a table before it is written keeps its
    columns, its rows and their order, and every cell outside the date
    column.  A date cell becomes a text of ten characters, or blank. *)
Theorem format_date_columns_effect df out :
  format_date_columns df = Ok out ->
  columns out = columns df
  /\ len out = len df
  /\ Forall2 (fun r r' =>
                label r' = label r
                /\ (forall c, c <> col_date -> get c r' = get c r)
                /\ (has_column col_date df = true ->
                    get col_date r' = CNull
                    \/ exists s, get col_date r' = CStr s /\ String.length s = 10%nat))
             (rows df) (rows out).
Proof.
  intros H. apply format_date_columns_rows in H as [Hc Hr].
  split; [exact Hc|]. split; [|exact Hr].
  unfold len. symmetry. eapply Forall2_length, Hr.
Qed.

(** ** Sheets of the workbook *)

Lemma write_sheet_shape name df sheets :
  write_sheet name df = Ok sheets ->
  sheets = [] \/ exists d, sheets = [(name, d)] /\ empty d = false /\ len d = len df.
Proof.
  unfold write_sheet. destruct (empty df) eqn:He; cbn [negb].
  { intros H. apply Ok_inj in H. now left. }
  destruct (format_date_columns df) as [d|] eqn:Hf; [|discriminate].
  cbn [mbind result_bind mret result_ret]. intros H. apply Ok_inj in H. subst sheets.
  right. exists d. split; [reflexivity|].
  apply format_date_columns_rows in Hf as [Hc Hr].
  assert (Hlen : len d = len df) by (unfold len; symmetry; eapply Forall2_length, Hr).
  split; [|exact Hlen].
  destruct (empty d) eqn:Hd; [|reflexivity].
  apply empty_true_iff in Hd.
  assert (He' : empty df = true); [|congruence].
  apply empty_true_iff. destruct Hd as [Hd|Hd]; [left; congruence|right].
  unfold len in Hlen. rewrite Hd in Hlen. destruct (rows df); [reflexivity|discriminate].
Qed.

Lemma assemble_sheets now df_shipping df_return df_receiving workbook :
  assemble now df_shipping df_return df_receiving = Ok workbook ->
  sublist (map fst workbook)
          ["정산요약"; "매출처 이상"; "출고타입 이상"; "입고 특이사항"; "무상 정상 입고";
           sheet_validation]
  /\ Forall (fun s => empty (snd s) = false) workbook.
Proof.
  unfold assemble.
  destruct (process_shipping_data now df_shipping) as [[[main ta] sa]|]; [|discriminate].
  cbn [mbind result_bind].
  destruct (process_return_data now df_return) as [ret|]; [|discriminate].
  cbn [mbind result_bind].
  destruct (process_receiving_data now df_receiving) as [[pec free]|]; [|discriminate].
  cbn [mbind result_bind].
  destruct (concat [main; ret]) as [summary|]; [|discriminate].
  cbn [mbind result_bind].
  destruct (write_sheet _ summary) as [s1|] eqn:H1; [|discriminate]. cbn [mbind result_bind].
  destruct (write_sheet _ sa) as [s2|] eqn:H2; [|discriminate]. cbn [mbind result_bind].
  destruct (write_sheet _ ta) as [s3|] eqn:H3; [|discriminate]. cbn [mbind result_bind].
  destruct (write_sheet _ pec) as [s4|] eqn:H4; [|discriminate]. cbn [mbind result_bind].
  destruct (write_sheet _ free) as [s5|] eqn:H5; [|discriminate].
  cbn [mbind result_bind mret result_ret]. intros H. apply Ok_inj in H. subst workbook.
  apply write_sheet_shape in H1, H2, H3, H4, H5.
  split.
  - destruct H1 as [->|(d1 & -> & _)], H2 as [->|(d2 & -> & _)], H3 as [->|(d3 & -> & _)],
      H4 as [->|(d4 & -> & _)], H5 as [->|(d5 & -> & _)];
      cbn [app map fst];
      repeat first [apply sublist_nil | apply sublist_skip | apply sublist_cons].
  - repeat apply Forall_app_2.
    all: try match goal with
             | H : ?s = [] \/ _ |- Forall _ ?s =>
                 destruct H as [->|(d & -> & He & _)]; [constructor|];
                 now repeat constructor
             end.
    now repeat constructor.
Qed.

(** X16: in the workbook of a successful run the sheets come in one fixed
    order, each name at most once: summary, mall anomalies, type
    anomalies, peculiar receipts, free receipts, validation.  A sheet is
    left out rather than written empty. *)
Theorem workbook_sheet_order now uploaded_files workbook :
  run_batch now uploaded_files = Ok workbook ->
  sublist (map fst workbook)
          ["정산요약"; "매출처 이상"; "출고타입 이상"; "입고 특이사항"; "무상 정상 입고";
           sheet_validation]
  /\ NoDup (map fst workbook)
  /\ Forall (fun s => empty (snd s) = false) workbook.
Proof.
  unfold run_batch. destruct (sort_uploads uploaded_files) as [[sp rp] cp].
  destruct (concat_parts sp) as [df_shipping|]; [|discriminate]. cbn [mbind result_bind].
  destruct (concat_parts rp) as [df_return|]; [|discriminate]. cbn [mbind result_bind].
  destruct (concat_parts cp) as [df_receiving|]; [|discriminate]. cbn [mbind result_bind].
  intros H. apply assemble_sheets in H as [Hsub Hne].
  split; [exact Hsub|]. split; [|exact Hne].
  eapply sublist_NoDup; [|exact Hsub]. compute_done.
Qed.

(** ** The summary sheet *)

Lemma get_reindex_row cols c r : In c cols -> get c (reindex_row cols r) = get c r.
Proof.
  intros Hin. unfold reindex_row, get at 1. cbn [fields].
  induction cols as [|k cols IH]; [contradiction|].
  cbn [map lookup_field]. destruct (String.eqb k c) eqn:Hk.
  - apply String.eqb_eq in Hk. now subst.
  - apply String.eqb_neq in Hk. destruct Hin as [->|Hin]; [contradiction | now apply IH].
Qed.

Lemma concat_two_rows a b stacked :
  concat [a; b] = Ok stacked ->
  labels stacked = map Z.of_nat (seq 0 (len a + len b))
  /\ Forall2 (fun src r => forall c, In c (columns stacked) -> get c r = get c src)
             (rows a ++ rows b) (rows stacked).
Proof.
  unfold concat, labels, len.
  destruct (forallb _ [a; b]).
  { intros H. apply Ok_inj in H. subst stacked. cbn [columns rows flat_map].
    rewrite app_nil_r. split.
    - now rewrite labels_renumber, length_app.
    - apply Forall2_indexed. intros i r _ c _. reflexivity. }
  destruct (forallb _ [a; b]); [|discriminate].
  intros H. apply Ok_inj in H. subst stacked. cbn [columns rows flat_map].
  rewrite app_nil_r, <- map_app. split.
  - now rewrite labels_renumber, length_map, length_app.
  - apply Forall2_imap_map. intros i r _ c Hc. unfold get at 1. cbn [fields].
    now apply get_reindex_row.
Qed.

Lemma write_sheet_rows name df sheets name' d :
  write_sheet name df = Ok sheets -> In (name', d) sheets ->
  name' = name
  /\ columns d = columns df
  /\ labels d = labels df
  /\ Forall2 (fun r r' => forall c, c <> col_date -> get c r' = get c r) (rows df) (rows d).
Proof.
  unfold write_sheet. destruct (negb (empty df)).
  2: { intros H. apply Ok_inj in H. subst sheets. contradiction. }
  destruct (format_date_columns df) as [d0|] eqn:Hf; [|discriminate].
  cbn [mbind result_bind mret result_ret]. intros H. apply Ok_inj in H. subst sheets.
  intros [Heq|[]]. injection Heq as <- <-.
  apply format_date_columns_rows in Hf as [Hc Hr].
  split; [reflexivity|]. split; [exact Hc|]. split.
  - unfold labels. clear Hc. induction Hr as [|r r' rs rs' (Hl & _) _ IH]; [reflexivity|].
    cbn [map]. now rewrite Hl, IH.
  - eapply Forall2_impl; [exact Hr|]. intros r r' (_ & H & _). exact H.
Qed.

(** X18: the summary sheet, when it is written, lists the rows of the
    main shipping table and then the rows of the return table, one sheet
    row for each, numbered from zero; under every column of the sheet but
    the date a sheet row has the cell of the row it lists.  With no main
    shipment and no return there is no summary sheet. *)
Theorem summary_sheet_rows now df_shipping df_return df_receiving workbook :
  assemble now df_shipping df_return df_receiving = Ok workbook ->
  exists main type_abnormal store_abnormal main_return,
    process_shipping_data now df_shipping = Ok (main, type_abnormal, store_abnormal)
    /\ process_return_data now df_return = Ok main_return
    /\ ((len main + len main_return = 0)%nat -> ~ In "정산요약" (map fst workbook))
    /\ forall summary,
         In ("정산요약", summary) workbook ->
         labels summary = map Z.of_nat (seq 0 (len main + len main_return))
         /\ Forall2 (fun src r => forall c, In c (columns summary) -> c <> col_date ->
                                            get c r = get c src)
                    (rows main ++ rows main_return) (rows summary).
Proof.
  unfold assemble.
  destruct (process_shipping_data now df_shipping) as [[[main ta] sa]|]; [|discriminate].
  cbn [mbind result_bind].
  destruct (process_return_data now df_return) as [ret|]; [|discriminate].
  cbn [mbind result_bind].
  destruct (process_receiving_data now df_receiving) as [[pec free]|]; [|discriminate].
  cbn [mbind result_bind].
  destruct (concat [main; ret]) as [stacked|] eqn:Hcat; [|discriminate].
  cbn [mbind result_bind].
  destruct (write_sheet _ stacked) as [s1|] eqn:H1; [|discriminate]. cbn [mbind result_bind].
  destruct (write_sheet _ sa) as [s2|] eqn:H2; [|discriminate]. cbn [mbind result_bind].
  destruct (write_sheet _ ta) as [s3|] eqn:H3; [|discriminate]. cbn [mbind result_bind].
  destruct (write_sheet _ pec) as [s4|] eqn:H4; [|discriminate]. cbn [mbind result_bind].
  destruct (write_sheet _ free) as [s5|] eqn:H5; [|discriminate].
  cbn [mbind result_bind mret result_ret]. intros H. apply Ok_inj in H. subst workbook.
  exists main, ta, sa, ret. split; [reflexivity|]. split; [reflexivity|].
  apply concat_two_rows in Hcat as [Hlab Hrows].
  assert (Hfrom : forall d, In ("정산요약", d)
                              (s1 ++ s2 ++ s3 ++ s4 ++ s5
                               ++ [(sheet_validation,
                                    validation_frame (len main) (len ta) (len sa))]) ->
                            In ("정산요약", d) s1).
  { intros d Hin. rewrite !in_app_iff in Hin.
    destruct Hin as [Hin|[Hin|[Hin|[Hin|[Hin|[Hin|[]]]]]]]; [exact Hin|..].
    - now destruct (write_sheet_rows _ _ _ _ _ H2 Hin).
    - now destruct (write_sheet_rows _ _ _ _ _ H3 Hin).
    - now destruct (write_sheet_rows _ _ _ _ _ H4 Hin).
    - now destruct (write_sheet_rows _ _ _ _ _ H5 Hin).
    - discriminate. }
  split.
  - intros Hzero Hin. apply in_map_iff in Hin as ([n d] & Hn & Hin). cbn [fst] in Hn.
    subst n. apply Hfrom in Hin.
    destruct (write_sheet_rows _ _ _ _ _ H1 Hin) as (_ & _ & Hl & _).
    revert H1 Hin. unfold write_sheet.
    assert (He : empty stacked = true).
    { apply empty_true_iff. right. rewrite Hzero in Hlab. unfold labels in Hlab.
      destruct (rows stacked); [reflexivity | discriminate]. }
    rewrite He. cbn [negb]. intros H. apply Ok_inj in H. subst s1. contradiction.
  - intros summary Hin. apply Hfrom in Hin.
    destruct (write_sheet_rows _ _ _ _ _ H1 Hin) as (_ & Hc & Hl & Hr).
    split; [now rewrite Hl|].
    eapply Forall2_trans; [|exact Hrows|exact Hr].
    intros src r r' Hsrc Hfmt c Hin' Hne. rewrite Hfmt by exact Hne.
    apply Hsrc. now rewrite <- Hc.
Qed.

(** ** Outcome of the shipping classification *)

(** X19: what the shipping classification answers on a table with no
    column name twice, rows or no rows.  A missing mall column raises
    [KeyError], then a missing courier column does; with both there,
    keywords that do not compile as a regular expression raise
    [re.error]; with keywords that compile, a configuration with no
    normal type raises [IndexError]; otherwise, on a table that has the
    brand column too, three tables are returned. *)
Theorem shipping_classify_outcome config df :
  let pattern := Str.join "|" (normal_mall_keywords (type_conditions config)) in
  NoDup (columns df) ->
  (has_column col_mall df = false ->
   shipping_classify config df = Err (KeyError col_mall))
  /\ (has_column col_mall df = true -> has_column col_type df = false ->
      shipping_classify config df = Err (KeyError col_type))
  /\ (has_column col_mall df = true -> has_column col_type df = true ->
      (re_compile pattern = None -> shipping_classify config df = Err ReError)
      /\ (forall search, re_compile pattern = Some search ->
            (normal_type (type_conditions config) = [] ->
             shipping_classify config df = Err IndexError)
            /\ (normal_type (type_conditions config) <> [] ->
                has_column col_brand df = true ->
                exists out, shipping_classify config df = Ok out))).
Proof.
  cbv zeta. intros _. unfold shipping_classify, require_column.
  destruct (has_column col_mall df) eqn:Hm.
  2: { repeat split; try discriminate. }
  cbn [mbind result_bind].
  set (df1 := assign col_mall _ df).
  assert (Ht : has_column col_type df1 = has_column col_type df).
  { unfold has_column, df1, assign. cbn [columns].
    now rewrite add_column_present by now apply has_column_true_iff. }
  rewrite Ht. destruct (has_column col_type df).
  2: { repeat split; try discriminate. }
  cbn [mbind result_bind]. split; [discriminate|]. split; [discriminate|].
  intros _ _. unfold type_normal_mask. split.
  - intros ->. reflexivity.
  - intros search ->.
    destruct (normal_type (type_conditions config)) as [|first_type rest].
    + split; [reflexivity | congruence].
    + split; [discriminate|]. intros _ _. cbn [mbind result_bind mret result_ret]. eauto.
Qed.

End Engine.

(** * The statements on the sample installation *)

(** C5: the filter is not pure on a table of one row.  The caller's table
    is the one the date column is parsed in and the undated rows are
    dropped from: an export holding only its summary row is left without
    any row, and the date of a single dated row is turned from text into a
    timestamp. *)
Theorem filter_by_previous_month_mutates_single_row_table :
  let call d :=
    content (snd (run (filter_by_previous_month Sample.to_datetime Sample.now 0%nat "[입고일자]")
                      {[ 0%nat := d ]})) 0%nat in
  call Sample.summary_only = mkDataFrame ["[입고일자]"; "[수량]"] []
  /\ call Sample.summary_only <> Sample.summary_only
  /\ get "[입고일자]" <$> rows Sample.one_receipt = [CStr "2024-02-02"]
  /\ get "[입고일자]" <$> rows (call Sample.one_receipt) = [CDate (mkTimestamp 2024 2 2)]
  /\ call Sample.one_receipt <> Sample.one_receipt.
Proof.
  cbv zeta. repeat split; try (vm_compute; reflexivity); vm_compute; discriminate.
Qed.



(** The February shipments of the sample upload: five rows are classified,
    three into the main table and one into each anomaly table. *)
Lemma shipping_tables_partition_witness :
  exists main type_abnormal store_abnormal,
    process_shipping_data Sample.config Sample.to_datetime Sample.str_of_value Sample.re_compile
                          Sample.now Sample.shipping_upload
    = Ok (main, type_abnormal, store_abnormal)
    /\ exists input,
        shipping_filtered_input Sample.config Sample.to_datetime Sample.str_of_value
                                Sample.now Sample.shipping_upload = Ok input
        /\ (len main + len type_abnormal + len store_abnormal)%nat = len input
        /\ Permutation (labels main ++ labels type_abnormal ++ labels store_abnormal)
                       (labels input)
        /\ (NoDup (labels Sample.shipping_upload) ->
            forall x,
              ~ (In x (labels main) /\ In x (labels type_abnormal))
              /\ ~ (In x (labels main) /\ In x (labels store_abnormal))
              /\ ~ (In x (labels type_abnormal) /\ In x (labels store_abnormal))).
Proof.
  eexists _, _, _. split; [reflexivity|].
  apply (shipping_tables_partition Sample.config Sample.to_datetime Sample.str_of_value Sample.re_compile
           Sample.now Sample.shipping_upload).
  reflexivity.
Defined.

Lemma return_rows_doubled_witness :
  let config := rules_return Sample.config in
  let m := canonical_rename_map (return_final_columns config) in
  exists input out,
    return_filtered_input Sample.config Sample.to_datetime Sample.str_of_value
                          Sample.now Sample.return_upload = Ok input
    /\ process_return_data Sample.config Sample.to_datetime Sample.parse_numeric
                           Sample.str_of_value Sample.now Sample.return_upload = Ok out
    /\ well_formed Sample.return_upload
    /\ return_status_col config <> return_qty_col config
    /\ return_qty_col config <> col_new
    /\ sole_source (renamed m) col_new col_new (columns input)
    /\ exists originals copies,
        rows out = originals ++ copies
        /\ Forall2 (fun src r => get col_new r = CStr cat_return
                                 /\ return_derived config src r)
                   (rows input) originals
        /\ Forall2 (fun src r =>
                      (exists s c, get (return_status_col config) src = CStr s
                                   /\ bad_pason_map config !! s = Some c
                                   /\ get col_new r = CStr c)
                      /\ return_derived config src r)
                   (List.filter (status_is_key config) (rows input)) copies
        /\ len out
           = (2 * length (List.filter (status_is_key config) (rows input))
              + length (List.filter (fun r => negb (status_is_key config r))
                                    (rows input)))%nat.
Proof.
  cbv zeta. eexists _, _.
  split; [reflexivity|]. split; [reflexivity|].
  split; [compute_done|]. split; [compute_done|]. split; [compute_done|].
  split; [compute_done|].
  apply (return_rows_doubled Sample.config Sample.to_datetime Sample.parse_numeric
           Sample.str_of_value Sample.now Sample.return_upload);
    first [reflexivity | compute_done].
Defined.

Lemma return_quantity_sign_witness :
  let config := rules_return Sample.config in
  let m := canonical_rename_map (return_final_columns config) in
  exists input out,
    return_filtered_input Sample.config Sample.to_datetime Sample.str_of_value
                          Sample.now Sample.return_upload = Ok input
    /\ process_return_data Sample.config Sample.to_datetime Sample.parse_numeric
                           Sample.str_of_value Sample.now Sample.return_upload = Ok out
    /\ well_formed Sample.return_upload
    /\ return_status_col config <> return_qty_col config
    /\ renamed m (return_qty_col config) = col_qty
    /\ sole_source (renamed m) col_qty (return_qty_col config) (columns input)
    /\ sole_source (renamed m) col_new col_new (columns input)
    /\ exists originals copies,
        rows out = originals ++ copies
        /\ Forall2 (fun src r => signed_quantity Sample.parse_numeric config src r
                                 /\ get col_new r = CStr cat_return)
                   (rows input) originals
        /\ Forall2 (fun src r => signed_quantity Sample.parse_numeric config src r
                                 /\ (get col_new r <> CStr cat_return ->
                                     forall q, coerced Sample.parse_numeric
                                                 (get (return_qty_col config) src) q ->
                                               get col_qty r = CNum (Z.abs q)))
                   (List.filter (status_is_key config) (rows input)) copies.
Proof.
  cbv zeta. eexists _, _.
  split; [reflexivity|]. split; [reflexivity|].
  split; [compute_done|]. split; [compute_done|]. split; [reflexivity|].
  split; [compute_done|]. split; [compute_done|].
  apply (return_quantity_sign Sample.config Sample.to_datetime Sample.parse_numeric
           Sample.str_of_value Sample.now Sample.return_upload);
    first [reflexivity | compute_done].
Defined.

(** The filter on the sample shipping upload, run in March 2024. *)
Lemma filter_by_previous_month_rows_witness :
  1 <= month Sample.now <= 12
  /\ let h : gmap nat DataFrame := {[ 0%nat := Sample.shipping_upload ]} in
     let d := content h 0%nat in
     let out :=
       content
         (snd (run (filter_by_previous_month Sample.to_datetime Sample.now 0%nat "[출고일자]") h))
         (fst (run (filter_by_previous_month Sample.to_datetime Sample.now 0%nat "[출고일자]") h))
     in
     (has_column "[출고일자]" d = false \/ empty d = true -> out = pd_DataFrame)
     /\ (has_column "[출고일자]" d = true -> empty d = false ->
         rows out = rows_of_preceding_month Sample.to_datetime Sample.now "[출고일자]"
                                            (without_summary_row d)
         /\ forall r', In r' (rows out) <->
              exists i r t,
                without_summary_row d !! i = Some r
                /\ Sample.to_datetime (map (get "[출고일자]") (without_summary_row d)) i = Some t
                /\ in_preceding_month Sample.now t
                /\ r' = set_cell "[출고일자]" (CDate t) r).
Proof.
  split; [compute_done|].
  apply (filter_by_previous_month_rows Sample.to_datetime Sample.now
           {[ 0%nat := Sample.shipping_upload ]} 0%nat "[출고일자]").
  compute_done.
Defined.




(** The three sample uploads in one run: the tally reads 3, 1, 1 and 5. *)
Lemma validation_sheet_always_written_witness :
  let run_sample := run_batch Sample.config Sample.to_datetime Sample.parse_numeric
                              Sample.str_of_value Sample.re_compile Sample.can_use_str Sample.now in
  let uploaded_files :=
    [Sample.shipping_upload; Sample.return_upload; Sample.receiving_upload] in
  exists workbook,
    run_sample uploaded_files = Ok workbook
    /\ exists df_shipping main type_abnormal store_abnormal others,
        concat_parts (sort_uploads Sample.config uploaded_files).1.1 = Ok df_shipping
        /\ process_shipping_data Sample.config Sample.to_datetime Sample.str_of_value Sample.re_compile
                                 Sample.now df_shipping
           = Ok (main, type_abnormal, store_abnormal)
        /\ workbook
           = others ++ [(sheet_validation,
                         validation_frame (len main) (len type_abnormal) (len store_abnormal))]
        /\ ~ In sheet_validation (map fst others)
        /\ len (validation_frame (len main) (len type_abnormal) (len store_abnormal)) = 4%nat
        /\ column_values "건수"
             (validation_frame (len main) (len type_abnormal) (len store_abnormal))
           = [CNum (Z.of_nat (len main)); CNum (Z.of_nat (len type_abnormal));
              CNum (Z.of_nat (len store_abnormal));
              CNum (Z.of_nat (len main + len type_abnormal + len store_abnormal))]
        /\ (len main = 0%nat -> len type_abnormal = 0%nat -> len store_abnormal = 0%nat ->
            column_values "건수"
              (validation_frame (len main) (len type_abnormal) (len store_abnormal))
            = [CNum 0; CNum 0; CNum 0; CNum 0])
        /\ (forall name,
              (forall files wb, run_sample files = Ok wb -> In name (map fst wb))
              <-> name = sheet_validation).
Proof.
  cbv zeta.
  exists (match run_batch Sample.config Sample.to_datetime Sample.parse_numeric
                          Sample.str_of_value Sample.re_compile Sample.can_use_str Sample.now
                          [Sample.shipping_upload; Sample.return_upload;
                           Sample.receiving_upload] with
          | Ok workbook => workbook
          | Err _ => []
          end).
  split; [vm_compute; reflexivity|].
  apply (validation_sheet_always_written Sample.config Sample.to_datetime Sample.parse_numeric
           Sample.str_of_value Sample.re_compile Sample.can_use_str Sample.now
           [Sample.shipping_upload; Sample.return_upload; Sample.receiving_upload]).
  vm_compute. reflexivity.
Defined.

(** ** The scenarios of the specification on the sample uploads *)

(** One shipping file with five rows of the month (three of listed malls,
    one of an unlisted mall, one of another carrier type) and two rows of
    other months: the sheets have 3, 1 and 1 rows and the tally reads
    3, 1, 1, 5. *)
Example shipping_scenario :
  match run_batch Sample.config Sample.to_datetime Sample.parse_numeric Sample.str_of_value Sample.re_compile Sample.can_use_str
                  Sample.now [Sample.shipping_upload] with
  | Ok workbook =>
      map (fun sheet => (fst sheet, len (snd sheet))) workbook
      = [("정산요약", 3%nat); ("매출처 이상", 1%nat); ("출고타입 이상", 1%nat); ("검증", 4%nat)]
      /\ map (fun sheet => column_values "건수" (snd sheet)) (skipn 3 workbook)
         = [[CNum 3; CNum 1; CNum 1; CNum 5]]
  | Err _ => False
  end.
Proof. vm_compute. split; reflexivity. Qed.

(** A return with a mapped status gives two rows, a return of minus the
    quantity and a defective of plus the quantity; another return gives one
    row; a return of an excluded brand gives none. *)
Example return_scenario :
  match process_return_data Sample.config Sample.to_datetime Sample.parse_numeric
                            Sample.str_of_value Sample.now Sample.return_upload with
  | Ok out =>
      map (fun r => (get "주문번호" r, get col_new r, get col_qty r)) (rows out)
      = [(CStr "R1", CStr "반품", CNum (-3)); (CStr "R2", CStr "반품", CNum (-2));
         (CStr "R1", CStr "불량", CNum 3)]
  | Err _ => False
  end.
Proof. vm_compute. reflexivity. Qed.

(** Receipts: the peculiar rows are negated returns, the free row keeps its
    quantity and takes the second segment of its category. *)
Example receiving_scenario :
  match process_receiving_data Sample.config Sample.to_datetime Sample.parse_numeric
                               Sample.str_of_value Sample.can_use_str Sample.now Sample.receiving_upload with
  | Ok (peculiar, free) =>
      map (fun r => (get "주문번호" r, get col_new r, get col_qty r)) (rows peculiar)
      = [(CStr "I2", CStr "반품", CNum (-4)); (CStr "I4", CStr "반품", CNum (-6))]
      /\ map (fun r => (get "주문번호" r, get col_new r, get col_qty r)) (rows free)
         = [(CStr "I1", CStr "무상샘플", CNum 10)]
  | Err _ => False
  end.
Proof. vm_compute. split; reflexivity. Qed.

(** ** The further properties on the sample installation *)

(** A table of several rows is filtered on a copy. *)
Lemma filter_by_previous_month_frame_witness :
  let h : gmap nat DataFrame := {[ 0%nat := Sample.shipping_upload ]} in
  is_Some (h !! 0%nat)
  /\ (len (content h 0%nat) <> 1%nat \/ has_column "[출고일자]" (content h 0%nat) = false)
  /\ content (snd (run (filter_by_previous_month Sample.to_datetime Sample.now 0%nat
                          "[출고일자]") h)) 0%nat
     = content h 0%nat.
Proof.
  cbv zeta. split; [compute_done|]. split; [left; compute_done|].
  apply (filter_by_previous_month_frame Sample.to_datetime Sample.now
           {[ 0%nat := Sample.shipping_upload ]} 0%nat "[출고일자]");
    [compute_done | left; compute_done].
Defined.

Lemma filter_by_previous_month_fresh_result_witness :
  let h : gmap nat DataFrame := {[ 0%nat := Sample.shipping_upload ]} in
  let call := run (filter_by_previous_month Sample.to_datetime Sample.now 0%nat
                     "[출고일자]") h in
  is_Some (h !! 0%nat)
  /\ fst call <> 0%nat
  /\ h !! fst call = None
  /\ is_Some (snd call !! fst call)
  /\ forall l, l <> 0%nat -> is_Some (h !! l) -> snd call !! l = h !! l.
Proof.
  cbv zeta. split; [compute_done|].
  apply (filter_by_previous_month_fresh_result Sample.to_datetime Sample.now
           {[ 0%nat := Sample.shipping_upload ]} 0%nat "[출고일자]").
  compute_done.
Defined.

Lemma exclude_brands_postcondition_witness :
  has_column "[브랜드]" Sample.return_upload = true
  /\ NoDup (columns Sample.return_upload)
  /\ exists out,
      exclude_brands Sample.config Sample.str_of_value "[브랜드]" Sample.return_upload = Ok out
      /\ Forall (fun r => exists b, get "[브랜드]" r = CStr b
                                    /\ ~ In b (excluded_brands Sample.config)
                                    /\ normalize_brand Sample.str_of_value (CStr b) = b)
                (rows out)
      /\ sublist (labels out) (labels Sample.return_upload)
      /\ exclude_brands Sample.config Sample.str_of_value "[브랜드]" out = Ok out.
Proof.
  split; [reflexivity|]. split; [compute_done|].
  apply (proj2 (exclude_brands_postcondition Sample.config Sample.str_of_value "[브랜드]"
                  Sample.return_upload)); [reflexivity | compute_done].
Defined.

Lemma shipping_prepare_postcondition_witness :
  exists out,
    shipping_prepare Sample.config Sample.str_of_value Sample.shipping Sample.shipping_upload
    = Ok out
    /\ Forall (fun r =>
                 (exists b, get col_brand r = CStr b /\ ~ In b (excluded_brands Sample.config))
                 /\ forallb (fun e => shipping_entry_holds e r)
                            (shipping_filters Sample.shipping) = true)
              (rows out).
Proof.
  exists (match shipping_prepare Sample.config Sample.str_of_value Sample.shipping
                  Sample.shipping_upload with
          | Ok out => out
          | Err _ => pd_DataFrame
          end).
  split; [vm_compute; reflexivity|].
  apply (shipping_prepare_postcondition Sample.config Sample.str_of_value Sample.shipping
           Sample.shipping_upload).
  vm_compute. reflexivity.
Defined.

Lemma shipping_tables_by_membership_witness :
  let config := Sample.shipping in
  let df := Sample.prepared_shipping in
  let type_ok r := str_isin (normal_type (type_conditions config)) (get col_type r) in
  let mall_ok r :=
    Str.mem (normalize_mall Sample.str_of_value (get col_mall r)) (mall_list config) in
  exists main type_abnormal store_abnormal,
    shipping_classify Sample.str_of_value Sample.re_compile config df = Ok (main, type_abnormal, store_abnormal)
    /\ labels main = map label (List.filter (fun r => type_ok r && mall_ok r) (rows df))
    /\ labels type_abnormal = map label (List.filter (fun r => negb (type_ok r)) (rows df))
    /\ labels store_abnormal
       = map label (List.filter (fun r => type_ok r && negb (mall_ok r)) (rows df)).
Proof.
  cbv zeta.
  pose (out := match shipping_classify Sample.str_of_value Sample.re_compile Sample.shipping
                       Sample.prepared_shipping with
               | Ok out => out
               | Err _ => (pd_DataFrame, pd_DataFrame, pd_DataFrame)
               end).
  exists out.1.1, out.1.2, out.2.
  split; [vm_compute; reflexivity|].
  apply (shipping_tables_by_membership Sample.str_of_value Sample.re_compile Sample.shipping
           Sample.prepared_shipping).
  vm_compute. reflexivity.
Defined.

Lemma shipping_tables_shape_witness :
  let m := renamed (canonical_rename_map (shipping_final_columns
                                            (rules_shipping Sample.config))) in
  let shaped (is_abnormal : bool) (written : list string) (t : DataFrame) :=
    well_formed t
    /\ (t = pd_DataFrame
        \/ forall c, In c (columns t) <-> In c (shipping_col_order is_abnormal))
    /\ (forall c, In c (shipping_col_order is_abnormal) ->
                  (forall k, In k (columns Sample.shipping_upload) \/ In k written ->
                             m k <> c) ->
                  Forall (fun r => get c r = CNull) (rows t)) in
  exists main type_abnormal store_abnormal,
    process_shipping_data Sample.config Sample.to_datetime Sample.str_of_value
                          Sample.re_compile Sample.now Sample.shipping_upload
    = Ok (main, type_abnormal, store_abnormal)
    /\ well_formed Sample.shipping_upload
    /\ shaped false [col_new; col_source; col_unit] main
    /\ shaped true [col_source; col_unit] type_abnormal
    /\ shaped false [col_new; col_source; col_unit] store_abnormal.
Proof.
  cbv zeta.
  pose (out := match process_shipping_data Sample.config Sample.to_datetime
                       Sample.str_of_value Sample.re_compile Sample.now
                       Sample.shipping_upload with
               | Ok out => out
               | Err _ => (pd_DataFrame, pd_DataFrame, pd_DataFrame)
               end).
  exists out.1.1, out.1.2, out.2.
  split; [vm_compute; reflexivity|]. split; [compute_done|].
  apply (shipping_tables_shape Sample.config Sample.to_datetime Sample.str_of_value
           Sample.re_compile Sample.now Sample.shipping_upload);
    [vm_compute; reflexivity | compute_done].
Defined.

Lemma assign_category_rule_witness :
  let d := Sample.prepared_shipping in
  let category_map := category_map Sample.shipping in
  let seeding_map := seeding_map Sample.shipping in
  let fallback := default cat_other (category_map !! "default") in
  let mapped r := match get col_mall r with
                  | CStr s => default fallback (category_map !! s)
                  | _ => fallback end in
  let seeded r := match seeding_map with
                  | Some sm => cell_eqb (get col_brand r) (CStr (seed_brand sm))
                               && cell_eqb (get col_mall r) (CStr (seed_mall sm))
                  | None => false end in
  empty d = false
  /\ has_column col_brand d = true
  /\ has_column col_mall d = true
  /\ Forall2 (fun r r' =>
                label r' = label r
                /\ (forall c, c <> col_new -> get c r' = get c r)
                /\ get col_new r'
                   = CStr (if seeded r
                           then match seeding_map with
                                | Some sm => seed_category sm
                                | None => mapped r end
                           else mapped r))
             (rows d) (rows (assign_category d category_map seeding_map)).
Proof.
  cbv zeta. do 3 (split; [reflexivity|]).
  apply (assign_category_rule Sample.prepared_shipping (category_map Sample.shipping)
           (seeding_map Sample.shipping)); reflexivity.
Defined.

Lemma process_return_data_outcome_witness :
  let config := rules_return Sample.config in
  let month := previous_month_of Sample.to_datetime Sample.now Sample.return_upload
                 (return_date_col config) in
  empty Sample.return_upload = false
  /\ empty month = false
  /\ NoDup (columns month)
  /\ has_column (return_brand_col config) month = true
  /\ has_column (return_qty_col config) month = true
  /\ has_column (return_status_col config) month = true
  /\ exists out,
      process_return_data Sample.config Sample.to_datetime Sample.parse_numeric
                          Sample.str_of_value Sample.now Sample.return_upload = Ok out.
Proof.
  cbv zeta. do 6 (split; [compute_done|]).
  apply (proj2 (process_return_data_outcome Sample.config Sample.to_datetime
                  Sample.parse_numeric Sample.str_of_value Sample.now
                  Sample.return_upload));
    compute_done.
Defined.

Lemma return_table_shape_witness :
  exists out,
    process_return_data Sample.config Sample.to_datetime Sample.parse_numeric
                        Sample.str_of_value Sample.now Sample.return_upload = Ok out
    /\ labels out = map Z.of_nat (seq 0 (len out))
    /\ (forall c, In c (columns out) -> In c canonical_col_order)
    /\ (out = pd_DataFrame
        \/ In col_new (columns out) /\ In col_unit_ea (columns out)
           /\ In col_source (columns out)).
Proof.
  exists (match process_return_data Sample.config Sample.to_datetime Sample.parse_numeric
                  Sample.str_of_value Sample.now Sample.return_upload with
          | Ok out => out
          | Err _ => pd_DataFrame
          end).
  split; [vm_compute; reflexivity|].
  apply (return_table_shape Sample.config Sample.to_datetime Sample.parse_numeric
           Sample.str_of_value Sample.now Sample.return_upload).
  vm_compute. reflexivity.
Defined.

Lemma receiving_buckets_rows_witness :
  let config := Sample.receiving in
  let df := Sample.receiving_upload in
  let is_free r := str_isin (free_types config) (get (receiving_type_col config) r) in
  let passes r := forallb (fun e => receiving_entry_holds e r) (peculiar_filters config) in
  exists peculiar free,
    receiving_buckets Sample.config Sample.str_of_value config df = Ok (peculiar, free)
    /\ exists cleaned,
        exclude_brands Sample.config Sample.str_of_value col_brand df = Ok cleaned
        /\ columns free = columns cleaned
        /\ columns peculiar = columns cleaned
        /\ rows free = List.filter is_free (rows cleaned)
        /\ rows peculiar = List.filter (fun r => negb (is_free r) && passes r) (rows cleaned)
        /\ (forall r, In r (rows free) -> ~ In r (rows peculiar)).
Proof.
  cbv zeta.
  pose (out := match receiving_buckets Sample.config Sample.str_of_value Sample.receiving
                       Sample.receiving_upload with
               | Ok out => out
               | Err _ => (pd_DataFrame, pd_DataFrame)
               end).
  exists out.1, out.2.
  split; [vm_compute; reflexivity|].
  apply (receiving_buckets_rows Sample.config Sample.str_of_value Sample.receiving
           Sample.receiving_upload).
  vm_compute. reflexivity.
Defined.

(** The sample receipts as one bucket, finalized as peculiar and as free. *)
Lemma receiving_finalize_outcome_witness :
  let config := Sample.receiving in
  let d := Sample.receiving_upload in
  let qty := receiving_qty_col config in
  let cols := add_column col_unit (add_column col_source (columns d)) in
  let labelled := assign col_unit (fun _ => CNum 1)
                    (assign col_source (fun _ => CStr "삼일 입고데이터") d) in
  let m := renamed (receiving_rename_map qty (final_columns_free config)) in
  empty d = false
  /\ NoDup (columns d)
  /\ In qty cols
  /\ In col_category (map m cols)
  /\ NoDup (map m cols)
  /\ Sample.can_use_str (column_values col_category (rename m labelled)) = true
  /\ (exists out,
        receiving_finalize Sample.parse_numeric Sample.can_use_str config d
                           (final_columns_peculiar config) false = Ok out
        /\ len out = len d)
  /\ (exists out,
        receiving_finalize Sample.parse_numeric Sample.can_use_str config d
                           (final_columns_free config) true = Ok out
        /\ len out = len d).
Proof.
  cbv zeta. do 6 (split; [compute_done|]). split.
  - destruct (receiving_finalize_outcome Sample.parse_numeric Sample.can_use_str
                Sample.receiving Sample.receiving_upload
                (final_columns_peculiar Sample.receiving) false)
      as (_ & H & _); [reflexivity | compute_done |].
    apply H; [compute_done | reflexivity].
  - destruct (receiving_finalize_outcome Sample.parse_numeric Sample.can_use_str
                Sample.receiving Sample.receiving_upload
                (final_columns_free Sample.receiving) true)
      as (_ & _ & H); [reflexivity | compute_done |].
    destruct H as (_ & _ & H); [compute_done | reflexivity |].
    destruct H as [_ H]; [compute_done | compute_done |].
    apply H. compute_done.
Defined.

Lemma receiving_tables_shape_witness :
  let config := rules_receiving Sample.config in
  let shaped (cols_map : list (string * string)) (t : DataFrame) :=
    (well_formed Sample.receiving_upload -> well_formed t)
    /\ (t = pd_DataFrame \/ forall c, In c (columns t) <-> In c receiving_final_cols)
    /\ Forall (fun r => get col_unit_ea r = CNum 1) (rows t)
    /\ (forall c, In c receiving_final_cols -> ~ In c [col_qty; col_new; col_unit_ea] ->
          (forall k, In k (columns Sample.receiving_upload) \/ In k [col_source; col_unit] ->
                     renamed (receiving_rename_map (receiving_qty_col config) cols_map) k
                     <> c) ->
          Forall (fun r => get c r = CNull) (rows t)) in
  exists peculiar free,
    process_receiving_data Sample.config Sample.to_datetime Sample.parse_numeric
                           Sample.str_of_value Sample.can_use_str Sample.now
                           Sample.receiving_upload
    = Ok (peculiar, free)
    /\ shaped (final_columns_peculiar config) peculiar
    /\ shaped (final_columns_free config) free.
Proof.
  cbv zeta.
  pose (out := match process_receiving_data Sample.config Sample.to_datetime
                       Sample.parse_numeric Sample.str_of_value Sample.can_use_str
                       Sample.now Sample.receiving_upload with
               | Ok out => out
               | Err _ => (pd_DataFrame, pd_DataFrame)
               end).
  exists out.1, out.2.
  split; [vm_compute; reflexivity|].
  apply (receiving_tables_shape Sample.config Sample.to_datetime Sample.parse_numeric
           Sample.str_of_value Sample.can_use_str Sample.now Sample.receiving_upload).
  vm_compute. reflexivity.
Defined.

Lemma workbook_sheet_order_witness :
  exists workbook,
    run_batch Sample.config Sample.to_datetime Sample.parse_numeric Sample.str_of_value Sample.re_compile Sample.can_use_str
              Sample.now
              [Sample.shipping_upload; Sample.return_upload; Sample.receiving_upload]
    = Ok workbook
    /\ sublist (map fst workbook)
               ["정산요약"; "매출처 이상"; "출고타입 이상"; "입고 특이사항"; "무상 정상 입고";
                sheet_validation]
    /\ NoDup (map fst workbook)
    /\ Forall (fun s => empty (snd s) = false) workbook.
Proof.
  exists (match run_batch Sample.config Sample.to_datetime Sample.parse_numeric
                          Sample.str_of_value Sample.re_compile Sample.can_use_str Sample.now
                          [Sample.shipping_upload; Sample.return_upload;
                           Sample.receiving_upload] with
          | Ok workbook => workbook
          | Err _ => []
          end).
  split; [vm_compute; reflexivity|].
  apply (workbook_sheet_order Sample.config Sample.to_datetime Sample.parse_numeric
           Sample.str_of_value Sample.re_compile Sample.can_use_str Sample.now
           [Sample.shipping_upload; Sample.return_upload; Sample.receiving_upload]).
  vm_compute. reflexivity.
Defined.

Lemma format_date_columns_effect_witness :
  let df := Sample.dated_sheet in
  exists out,
    format_date_columns Sample.to_datetime df = Ok out
    /\ columns out = columns df
    /\ len out = len df
    /\ Forall2 (fun r r' =>
                  label r' = label r
                  /\ (forall c, c <> col_date -> get c r' = get c r)
                  /\ (has_column col_date df = true ->
                      get col_date r' = CNull
                      \/ exists s, get col_date r' = CStr s /\ String.length s = 10%nat))
               (rows df) (rows out).
Proof.
  cbv zeta.
  exists (match format_date_columns Sample.to_datetime Sample.dated_sheet with
          | Ok out => out
          | Err _ => pd_DataFrame
          end).
  split; [vm_compute; reflexivity|].
  apply (format_date_columns_effect Sample.to_datetime Sample.dated_sheet).
  vm_compute. reflexivity.
Defined.

Lemma summary_sheet_rows_witness :
  let assemble_sample :=
    assemble Sample.config Sample.to_datetime Sample.parse_numeric Sample.str_of_value Sample.re_compile Sample.can_use_str
             Sample.now Sample.shipping_upload Sample.return_upload Sample.receiving_upload in
  exists workbook,
    assemble_sample = Ok workbook
    /\ exists main type_abnormal store_abnormal main_return,
        process_shipping_data Sample.config Sample.to_datetime Sample.str_of_value Sample.re_compile
                              Sample.now Sample.shipping_upload
        = Ok (main, type_abnormal, store_abnormal)
        /\ process_return_data Sample.config Sample.to_datetime Sample.parse_numeric
                               Sample.str_of_value Sample.now Sample.return_upload
           = Ok main_return
        /\ ((len main + len main_return = 0)%nat -> ~ In "정산요약" (map fst workbook))
        /\ forall summary,
             In ("정산요약", summary) workbook ->
             labels summary = map Z.of_nat (seq 0 (len main + len main_return))
             /\ Forall2 (fun src r => forall c, In c (columns summary) -> c <> col_date ->
                                                get c r = get c src)
                        (rows main ++ rows main_return) (rows summary).
Proof.
  cbv zeta.
  exists (match assemble Sample.config Sample.to_datetime Sample.parse_numeric
                         Sample.str_of_value Sample.re_compile Sample.can_use_str Sample.now Sample.shipping_upload
                         Sample.return_upload Sample.receiving_upload with
          | Ok workbook => workbook
          | Err _ => []
          end).
  split; [vm_compute; reflexivity|].
  apply (summary_sheet_rows Sample.config Sample.to_datetime Sample.parse_numeric
           Sample.str_of_value Sample.re_compile Sample.can_use_str Sample.now Sample.shipping_upload Sample.return_upload
           Sample.receiving_upload).
  vm_compute. reflexivity.
Defined.

Lemma shipping_classify_outcome_witness :
  let config := Sample.shipping in
  let df := Sample.prepared_shipping in
  let pattern := Str.join "|" (normal_mall_keywords (type_conditions config)) in
  NoDup (columns df)
  /\ has_column col_mall df = true
  /\ has_column col_type df = true
  /\ Sample.re_compile pattern = Some (Str.find_alternative pattern)
  /\ normal_type (type_conditions config) <> []
  /\ has_column col_brand df = true
  /\ exists out, shipping_classify Sample.str_of_value Sample.re_compile config df = Ok out.
Proof.
  cbv zeta. split; [compute_done|]. do 3 (split; [reflexivity|]).
  split; [discriminate|]. split; [reflexivity|].
  destruct (shipping_classify_outcome Sample.str_of_value Sample.re_compile Sample.shipping
              Sample.prepared_shipping) as (_ & _ & H); [compute_done|].
  destruct H as [_ H]; [reflexivity | reflexivity |].
  destruct (H _ eq_refl) as [_ Hok].
  apply Hok; [discriminate | reflexivity].
Defined.
